(** * django_cryptotracker: the dashboard scripts

    A shallow embedding of [static/js/dashboard.js] (the price-refresh click
    handler and [showAlert]) and of the chart script that defines
    [initPortfolioChart], with the properties of their specification.

    - [Number]: JavaScript numbers as IEEE 754 binary64 values
      ([spec_float] at precision 53), with [Number.prototype.toFixed];
    - [Dom]: the document as a tree of nodes, element references as paths,
      the selectors the scripts use, and the mutations they perform;
    - [Js]: a state-and-exception monad: an exception leaves the mutations
      made so far in place;
    - [Dashboard]: [showAlert] and the click handler of [#refreshPrices];
    - [Chart]: the tooltip label callback of [initPortfolioChart]. *)

From Stdlib Require Import ZArith List String Ascii Bool Lia.
From Stdlib Require Import Floats.SpecFloat DecimalString DecimalN.
Import ListNotations.
Open Scope string_scope.

(** ** Numbers *)

Module Number.
Local Open Scope Z_scope.

Definition prec : Z := 53.
Definition emax : Z := 1024.

(** A JavaScript Number. *)
Definition number : Type := spec_float.

(** The Number nearest to an integer (exact below 2^53). *)
Definition of_Z (z : Z) : number := binary_normalize prec emax z 0 false.

Definition add : number -> number -> number := SFadd prec emax.
Definition mul : number -> number -> number := SFmul prec emax.
Definition div : number -> number -> number := SFdiv prec emax.

(** The Number a decimal literal [m]e-[k] denotes, as JSON.parse and the
    JavaScript reader produce it: both operands are exact when [|m|] and
    [10^k] are below 2^53, and the IEEE division rounds once, to nearest. *)
Definition of_decimal (m : Z) (k : nat) : number :=
  div (of_Z m) (of_Z (10 ^ Z.of_nat k)).

(** [x >= y]: false as soon as one side is NaN. *)
Definition ge (x y : number) : bool :=
  match SFcompare x y with
  | Some Gt | Some Eq => true
  | _ => false
  end.

(** [x < y]. *)
Definition lt (x y : number) : bool := SFltb x y.

Definition zero : number := S754_zero false.

(** Decimal digits of a natural number, ["0"] for zero. *)
Definition decimal (n : Z) : string :=
  NilZero.string_of_uint (N.to_uint (Z.to_N n)).

(** The natural number a string of decimal digits denotes. *)
Definition read (s : string) : option Z :=
  option_map (fun d => Z.of_N (N.of_uint d)) (NilEmpty.uint_of_string s).

Fixpoint zeros (n : nat) : string :=
  match n with
  | O => ""%string
  | S n' => String "0" (zeros n')
  end.

(** Steps 10.b-10.d of Number.prototype.toFixed: the digits of [n] with a
    point before the last [f] of them, padded with zeros on the left so that
    one digit at least stands before the point. *)
Definition fixed_digits (n : Z) (f : nat) : string :=
  let m := decimal n in
  match f with
  | O => m
  | S _ =>
      let k := String.length m in
      let m := if Nat.leb k f then zeros (f + 1 - k)%nat ++ m else m in
      let k := String.length m in
      substring 0 (k - f)%nat m ++ "." ++ substring (k - f)%nat f m
  end.

(** The integer [n] for which [n / 10^f] is closest to [m * 2^e]; of two
    such, the larger one (step 10.a). *)
Definition scaled_nearest (m : positive) (e : Z) (f : nat) : Z :=
  let num := Z.pos m * 10 ^ Z.of_nat f in
  if (0 <=? e)%Z then num * 2 ^ e
  else (2 * num + 2 ^ (- e)) / (2 * 2 ^ (- e)).

(** [10^21 <= m * 2^e] *)
Definition at_least_1e21 (m : positive) (e : Z) : bool :=
  if (0 <=? e)%Z then (10 ^ 21 <=? Z.pos m * 2 ^ e)%Z
  else (10 ^ 21 * 2 ^ (- e) <=? Z.pos m)%Z.

(** *** Number::toString for values of 10^21 and more

    toFixed falls back on it there.  The result is the shortest digit string
    [s] (of [k] digits) with an exponent [n] such that [s * 10^(n-k)] rounds
    to the number; when two digit strings of that length do, the one closest
    to the number is taken, as the standard recommends and engines do. *)

Definition floor_value (m : positive) (e : Z) : Z :=
  if (0 <=? e)%Z then Z.pos m * 2 ^ e else Z.pos m / 2 ^ (- e).

Definition same_finite (x : number) (m : positive) (e : Z) : bool :=
  match x with
  | S754_finite false m' e' => Pos.eqb m m' && Z.eqb e e'
  | _ => false
  end.

(** Does the integer [v] round to the positive number [m * 2^e]? *)
Definition rounds_to (v : Z) (m : positive) (e : Z) : bool :=
  same_finite (of_Z v) m e.

(** The distance from [s * scale] to [m * 2^e], times [2^(-e)] when [e] is
    negative: enough to compare two candidates. *)
Definition distance (s scale : Z) (m : positive) (e : Z) : Z :=
  if (0 <=? e)%Z then Z.abs (s * scale - Z.pos m * 2 ^ e)
  else Z.abs (s * scale * 2 ^ (- e) - Z.pos m).

(** The [k]-digit candidate for exponent [n], if there is one. *)
Definition candidate (m : positive) (e : Z) (n : Z) (k : nat) : option Z :=
  let scale := 10 ^ (n - Z.of_nat k) in
  let lo := floor_value m e / scale in
  let hi := lo + 1 in
  let ok s := (10 ^ (Z.of_nat k - 1) <=? s)%Z && (s <? 10 ^ Z.of_nat k)%Z
              && rounds_to (s * scale) m e in
  match ok lo, ok hi with
  | true, true =>
      let dl := distance lo scale m e in
      let dh := distance hi scale m e in
      if (dl <? dh)%Z then Some lo
      else if (dh <? dl)%Z then Some hi
      else if Z.even lo then Some lo else Some hi
  | true, false => Some lo
  | false, true => Some hi
  | false, false => None
  end.

(** Shortest candidate with [k .. k + fuel - 1] digits. *)
Fixpoint shortest (m : positive) (e : Z) (n : Z) (k fuel : nat) : option (Z * nat) :=
  match fuel with
  | O => None
  | S fuel' =>
      match candidate m e n k with
      | Some s => Some (s, k)
      | None => shortest m e n (S k) fuel'
      end
  end.

Definition exponent_form (s : Z) (k : nat) (n : Z) : string :=
  let d := decimal s in
  match k with
  | 1%nat => d ++ "e+" ++ decimal (n - 1)
  | _ => substring 0 1 d ++ "." ++ substring 1 (k - 1)%nat d ++ "e+" ++ decimal (n - 1)
  end.

Definition to_string_large (m : positive) (e : Z) : string :=
  let v := floor_value m e in
  let n := Z.of_nat (String.length (decimal v)) in
  if rounds_to (10 ^ n) m e then exponent_form 1 1 (n + 1)
  else
    match shortest m e n 1 17 with
    | Some (s, k) => exponent_form s k n
    | None => decimal v   (* 17 digits identify a binary64 value: not reached *)
    end.

(** Number.prototype.toFixed(f), for [0 <= f <= 100]. *)
Definition toFixed (x : number) (f : nat) : string :=
  match x with
  | S754_nan => "NaN"
  | S754_infinity s => if s then "-Infinity" else "Infinity"
  | S754_zero _ => fixed_digits 0 f
  | S754_finite s m e =>
      (if s then "-" else "") ++
      (if at_least_1e21 m e then to_string_large m e
       else fixed_digits (scaled_nearest m e f) f)
  end.

End Number.

(** ** The document *)

Module Dom.

(** A node is a text node, an element, or the content an [innerHTML]
    assignment gave an element: that markup is kept as written, the nodes the
    browser's parser would build from it are not represented, and no query
    looks into it. *)
Unset Elimination Schemes.
Inductive node : Type :=
| Text (data : string)
| Markup (html : string)
| Elem (tag : string) (attrs : list (string * string)) (kids : list node).
Set Elimination Schemes.

(** A reference to a node: the child indices that lead to it from the
    document.  The empty path is the document itself. *)
Definition path : Type := list nat.

(** *** Attributes *)

Fixpoint getAttribute (name : string) (attrs : list (string * string)) : option string :=
  match attrs with
  | [] => None
  | (n, v) :: rest => if String.eqb n name then Some v else getAttribute name rest
  end.

Fixpoint setAttribute (name value : string) (attrs : list (string * string))
  : list (string * string) :=
  match attrs with
  | [] => [(name, value)]
  | (n, v) :: rest =>
      if String.eqb n name then (n, value) :: rest
      else (n, v) :: setAttribute name value rest
  end.

(** ASCII whitespace, which separates the tokens of a class attribute. *)
Definition is_space (c : ascii) : bool :=
  match nat_of_ascii c with
  | 9 | 10 | 12 | 13 | 32 => true
  | _ => false
  end.

(** [tokens_from cur s]: the tokens of [cur ++ s], where [cur] is a token
    being read (no whitespace in it). *)
Fixpoint tokens_from (cur : string) (s : string) : list string :=
  match s with
  | EmptyString => if String.eqb cur "" then [] else [cur]
  | String c rest =>
      if is_space c
      then (if String.eqb cur "" then tokens_from "" rest
            else cur :: tokens_from "" rest)
      else tokens_from (cur ++ String c "") rest
  end.

(** The [classList] of a class attribute. *)
Definition tokens (s : string) : list string := tokens_from "" s.

Definition mem (x : string) (l : list string) : bool :=
  existsb (String.eqb x) l.

Definition has_class (c : string) (attrs : list (string * string)) : bool :=
  match getAttribute "class" attrs with
  | Some v => mem c (tokens v)
  | None => false
  end.

(** *** Selectors: the four forms the scripts use *)

Inductive selector : Type :=
| ById (id : string)                  (* getElementById(id) *)
| ByClass (c : string)                (* .c *)
| ByTagClass (t c : string)           (* t.c *)
| ByTagAttr (t a v : string).         (* t[a="v"] *)

Definition matches (sel : selector) (tag : string) (attrs : list (string * string)) : bool :=
  match sel with
  | ById i =>
      match getAttribute "id" attrs with
      | Some v => String.eqb v i
      | None => false
      end
  | ByClass c => has_class c attrs
  | ByTagClass t c => String.eqb tag t && has_class c attrs
  | ByTagAttr t a v =>
      String.eqb tag t &&
      match getAttribute a attrs with
      | Some w => String.eqb w v
      | None => false
      end
  end.

Definition node_matches (sel : selector) (n : node) : bool :=
  match n with
  | Elem t a _ => matches sel t a
  | _ => false
  end.

(** *** Queries, in tree order *)

Definition kids_of (n : node) : list node :=
  match n with
  | Elem _ _ k => k
  | _ => []
  end.

Definition shift (p : path) : path :=
  match p with
  | [] => []
  | i :: q => S i :: q
  end.

(** The first node of [l] in whose subtree [F] finds something. *)
Fixpoint find_list (F : node -> option path) (l : list node) : option path :=
  match l with
  | [] => None
  | x :: xs =>
      match F x with
      | Some q => Some (0 :: q)
      | None => option_map shift (find_list F xs)
      end
  end.

(** First match in the subtree of [n], [n] included (then the path is
    empty); the path is relative to [n]. *)
Fixpoint find_node (sel : selector) (n : node) : option path :=
  match n with
  | Elem t a k => if matches sel t a then Some [] else find_list (find_node sel) k
  | _ => None
  end.

(** First match among the descendants of [n]. *)
Definition query (sel : selector) (n : node) : option path :=
  find_list (find_node sel) (kids_of n).

(** The node a path leads to from [n]. *)
Fixpoint get (p : path) (n : node) : option node :=
  match p with
  | [] => Some n
  | i :: q =>
      match nth_error (kids_of n) i with
      | Some c => get q c
      | None => None
      end
  end.

(** [scope.querySelector(sel)] in the document [root]: a reference to the
    first descendant of [scope] that matches, [None] for null. *)
Definition querySelector (scope : path) (sel : selector) (root : node) : option path :=
  match get scope root with
  | Some n => option_map (app scope) (query sel n)
  | None => None
  end.

Fixpoint count_node (sel : selector) (n : node) : nat :=
  match n with
  | Elem t a k =>
      (if matches sel t a then 1 else 0) + list_sum (map (count_node sel) k)
  | _ => 0
  end.

(** Number of elements [querySelectorAll(sel)] returns on the document. *)
Definition count (sel : selector) (root : node) : nat :=
  list_sum (map (count_node sel) (kids_of root)).

(** *** Mutations *)

Fixpoint modify_nth (i : nat) (g : node -> node) (l : list node) {struct l}
  : list node :=
  match l, i with
  | [], _ => []
  | x :: xs, O => g x :: xs
  | x :: xs, S j => x :: modify_nth j g xs
  end.

Definition on_kids (g : list node -> list node) (n : node) : node :=
  match n with
  | Elem t a k => Elem t a (g k)
  | _ => n
  end.

(** Apply [g] to the node at [p]; nothing changes when there is none. *)
Fixpoint update (p : path) (g : node -> node) (n : node) : node :=
  match p with
  | [] => g n
  | i :: q => on_kids (modify_nth i (update q g)) n
  end.

(** [e.textContent = s]: the children are replaced by one text node, by
    none when [s] is empty. *)
Definition with_text (s : string) (n : node) : node :=
  match n with
  | Elem t a _ => Elem t a (if String.eqb s "" then [] else [Text s])
  | _ => n
  end.

(** [e.className = c] *)
Definition with_class (c : string) (n : node) : node :=
  match n with
  | Elem t a k => Elem t (setAttribute "class" c a) k
  | _ => n
  end.

Fixpoint filter_map {A B : Type} (F : A -> option B) (l : list A) : list B :=
  match l with
  | [] => []
  | x :: xs =>
      match F x with
      | Some y => y :: filter_map F xs
      | None => filter_map F xs
      end
  end.

(** [n] without the elements that match [sel]; [None] when [n] is one. *)
Fixpoint prune_node (sel : selector) (n : node) : option node :=
  match n with
  | Elem t a k =>
      if matches sel t a then None
      else Some (Elem t a (filter_map (prune_node sel) k))
  | _ => Some n
  end.

(** The document after [querySelectorAll(sel).forEach(e => e.remove())]. *)
Definition prune (sel : selector) (root : node) : node :=
  on_kids (filter_map (prune_node sel)) root.

Definition insert_at (i : nat) (n : node) (l : list node) : list node :=
  (firstn i l ++ n :: skipn i l)%list.

Definition append (n : node) (l : list node) : list node :=
  (l ++ [n])%list.

(** The index of [child] among the children of [parent], when [child] is a
    child of [parent]. *)
Fixpoint child_index (parent child : path) : option nat :=
  match parent, child with
  | [], [i] => Some i
  | a :: parent', b :: child' =>
      if Nat.eqb a b then child_index parent' child' else None
  | _, _ => None
  end.

(** *** Reading a document *)

(** [g] never makes a match appear in a subtree that had none. *)
Definition preserves_none (sel : selector) (g : node -> node) : Prop :=
  forall n, find_node sel n = None -> find_node sel (g n) = None.

(** [g] keeps a node that matches a node that matches. *)
Definition preserves_match (sel : selector) (g : node -> node) : Prop :=
  forall n, node_matches sel n = true -> node_matches sel (g n) = true.

(** Is [p] a prefix of [q]: is the node at [q] the node at [p] or inside it? *)
Fixpoint prefixb (p q : path) : bool :=
  match p, q with
  | [], _ => true
  | i :: p', j :: q' => Nat.eqb i j && prefixb p' q'
  | _ :: _, [] => false
  end.

(** Neither node is the other or inside the other. *)
Definition apart (p q : path) : bool :=
  negb (prefixb p q) && negb (prefixb q p).

(** The text of an element whose only child is a text node. *)
Definition text_at (p : path) (root : node) : option string :=
  match get p root with
  | Some (Elem _ _ [Text s]) => Some s
  | _ => None
  end.

(** The class attribute of the element at [p]. *)
Definition class_at (p : path) (root : node) : option string :=
  match get p root with
  | Some (Elem _ a _) => getAttribute "class" a
  | _ => None
  end.

(** Pairwise [apart]. *)
Fixpoint separate (l : list path) : bool :=
  match l with
  | [] => true
  | p :: rest => forallb (apart p) rest && separate rest
  end.

End Dom.

(** ** Effects: page state and exceptions *)

Module Js.
Import Dom.

Inductive exn : Type :=
| TypeError          (* a property of null was read or written *)
| NotFoundError      (* insertBefore: the reference node is not a child *)
| NetworkError       (* fetch rejected *)
| SyntaxError.       (* response.json(): the body is not JSON *)

(** The control the handler is bound to ([this] in the handler).  The handler
    holds it by reference and touches three of its properties only; it is
    kept apart from [doc], which stands for the rest of the document. *)
Record button : Type := {
  disabled : bool;
  innerHTML : string;
  dataset_url : string
}.

(** [doc] is the Document node: its children are the top-level nodes, and
    the queries on the document search below it. *)
Record page : Type := {
  btn : button;
  doc : node;
  console : list (string * exn);      (* console.error calls, latest first *)
  timers : list Z;                    (* delays of the pending setTimeout calls *)
  requests : list string              (* addresses fetch was called with *)
}.

Inductive result (A : Type) : Type :=
| Ok (a : A)
| Throw (e : exn).
Arguments Ok {A} a.
Arguments Throw {A} e.

(** A computation reads and writes the page and returns or throws; what it
    wrote before throwing stays written. *)
Definition js (A : Type) : Type := page -> result A * page.

Definition ret {A : Type} (a : A) : js A := fun st => (Ok a, st).

Definition throw {A : Type} (e : exn) : js A := fun st => (Throw e, st).

Definition bind {A B : Type} (m : js A) (k : A -> js B) : js B :=
  fun st =>
    match m st with
    | (Ok a, st') => k a st'
    | (Throw e, st') => (Throw e, st')
    end.

(** [promise.catch(h)] as well as [try .. catch]. *)
Definition catch {A : Type} (m : js A) (h : exn -> js A) : js A :=
  fun st =>
    match m st with
    | (Ok a, st') => (Ok a, st')
    | (Throw e, st') => h e st'
    end.

Declare Scope js_scope.
Delimit Scope js_scope with js.
Notation "x <- m ;; k" := (bind m (fun x => k))
  (at level 61, m at next level, right associativity) : js_scope.
Notation "m ;; k" := (bind m (fun _ => k))
  (at level 61, right associativity) : js_scope.
Local Open Scope js_scope.

Fixpoint forEach {A : Type} (l : list A) (f : A -> js unit) : js unit :=
  match l with
  | [] => ret tt
  | x :: xs => f x ;; forEach xs f
  end.

Definition set_doc (d : node) (st : page) : page :=
  {| btn := btn st; doc := d; console := console st;
     timers := timers st; requests := requests st |}.

Definition set_btn (b : button) (st : page) : page :=
  {| btn := b; doc := doc st; console := console st;
     timers := timers st; requests := requests st |}.

Definition modify_doc (g : node -> node) : js unit :=
  fun st => (Ok tt, set_doc (g (doc st)) st).

(** *** The DOM interface the scripts use *)

Definition querySelector (scope : path) (sel : selector) : js (option path) :=
  fun st => (Ok (Dom.querySelector scope sel (doc st)), st).

Definition getElementById (i : string) : js (option path) :=
  querySelector [] (ById i).

(** [target.querySelector(sel)] where [target] may be null. *)
Definition querySelector_of (target : option path) (sel : selector) : js (option path) :=
  match target with
  | Some p => querySelector p sel
  | None => throw TypeError
  end.

(** [target.textContent = s] *)
Definition assign_textContent (target : option path) (s : string) : js unit :=
  match target with
  | Some p => modify_doc (update p (with_text s))
  | None => throw TypeError
  end.

(** [target.className = c] *)
Definition assign_className (target : option path) (c : string) : js unit :=
  match target with
  | Some p => modify_doc (update p (with_class c))
  | None => throw TypeError
  end.

(** [document.querySelectorAll(sel).forEach(e => e.remove())] *)
Definition remove_all (sel : selector) : js unit :=
  modify_doc (prune sel).

(** [parent.insertBefore(n, child)]: appends when [child] is null, and
    throws when [child] is not a child of [parent]. *)
Definition insertBefore (parent : option path) (n : node) (child : option path) : js unit :=
  match parent with
  | None => throw TypeError
  | Some p =>
      match child with
      | None => modify_doc (update p (on_kids (append n)))
      | Some c =>
          match child_index p c with
          | Some i => modify_doc (update p (on_kids (insert_at i n)))
          | None => throw NotFoundError
          end
      end
  end.

Definition setTimeout (delay : Z) : js unit :=
  fun st => (Ok tt,
             {| btn := btn st; doc := doc st; console := console st;
                timers := delay :: timers st; requests := requests st |}).

Definition console_error (tag : string) (e : exn) : js unit :=
  fun st => (Ok tt,
             {| btn := btn st; doc := doc st; console := (tag, e) :: console st;
                timers := timers st; requests := requests st |}).

Definition fetch (address : string) : js unit :=
  fun st => (Ok tt,
             {| btn := btn st; doc := doc st; console := console st;
                timers := timers st; requests := address :: requests st |}).

Definition set_disabled (b : bool) : js unit :=
  fun st => (Ok tt, set_btn {| disabled := b; innerHTML := innerHTML (btn st);
                               dataset_url := dataset_url (btn st) |} st).

Definition set_innerHTML (h : string) : js unit :=
  fun st => (Ok tt, set_btn {| disabled := disabled (btn st); innerHTML := h;
                               dataset_url := dataset_url (btn st) |} st).

(** [m] never brings an element that matches [sel] into a document that has
    none, whether it returns or throws. *)
Definition keeps_absent (sel : selector) {A : Type} (m : js A) : Prop :=
  forall st r st',
    m st = (r, st') -> query sel (doc st) = None -> query sel (doc st') = None.

End Js.

(** ** dashboard.js *)

Module Dashboard.
Import Dom Js.
Local Open Scope js_scope.

Definition number : Type := Number.number.

(** The payload of the refresh endpoint, with the shape the page expects:
    every numeric field is a Number, and [id] is the integer key of the
    portfolio (below 2^53, so that the Number is that integer and
    [`${p.id}`] is its decimal writing). *)
Record Totals : Type := {
  total_invested : number;
  total_current_value : number;
  total_profit_loss : number;
  total_profit_loss_percent : number
}.

Record Portfolio : Type := {
  id : N;
  current_price : number;
  current_value : number;
  profit_loss : number;
  profit_loss_percent : number
}.

Record Response : Type := {
  error : option string;
  totals : Totals;
  portfolios : list Portfolio
}.

(** How the promise chain [fetch(url).then(response => response.json())]
    settles. *)
Inductive settled : Type :=
| Rejected (e : exn)
| Resolved (data : Response).

Definition dq : string := String (ascii_of_nat 34) "".
Definition nl : string := String (ascii_of_nat 10) "".

Definition marker : selector := ByClass "ajax-alert".
Definition container_sel : selector := ByTagClass "main" "container".
Definition anchor_sel : selector := ByClass "d-flex".

Definition close_button : string :=
  "<button type=" ++ dq ++ "button" ++ dq ++ " class=" ++ dq ++ "btn-close" ++ dq
  ++ " data-bs-dismiss=" ++ dq ++ "alert" ++ dq ++ "></button>".

(** The element [showAlert] builds (lines 58-64). *)
Definition alertDiv (type message : string) : node :=
  Elem "div"
    [("class", "alert alert-" ++ type ++ " alert-dismissible fade show ajax-alert");
     ("role", "alert")]
    [Markup (nl ++ "        " ++ message ++ nl
             ++ "        " ++ close_button ++ nl ++ "    ")].

(** [showAlert(type, message)]; the callback of the timer runs in a later
    task and is not part of the call. *)
Definition showAlert (type message : string) : js unit :=
  remove_all marker ;;
  container <- querySelector [] container_sel ;;
  firstChild <- querySelector_of container anchor_sel ;;
  insertBefore container (alertDiv type message) firstChild ;;
  setTimeout 5000.

(** A string is truthy unless it is empty; an absent field is undefined. *)
Definition truthy (e : option string) : bool :=
  match e with
  | Some s => negb (String.eqb s "")
  | None => false
  end.

Definition message_of (e : option string) : string :=
  match e with
  | Some s => s
  | None => ""
  end.

Definition row_sel (p : Portfolio) : selector :=
  ByTagAttr "tr" "data-portfolio-id" (Number.decimal (Z.of_N (id p))).

(** The callback of [data.portfolios.forEach] (lines 25-41). *)
Definition update_row (p : Portfolio) : js unit :=
  row <- querySelector [] (row_sel p) ;;
  match row with
  | None => ret tt
  | Some row =>
      c <- querySelector row (ByClass "current-price") ;;
      assign_textContent c ("$" ++ Number.toFixed (current_price p) 2) ;;
      c <- querySelector row (ByClass "current-value") ;;
      assign_textContent c ("$" ++ Number.toFixed (current_value p) 2) ;;
      let plSign := if Number.ge (profit_loss p) Number.zero then "+" else "" in
      let plClass := if Number.ge (profit_loss p) Number.zero then "profit" else "loss" in
      c <- querySelector row (ByClass "profit-loss") ;;
      assign_textContent c (plSign ++ "$" ++ Number.toFixed (profit_loss p) 2) ;;
      c <- querySelector row (ByClass "profit-loss") ;;
      assign_className c (plClass ++ " profit-loss") ;;
      c <- querySelector row (ByClass "profit-loss-percent") ;;
      assign_textContent c ("(" ++ plSign ++ Number.toFixed (profit_loss_percent p) 2 ++ "%)") ;;
      c <- querySelector row (ByClass "profit-loss-percent") ;;
      assign_className c (plClass ++ " profit-loss-percent")
  end.

(** Lines 15-23. *)
Definition update_totals (t : Totals) : js unit :=
  e <- getElementById "totalInvested" ;;
  assign_textContent e ("$" ++ Number.toFixed (total_invested t) 2) ;;
  e <- getElementById "totalValue" ;;
  assign_textContent e ("$" ++ Number.toFixed (total_current_value t) 2) ;;
  let plSign := if Number.ge (total_profit_loss t) Number.zero then "+" else "" in
  let plPercent := Number.toFixed (total_profit_loss_percent t) 2 in
  e <- getElementById "totalPL" ;;
  assign_textContent e
    (plSign ++ "$" ++ Number.toFixed (total_profit_loss t) 2
     ++ " (" ++ plSign ++ plPercent ++ "%)") ;;
  e <- getElementById "totalPL" ;;
  assign_className e
    ("card-title " ++ (if Number.ge (total_profit_loss t) Number.zero then "profit" else "loss")).

Definition spinner_label : string :=
  "<span class=" ++ dq ++ "spinner-border spinner-border-sm" ++ dq
  ++ "></span> Обновление...".

Definition refresh_label : string :=
  "<i class=" ++ dq ++ "bi bi-arrow-clockwise" ++ dq ++ "></i> Обновить цены".

Definition failure_message : string :=
  "Ошибка при обновлении цен. Проверьте подключение к интернету.".

(** Lines 43-44 and 49-50. *)
Definition restore_button : js unit :=
  set_disabled false ;;
  set_innerHTML refresh_label.

(** The second [then] callback (lines 10-45). *)
Definition on_data (data : Response) : js unit :=
  (if truthy (error data) then showAlert "warning" (message_of (error data))
   else ret tt) ;;
  update_totals (totals data) ;;
  forEach (portfolios data) update_row ;;
  restore_button.

(** The [catch] callback (lines 46-51). *)
Definition on_error (e : exn) : js unit :=
  console_error "Error:" e ;;
  showAlert "danger" failure_message ;;
  restore_button.

(** The synchronous part of the click handler (lines 2-8). *)
Definition on_click : js unit :=
  fun st =>
    let url := dataset_url (btn st) in
    (set_disabled true ;;
     set_innerHTML spinner_label ;;
     fetch url) st.

(** What runs once the request has settled. *)
Definition on_settled (o : settled) : js unit :=
  catch
    (match o with
     | Rejected e => throw e
     | Resolved data => on_data data
     end)
    on_error.

(** One activation of the control, from the click to the end of the promise
    chain; [Throw] at the end is an unhandled rejection. *)
Definition activation (o : settled) : js unit :=
  on_click ;; on_settled o.

(** What [update_row] does to a row whose cells are at [q1 .. q4] (paths
    from the row), in the order of the six assignments. *)
Definition row_writes (p : Portfolio) (q1 q2 q3 q4 : path) (row : node) : node :=
  let plSign := if Number.ge (profit_loss p) Number.zero then "+" else "" in
  let plClass := if Number.ge (profit_loss p) Number.zero then "profit" else "loss" in
  update q4 (with_class (plClass ++ " profit-loss-percent"))
    (update q4 (with_text ("(" ++ plSign ++ Number.toFixed (profit_loss_percent p) 2 ++ "%)"))
       (update q3 (with_class (plClass ++ " profit-loss"))
          (update q3 (with_text (plSign ++ "$" ++ Number.toFixed (profit_loss p) 2))
             (update q2 (with_text ("$" ++ Number.toFixed (current_value p) 2))
                (update q1 (with_text ("$" ++ Number.toFixed (current_price p) 2)) row))))).

(** The row of an entry and its four cells, as the handler looks them up. *)
Definition cells (p : Portfolio) (root : node)
  : option (path * path * path * path * path) :=
  match Dom.querySelector [] (row_sel p) root with
  | None => None
  | Some row =>
      match Dom.querySelector row (ByClass "current-price") root,
            Dom.querySelector row (ByClass "current-value") root,
            Dom.querySelector row (ByClass "profit-loss") root,
            Dom.querySelector row (ByClass "profit-loss-percent") root with
      | Some c1, Some c2, Some c3, Some c4 => Some (row, c1, c2, c3, c4)
      | _, _, _, _ => None
      end
  end.

End Dashboard.

(** ** The chart script *)

Module Chart.

Definition number : Type := Number.number.

(** What the charting library hands to a tooltip callback: the label and the
    raw value of the hovered segment and the dataset it belongs to. *)
Record context : Type := {
  label : string;
  raw : number;
  dataset_data : list number
}.

(** The tooltip [label] callback (lines 53-58). *)
Definition tooltip_label (ctx : context) : string :=
  let value := raw ctx in
  let total := fold_left (fun a b => Number.add a b) (dataset_data ctx) Number.zero in
  let percentage := Number.toFixed (Number.mul (Number.div value total) (Number.of_Z 100)) 1 in
  label ctx ++ ": $" ++ Number.toFixed value 2 ++ " (" ++ percentage ++ "%)".

(** The context of segment [i] of the chart [initPortfolioChart(labels,
    values)] draws: one dataset, whose data is [values]. *)
Definition hover (labels : list string) (values : list number) (i : nat) : option context :=
  match nth_error labels i, nth_error values i with
  | Some l, Some v => Some {| label := l; raw := v; dataset_data := values |}
  | _, _ => None
  end.

Definition tooltip (labels : list string) (values : list number) (i : nat) : option string :=
  option_map tooltip_label (hover labels values i).

End Chart.

(** ** A sample page and sample payloads

    The page has the regions the handler writes to: the three totals, one
    table row (portfolio 7) with its four cells, and the alert container with
    its anchor. *)

Module Sample.
Import Dom Js Dashboard.

Definition cell (c : string) : node := Elem "td" [("class", c)] [Text "-"].

Definition row7 : node :=
  Elem "tr" [("data-portfolio-id", "7")]
    [Elem "td" [] [Text "BTC"];
     cell "current-price"; cell "current-value";
     cell "profit profit-loss"; cell "profit profit-loss-percent"].

Definition regions : list node :=
  [Elem "h5" [("id", "totalInvested")] [Text "-"];
   Elem "h5" [("id", "totalValue")] [Text "-"];
   Elem "h5" [("id", "totalPL"); ("class", "card-title profit")] [Text "-"];
   Elem "table" [] [Elem "tbody" [] [row7]]].

Definition header : node :=
  Elem "div" [("class", "d-flex justify-content-between")] [Text "Dashboard"].

Definition document_of (body : list node) : node :=
  Elem "#document" [] [Elem "html" [] [Elem "body" [] body]].

(** The page as the template lays it out. *)
Definition page_doc : node :=
  document_of [Elem "main" [("class", "container")] (header :: regions)].

(** The same page without the anchor in the container. *)
Definition no_anchor_doc : node :=
  document_of [Elem "main" [("class", "container")] regions].

(** The same regions, but no [main.container]. *)
Definition no_container_doc : node :=
  document_of [Elem "div" [("class", "container")] (header :: regions)].

Definition button0 : button :=
  {| disabled := false; innerHTML := refresh_label; dataset_url := "/refresh/" |}.

Definition page_of (d : node) : page :=
  {| btn := button0; doc := d; console := []; timers := []; requests := [] |}.

Definition totals0 : Totals :=
  {| total_invested := Number.of_Z 100;
     total_current_value := Number.of_Z 110;
     total_profit_loss := Number.of_Z 10;
     total_profit_loss_percent := Number.of_Z 10 |}.

(** A portfolio entry with the given identifier and profit/loss. *)
Definition entry (i : N) (pl : number) : Portfolio :=
  {| id := i;
     current_price := Number.of_decimal 15 1;
     current_value := Number.of_Z 3;
     profit_loss := pl;
     profit_loss_percent := Number.of_decimal 25 1 |}.

Definition payload (err : option string) (l : list Portfolio) : Response :=
  {| error := err; totals := totals0; portfolios := l |}.

(** The entry of the specification: a loss of 12.345 on portfolio 7. *)
Definition loss_entry : Portfolio := entry 7 (Number.of_decimal (-12345) 3).

(** An entry for a portfolio that has no row on the page. *)
Definition stray_entry : Portfolio := entry 8 (Number.of_Z 1).

(** Totals with a gain in amount and a negative percent. *)
Definition mixed_totals : Totals :=
  {| total_invested := Number.of_Z 100;
     total_current_value := Number.of_Z 110;
     total_profit_loss := Number.of_Z 10;
     total_profit_loss_percent := Number.of_Z (-5) |}.

(** The page after the row of [loss_entry] has been updated. *)
Definition after_loss_update : page :=
  snd (update_row loss_entry (page_of page_doc)).

(** Row 7 and its four cells in [page_doc]. *)
Definition row7_path : path := [0; 0; 0; 4; 0; 0].
Definition price_path : path := [0; 0; 0; 4; 0; 0; 1].
Definition value_path : path := [0; 0; 0; 4; 0; 0; 2].
Definition pl_path : path := [0; 0; 0; 4; 0; 0; 3].
Definition percent_path : path := [0; 0; 0; 4; 0; 0; 4].

(** The region [#totalInvested] in [no_container_doc]. *)
Definition invested_path : path := [0; 0; 0; 1].

End Sample.

(** ** The rest of the scripts

    The two timer callbacks of [showAlert], the legend callback of the
    chart, and the vocabulary of the properties stated about them. *)

Module ClassList.
Import Dom.

(** The tokens of an ordered set, each once, in the order of their first
    occurrence. *)
Fixpoint dedupe (l : list string) : list string :=
  match l with
  | [] => []
  | x :: rest => x :: filter (fun y => negb (String.eqb x y)) (dedupe rest)
  end.

Definition remove_token (tok : string) (l : list string) : list string :=
  filter (fun y => negb (String.eqb tok y)) l.

(** The serialization of a token set: the tokens, one space between two. *)
Fixpoint join (l : list string) : string :=
  match l with
  | [] => ""
  | [x] => x
  | x :: rest => x ++ " " ++ join rest
  end.

(** [e.classList.remove(tok)] for a token without whitespace: the class
    attribute becomes the serialization of its token set without [tok]; an
    element without class attribute is left without. *)
Definition without_class (tok : string) (n : node) : node :=
  match n with
  | Elem t a k =>
      match getAttribute "class" a with
      | Some v =>
          Elem t (setAttribute "class" (join (remove_token tok (dedupe (tokens v)))) a) k
      | None => n
      end
  | _ => n
  end.

Fixpoint remove_nth (i : nat) (l : list node) {struct l} : list node :=
  match l, i with
  | [], _ => []
  | _ :: xs, O => xs
  | x :: xs, S j => x :: remove_nth j xs
  end.

(** The document without the node at [p] ([e.remove()]). *)
Fixpoint detach (p : path) (n : node) : node :=
  match p with
  | [] => n
  | [i] => on_kids (remove_nth i) n
  | i :: q => on_kids (modify_nth i (detach q)) n
  end.

(** A token: not empty, no whitespace in it. *)
Fixpoint no_space (s : string) : bool :=
  match s with
  | EmptyString => true
  | String c rest => negb (is_space c) && no_space rest
  end.

Definition is_token (s : string) : bool :=
  negb (String.eqb s "") && no_space s.

End ClassList.

Module Timers.
Import Dom Js Dashboard ClassList.
Local Open Scope js_scope.

(** The callbacks hold [alertDiv] by reference: [Some a] when the element is
    in the document, at [a], at the time the callback runs; [None] when it
    has been removed meanwhile, and then nothing they do shows in the
    document. *)
Definition classList_remove (ref : option path) (tok : string) : js unit :=
  match ref with
  | Some a => modify_doc (update a (without_class tok))
  | None => ret tt
  end.


(** The callback of the first timer (lines 70-73). *)
Definition on_timeout (alert : option path) : js unit :=
  classList_remove alert "show" ;;
  setTimeout 150.


(** Where [showAlert] puts the element it builds in the document [d]: before
    the anchor when the anchor is a child of the container, after the last
    child of the container when there is no anchor; [None] when the call
    throws. *)
Definition alert_place (d : node) : option path :=
  let d1 := prune marker d in
  match Dom.querySelector [] container_sel d1 with
  | None => None
  | Some c =>
      match Dom.querySelector c anchor_sel d1 with
      | None =>
          match get c d1 with
          | Some n => Some (c ++ [List.length (kids_of n)])%list
          | None => None
          end
      | Some a =>
          match child_index c a with
          | Some _ => Some a
          | None => None
          end
      end
  end.

(** A computation that leaves a component of the page as it was, whether
    it returns or throws. *)
Definition unchanged {X A : Type} (f : page -> X) (m : js A) : Prop :=
  forall st r st', m st = (r, st') -> f st' = f st.

(** A computation after which no more elements match than before. *)
Definition adds_none (sel : selector) {A : Type} (m : js A) : Prop :=
  forall st r st', m st = (r, st') -> count sel (doc st') <= count sel (doc st).

(** A computation that changes nothing at or below the paths apart from
    [r]. *)
Definition writes_under (r : path) {A : Type} (m : js A) : Prop :=
  forall st res st' q,
    m st = (res, st') -> apart r q = true -> get q (doc st') = get q (doc st).

End Timers.

Module Legend.
Import Js.

(** The palette (lines 2-5). *)
Definition colors : list string :=
  ["#F7931A"; "#627EEA"; "#26A17B"; "#E84142"; "#2775CA";
   "#8247E5"; "#00D395"; "#F0B90B"; "#E6007A"; "#3C3C3D"].

(** A legend entry; [None] is undefined. *)
Record legend_item : Type := {
  text : string;
  fillStyle : option string;
  strokeStyle : option string;
  lineWidth : Z;
  hidden : bool;
  index : nat
}.

(** What the callback reads of the chart: the labels, the number of
    datasets, and the [hidden] flag of each element of
    [chart.getDatasetMeta(0).data].  The two library calls
    ([getDatasetMeta], [getStyle], whose result is not used) are taken to
    return. *)
Record chart : Type := {
  data_labels : list string;
  data_datasets : nat;
  meta_data : list bool
}.

(** [labels.map((label, i) => ...)] from index [i] on: reading [hidden] of
    an element that is not there throws. *)
Fixpoint map_labels (meta : list bool) (i : nat) (labels : list string)
  : result (list legend_item) :=
  match labels with
  | [] => Ok []
  | label :: rest =>
      match nth_error meta i with
      | None => Throw TypeError
      | Some h =>
          match map_labels meta (S i) rest with
          | Ok items =>
              Ok ({| text := label;
                     fillStyle := nth_error colors i;
                     strokeStyle := nth_error colors i;
                     lineWidth := 0;
                     hidden := h;
                     index := i |} :: items)
          | Throw e => Throw e
          end
      end
  end.

(** The [generateLabels] callback (lines 31-48). *)
Definition generateLabels (c : chart) : result (list legend_item) :=
  if negb (Nat.eqb (List.length (data_labels c)) 0)
     && negb (Nat.eqb (data_datasets c) 0)
  then map_labels (meta_data c) 0 (data_labels c)
  else Ok [].

End Legend.

Module MoreSamples.
Import Dom Js Dashboard Sample.

(** A page whose first [.d-flex] element lies inside a child of the
    container. *)
Definition deep_anchor_doc : node :=
  document_of
    [Elem "main" [("class", "container")]
       (Elem "section" [] [header] :: regions)].

(** A page without the region [#totalInvested]. *)
Definition no_invested_doc : node :=
  document_of
    [Elem "main" [("class", "container")] (header :: tl regions)].

(** A page on which an alert is displayed. *)
Definition alerted_doc : node :=
  doc (snd (showAlert "warning" "old" (page_of page_doc))).

(** A page with two rows in its table. *)
Definition row9 : node :=
  Elem "tr" [("data-portfolio-id", "9")]
    [Elem "td" [] [Text "ETH"];
     cell "current-price"; cell "current-value";
     cell "loss profit-loss"; cell "loss profit-loss-percent"].

Definition two_rows_doc : node :=
  document_of
    [Elem "main" [("class", "container")]
       [header;
        Elem "h5" [("id", "totalInvested")] [Text "-"];
        Elem "h5" [("id", "totalValue")] [Text "-"];
        Elem "h5" [("id", "totalPL"); ("class", "card-title profit")] [Text "-"];
        Elem "table" [] [Elem "tbody" [] [row7; row9]]]].

(** An entry for portfolio 9, with a gain. *)
Definition gain_entry : Portfolio := entry 9 (Number.of_Z 4).

(** A response with an error message and three entries, the second for
    a portfolio that has no row; and the page once its alert is displayed. *)
Definition error_payload : Response :=
  payload (Some "boom") [loss_entry; stray_entry; gain_entry].

Definition boom_page : page :=
  snd (showAlert "warning" "boom" (page_of two_rows_doc)).

End MoreSamples.

(** ** The layout the updates rely on

    The conditions under which every assignment of the [then] callback
    finds its element, as decidable checks on a document. *)

Module Layout.
Import Dom Js Dashboard.

(** An entry is ready for display: it has no row on the page, or its row
    is apart from the [regions] and its four cells are found at places
    apart from one another. *)
Definition row_ready (regions : list path) (root : node) (p : Portfolio) : bool :=
  match Dom.querySelector [] (row_sel p) root with
  | None => true
  | Some row =>
      forallb (apart row) regions &&
      match cells p root with
      | Some (_, c1, c2, c3, c4) => separate [c1; c2; c3; c4]
      | None => false
      end
  end.

(** The rows of two entries, when both are on the page, are apart (so they
    are two rows, neither inside the other). *)
Definition rows_apart (root : node) (p p' : Portfolio) : bool :=
  match Dom.querySelector [] (row_sel p) root,
        Dom.querySelector [] (row_sel p') root with
  | Some r, Some r' => apart r r'
  | _, _ => true
  end.

(** Every entry of the list is ready and the rows are pairwise apart. *)
Fixpoint table_ready (regions : list path) (root : node) (l : list Portfolio) : bool :=
  match l with
  | [] => true
  | p :: rest =>
      row_ready regions root p && forallb (rows_apart root p) rest
      && table_ready regions root rest
  end.

(** The row of [p] is found at the same place in [d'] as in [d], and is
    the same node. *)
Definition row_kept (d d' : node) (p : Portfolio) : Prop :=
  Dom.querySelector [] (row_sel p) d' = Dom.querySelector [] (row_sel p) d /\
  forall row, Dom.querySelector [] (row_sel p) d = Some row -> get row d' = get row d.

(** The cells [c1 .. c4] display the entry [p]. *)
Definition row_shows (p : Portfolio) (c1 c2 c3 c4 : path) (root : node) : Prop :=
  let plSign := if Number.ge (profit_loss p) Number.zero then "+" else "" in
  let plClass := if Number.ge (profit_loss p) Number.zero then "profit" else "loss" in
  text_at c1 root = Some ("$" ++ Number.toFixed (current_price p) 2) /\
  text_at c2 root = Some ("$" ++ Number.toFixed (current_value p) 2) /\
  text_at c3 root = Some (plSign ++ "$" ++ Number.toFixed (profit_loss p) 2) /\
  text_at c4 root
  = Some ("(" ++ plSign ++ Number.toFixed (profit_loss_percent p) 2 ++ "%)") /\
  class_at c3 root = Some (plClass ++ " profit-loss") /\
  class_at c4 root = Some (plClass ++ " profit-loss-percent").

(** The document after the four assignments of the totals (lines 15-23). *)
Definition totals_writes (t : Totals) (e1 e2 e3 : path) (root : node) : node :=
  let plSign := if Number.ge (total_profit_loss t) Number.zero then "+" else "" in
  update e3
    (with_class ("card-title " ++ (if Number.ge (total_profit_loss t) Number.zero
                                   then "profit" else "loss")))
    (update e3
       (with_text (plSign ++ "$" ++ Number.toFixed (total_profit_loss t) 2 ++ " ("
                   ++ plSign ++ Number.toFixed (total_profit_loss_percent t) 2 ++ "%)"))
       (update e2 (with_text ("$" ++ Number.toFixed (total_current_value t) 2))
          (update e1 (with_text ("$" ++ Number.toFixed (total_invested t) 2)) root))).

End Layout.

(** * Properties *)

(** ** Facts about the document operations *)

Module DomFacts.
Import Dom.
Local Open Scope list_scope.

Lemma node_ind (P : node -> Prop) :
  (forall s, P (Text s)) ->
  (forall h, P (Markup h)) ->
  (forall t a k, Forall P k -> P (Elem t a k)) ->
  forall n, P n.
Proof.
  intros HT HM HE. fix IH 1. intros [s|h|t a k].
  - apply HT.
  - apply HM.
  - apply HE. induction k as [|c k IHk]; constructor; [apply IH | exact IHk].
Qed.

(** *** Attributes and class tokens *)

Lemma getAttribute_setAttribute_same name v a :
  getAttribute name (setAttribute name v a) = Some v.
Proof.
  induction a as [|[n w] a IH]; simpl.
  - now rewrite String.eqb_refl.
  - destruct (String.eqb n name) eqn:E; simpl; rewrite E; auto.
Qed.

Lemma getAttribute_setAttribute_other name name' v a :
  name <> name' ->
  getAttribute name' (setAttribute name v a) = getAttribute name' a.
Proof.
  intros Hne. induction a as [|[n w] a IH]; simpl.
  - destruct (String.eqb name name') eqn:E; auto.
    apply String.eqb_eq in E. contradiction.
  - destruct (String.eqb n name) eqn:E; simpl.
    + apply String.eqb_eq in E. subst n.
      destruct (String.eqb name name') eqn:E'; auto.
      apply String.eqb_eq in E'. contradiction.
    + now rewrite IH.
Qed.

Lemma has_class_setAttribute c v a :
  has_class c (setAttribute "class" v a) = mem c (tokens v).
Proof.
  unfold has_class. now rewrite getAttribute_setAttribute_same.
Qed.

(** A class attribute that ends in [" ajax-alert"] has the token, whatever
    stands before. *)
Lemma tokens_from_marker s : forall cur,
  mem "ajax-alert" (tokens_from cur (s ++ " ajax-alert")%string) = true.
Proof.
  induction s as [|c s IH]; intros cur.
  - simpl. destruct (String.eqb cur ""); simpl; auto using orb_true_r.
  - simpl. destruct (is_space c).
    + destruct (String.eqb cur ""); simpl; rewrite IH; auto using orb_true_r.
    + apply IH.
Qed.

(** *** Lists of children *)

Lemma nth_error_modify_nth g : forall l i j,
  nth_error (modify_nth i g l) j =
  if Nat.eqb i j then option_map g (nth_error l j) else nth_error l j.
Proof.
  induction l as [|x l IH]; intros i j.
  - simpl. destruct j; destruct (Nat.eqb i _); reflexivity.
  - destruct i, j; simpl; auto.
Qed.

Lemma modify_nth_ext g g' : (forall x, g x = g' x) ->
  forall l i, modify_nth i g l = modify_nth i g' l.
Proof.
  intros E. induction l as [|x l IH]; intros [|i]; simpl; auto.
  - now rewrite E.
  - now rewrite IH.
Qed.

Lemma modify_nth_compose g g' : forall l i,
  modify_nth i g (modify_nth i g' l) = modify_nth i (fun x => g (g' x)) l.
Proof.
  induction l as [|x l IH]; intros [|i]; simpl; auto. now rewrite IH.
Qed.

Lemma Forall_modify_nth (P : node -> Prop) g :
  (forall x, P x -> P (g x)) ->
  forall l i, Forall P l -> Forall P (modify_nth i g l).
Proof.
  intros Hg. induction l as [|x l IH]; intros i H; simpl; auto.
  inversion H; subst. destruct i; constructor; auto.
Qed.

Lemma list_sum_modify_nth (h : node -> nat) g : forall l i c,
  nth_error l i = Some c ->
  list_sum (map h (modify_nth i g l)) + h c = list_sum (map h l) + h (g c).
Proof.
  induction l as [|x l IH]; intros [|i] c H; simpl in *; try discriminate.
  - inversion H; subst. lia.
  - specialize (IH i c H). lia.
Qed.

Lemma Forall_filter_map (P : node -> Prop) (F : node -> option node) :
  forall l,
  Forall (fun x => match F x with Some y => P y | None => True end) l ->
  Forall P (filter_map F l).
Proof.
  induction l as [|x l IH]; intros H; simpl; auto.
  inversion H; subst. destruct (F x); auto.
Qed.

Lemma kids_of_on_kids_modify i g n :
  kids_of (on_kids (modify_nth i g) n) = modify_nth i g (kids_of n).
Proof. destruct n; simpl; auto. Qed.

(** *** The first match *)

Lemma find_list_none F l :
  find_list F l = None <-> Forall (fun c => F c = None) l.
Proof.
  induction l as [|x l IH]; simpl.
  - split; auto.
  - destruct (F x) eqn:E.
    + split; [discriminate|]. intros H. inversion H; subst. congruence.
    + destruct (find_list F l); simpl.
      * split; [discriminate|]. intros H. inversion H; subst.
        apply IH in H3. discriminate.
      * split; auto. intros _. constructor; auto. now apply IH.
Qed.

(** [find_list] returns the first child in whose subtree there is a match,
    and the match in it. *)
Lemma find_list_some F l p :
  find_list F l = Some p <->
  exists i q c, p = i :: q /\ nth_error l i = Some c /\ F c = Some q /\
                forall j c', j < i -> nth_error l j = Some c' -> F c' = None.
Proof.
  revert p. induction l as [|x l IH]; intros p; simpl.
  - split; [discriminate|]. intros (i & q & c & _ & H & _).
    destruct i; discriminate.
  - destruct (F x) eqn:E.
    + split.
      * intros H. inversion H; subst. exists 0, p0, x. repeat split; auto.
        intros j c' Hj. lia.
      * intros (i & q & c & -> & Hn & Hc & Hb). destruct i as [|i].
        -- simpl in Hn. inversion Hn; subst. rewrite E in Hc.
           injection Hc as <-. reflexivity.
        -- specialize (Hb 0 x (Nat.lt_0_succ i) eq_refl). congruence.
    + split.
      * destruct (find_list F l) as [p'|] eqn:E'; simpl; [|discriminate].
        intros H. inversion H; subst.
        destruct (proj1 (IH p') eq_refl) as (i & q & c & -> & Hn & Hc & Hb).
        exists (S i), q, c. repeat split; auto.
        intros [|j] c' Hj Hj'; simpl in Hj'.
        -- inversion Hj'; subst. exact E.
        -- apply (Hb j); auto. lia.
      * intros (i & q & c & -> & Hn & Hc & Hb). destruct i as [|i].
        -- simpl in Hn. inversion Hn; subst. congruence.
        -- assert (H : find_list F l = Some (i :: q)).
           { apply IH. exists i, q, c. repeat split; auto.
             intros j c' Hj Hj'. apply (Hb (S j)); auto. lia. }
           now rewrite H.
Qed.

Lemma find_list_nonempty F l : find_list F l <> Some [].
Proof.
  intros H. apply find_list_some in H.
  destruct H as (i & q & c & H & _). discriminate.
Qed.

Lemma find_node_unfold sel n :
  find_node sel n = if node_matches sel n then Some [] else query sel n.
Proof. destruct n; reflexivity. Qed.

Lemma find_node_root sel n : find_node sel n = Some [] -> node_matches sel n = true.
Proof.
  rewrite find_node_unfold. destruct (node_matches sel n); auto.
  intros H. now apply find_list_nonempty in H.
Qed.

Lemma find_node_inside sel n i q :
  find_node sel n = Some (i :: q) ->
  node_matches sel n = false /\ query sel n = Some (i :: q).
Proof.
  rewrite find_node_unfold. destruct (node_matches sel n); [discriminate|auto].
Qed.

Lemma node_matches_update_inside sel i p g n :
  node_matches sel (update (i :: p) g n) = node_matches sel n.
Proof. destruct n; reflexivity. Qed.

(** What the first match leads to is an element that matches. *)
Lemma find_node_get sel : forall q n,
  find_node sel n = Some q ->
  exists t a k, get q n = Some (Elem t a k) /\ matches sel t a = true.
Proof.
  induction q as [|i q IH]; intros n H.
  - apply find_node_root in H. destruct n as [| |t a k]; try discriminate.
    exists t, a, k. auto.
  - apply find_node_inside in H. destruct H as [_ H]. unfold query in H.
    apply find_list_some in H.
    destruct H as (i' & q' & c & E & Hn & Hc & _). inversion E; subst.
    simpl. rewrite Hn. now apply IH.
Qed.

Lemma query_get sel n q :
  query sel n = Some q ->
  exists t a k, get q n = Some (Elem t a k) /\ matches sel t a = true.
Proof.
  unfold query. intros H. apply find_list_some in H.
  destruct H as (i & q' & c & -> & Hn & Hc & _).
  simpl. rewrite Hn. now apply find_node_get.
Qed.

(** *** Updates and the first match *)

Lemma find_list_modify F g i l j q :
  find_list F l = Some (j :: q) ->
  (forall c, F c = None -> F (g c) = None) ->
  (i = j -> forall c, F c = Some q -> F (g c) = Some q) ->
  find_list F (modify_nth i g l) = Some (j :: q).
Proof.
  intros H Hnone Hsame. apply find_list_some in H.
  destruct H as (j' & q' & c & E & Hn & Hc & Hb). inversion E; subst j' q'.
  apply find_list_some.
  destruct (Nat.eqb i j) eqn:Eij.
  - apply Nat.eqb_eq in Eij. exists j, q, (g c). repeat split.
    + rewrite nth_error_modify_nth. subst i. rewrite Nat.eqb_refl, Hn. reflexivity.
    + auto.
    + intros j' c' Hlt Hj'. rewrite nth_error_modify_nth in Hj'.
      destruct (Nat.eqb i j') eqn:E'; [apply Nat.eqb_eq in E'; lia|].
      eapply Hb; eauto.
  - exists j, q, c. repeat split; auto.
    + rewrite nth_error_modify_nth, Eij. exact Hn.
    + intros j' c' Hlt Hj'. rewrite nth_error_modify_nth in Hj'.
      destruct (Nat.eqb i j') eqn:E'.
      * destruct (nth_error l j') as [c0|] eqn:E0; simpl in Hj'; [|discriminate].
        inversion Hj'; subst c'. apply Hnone. eapply Hb; eauto.
      * eapply Hb; eauto.
Qed.

Lemma find_list_modify_none F g i l :
  find_list F l = None ->
  (forall c, F c = None -> F (g c) = None) ->
  find_list F (modify_nth i g l) = None.
Proof.
  intros H Hnone. apply find_list_none. apply find_list_none in H.
  now apply Forall_modify_nth.
Qed.

(** An update leaves a subtree without match without match. *)
Lemma find_node_update_none sel g : preserves_none sel g ->
  forall p n, find_node sel n = None -> find_node sel (update p g n) = None.
Proof.
  intros Hg. induction p as [|i p IH]; intros n H; simpl; auto.
  destruct n as [| |t a k]; simpl in *; auto.
  destruct (matches sel t a); [discriminate|].
  apply find_list_modify_none; auto.
Qed.

Lemma query_update_none sel g : preserves_none sel g ->
  forall p n, p <> [] -> query sel n = None -> query sel (update p g n) = None.
Proof.
  intros Hg [|i p] n Hp H; [contradiction|].
  unfold query in *. simpl. rewrite kids_of_on_kids_modify.
  apply find_list_modify_none; auto.
  intros c Hc. now apply find_node_update_none.
Qed.

(** Frame: an update at [p] does not move the first match [q] when [q] is
    neither [p] nor inside [p] and the update creates no match. *)
Lemma find_node_update_frame sel g : preserves_none sel g ->
  forall p n q,
  find_node sel n = Some q -> prefixb p q = false ->
  find_node sel (update p g n) = Some q.
Proof.
  intros Hg. induction p as [|i p IH]; intros n q H Hpq; [discriminate|].
  destruct q as [|j q].
  - apply find_node_root in H. rewrite find_node_unfold.
    now rewrite node_matches_update_inside, H.
  - apply find_node_inside in H. destruct H as [Hm H].
    rewrite find_node_unfold, node_matches_update_inside, Hm.
    unfold query in *. simpl. rewrite kids_of_on_kids_modify.
    apply find_list_modify; auto.
    + intros c Hc. now apply find_node_update_none.
    + intros -> c Hc. simpl in Hpq. rewrite Nat.eqb_refl in Hpq. simpl in Hpq.
      now apply IH.
Qed.

Lemma query_update_frame sel g : preserves_none sel g ->
  forall p n q,
  query sel n = Some q -> prefixb p q = false ->
  query sel (update p g n) = Some q.
Proof.
  intros Hg [|i p] n q H Hpq; [discriminate|].
  destruct q as [|j q]; [now apply find_list_nonempty in H|].
  unfold query in *. simpl. rewrite kids_of_on_kids_modify.
  apply find_list_modify; auto.
  - intros c Hc. now apply find_node_update_none.
  - intros -> c Hc. simpl in Hpq. rewrite Nat.eqb_refl in Hpq. simpl in Hpq.
    now apply find_node_update_frame.
Qed.

(** An update of the first match itself that keeps it a match, and creates
    none before it, leaves it the first match. *)
Lemma find_node_update_same sel g : preserves_match sel g ->
  forall q n, find_node sel n = Some q -> find_node sel (update q g n) = Some q.
Proof.
  intros Hg. induction q as [|j q IH]; intros n H.
  - apply find_node_root in H. simpl. rewrite find_node_unfold.
    now rewrite (Hg n H).
  - apply find_node_inside in H. destruct H as [Hm H].
    rewrite find_node_unfold, node_matches_update_inside, Hm.
    unfold query in *. simpl. rewrite kids_of_on_kids_modify.
    apply find_list_some in H.
    destruct H as (j' & q' & c & E & Hn & Hc & Hb). inversion E; subst j' q'.
    apply find_list_some. exists j, q, (update q g c). repeat split.
    + now rewrite nth_error_modify_nth, Nat.eqb_refl, Hn.
    + now apply IH.
    + intros j' c' Hlt Hj'. rewrite nth_error_modify_nth in Hj'.
      destruct (Nat.eqb j j') eqn:E'; [apply Nat.eqb_eq in E'; lia|].
      eapply Hb; eauto.
Qed.

Lemma query_update_same sel g : preserves_match sel g ->
  forall q n, query sel n = Some q -> query sel (update q g n) = Some q.
Proof.
  intros Hg [|j q] n H; [now apply find_list_nonempty in H|].
  unfold query in *. simpl. rewrite kids_of_on_kids_modify.
  apply find_list_some in H.
  destruct H as (j' & q' & c & E & Hn & Hc & Hb). inversion E; subst j' q'.
  apply find_list_some. exists j, q, (update q g c). repeat split.
  - now rewrite nth_error_modify_nth, Nat.eqb_refl, Hn.
  - now apply find_node_update_same.
  - intros j' c' Hlt Hj'. rewrite nth_error_modify_nth in Hj'.
    destruct (Nat.eqb j j') eqn:E'; [apply Nat.eqb_eq in E'; lia|].
    eapply Hb; eauto.
Qed.

(** *** Updates and reads *)

Lemma get_app : forall p q n,
  get (p ++ q) n = match get p n with Some m => get q m | None => None end.
Proof.
  induction p as [|i p IH]; intros q n; simpl; auto.
  destruct (nth_error (kids_of n) i); auto.
Qed.

Lemma get_update_same g : forall p n,
  get p (update p g n) = option_map g (get p n).
Proof.
  induction p as [|i p IH]; intros n; simpl; auto.
  rewrite kids_of_on_kids_modify, nth_error_modify_nth, Nat.eqb_refl.
  destruct (nth_error (kids_of n) i); simpl; auto.
Qed.

Lemma get_update_apart g : forall p q n,
  apart p q = true -> get q (update p g n) = get q n.
Proof.
  unfold apart. induction p as [|i p IH]; intros q n H; [discriminate|].
  destruct q as [|j q]; [simpl in H; discriminate|].
  simpl. rewrite kids_of_on_kids_modify, nth_error_modify_nth.
  destruct (Nat.eqb i j) eqn:E; auto.
  apply Nat.eqb_eq in E. subst j. simpl in H. rewrite Nat.eqb_refl in H.
  simpl in H. destruct (nth_error (kids_of n) i); simpl; auto.
Qed.

Lemma update_app g : forall p q n,
  update (p ++ q) g n = update p (update q g) n.
Proof.
  induction p as [|i p IH]; intros q n; simpl; auto.
  destruct n; simpl; auto. f_equal. apply modify_nth_ext. intros x. apply IH.
Qed.

Lemma update_compose g g' : forall p n,
  update p g (update p g' n) = update p (fun x => g (g' x)) n.
Proof.
  induction p as [|i p IH]; intros n; simpl; auto.
  destruct n; simpl; auto. f_equal. rewrite modify_nth_compose.
  apply modify_nth_ext. intros x. apply IH.
Qed.

Lemma apart_sym p q : apart p q = apart q p.
Proof. unfold apart. apply andb_comm. Qed.

Lemma apart_prefixb p q : apart p q = true -> prefixb p q = false.
Proof.
  unfold apart. intros H. apply andb_true_iff in H. destruct H as [H _].
  now apply negb_true_iff in H.
Qed.

(** *** Counting *)

Lemma count_node_unfold sel n :
  count_node sel n = (if node_matches sel n then 1 else 0) + count sel n.
Proof. destruct n; reflexivity. Qed.

Lemma count_node_update sel g : forall p n m,
  get p n = Some m ->
  count_node sel (update p g n) + count_node sel m
  = count_node sel n + count_node sel (g m).
Proof.
  induction p as [|i p IH]; intros n m H; simpl in *.
  - inversion H; subst. lia.
  - destruct (nth_error (kids_of n) i) as [c|] eqn:E; [|discriminate].
    destruct n as [| |t a k]; simpl in E; try (destruct i; discriminate).
    simpl. specialize (IH c m H).
    pose proof (list_sum_modify_nth (count_node sel) (update p g) k i c E). lia.
Qed.

Lemma count_update sel g i p n m :
  get (i :: p) n = Some m ->
  count sel (update (i :: p) g n) + count_node sel m
  = count sel n + count_node sel (g m).
Proof.
  intros H. pose proof (count_node_update sel g (i :: p) n m H) as E.
  rewrite (count_node_unfold sel (update _ _ _)) in E.
  rewrite (count_node_unfold sel n) in E.
  rewrite node_matches_update_inside in E. lia.
Qed.

Lemma list_sum_insert_at (h : node -> nat) i x l :
  list_sum (map h (insert_at i x l)) = list_sum (map h l) + h x.
Proof.
  unfold insert_at. rewrite <- (firstn_skipn i l) at 3.
  rewrite !map_app, !list_sum_app. simpl. lia.
Qed.

Lemma list_sum_append (h : node -> nat) x l :
  list_sum (map h (append x l)) = list_sum (map h l) + h x.
Proof. unfold append. rewrite map_app, list_sum_app. simpl. lia. Qed.

(** *** Removal *)

Lemma count_prune_node sel : forall n,
  match prune_node sel n with
  | Some n' => count_node sel n' = 0
  | None => True
  end.
Proof.
  induction n as [s|h|t a k IH] using node_ind; simpl; auto.
  destruct (matches sel t a) eqn:E; auto. simpl. rewrite E. simpl.
  induction IH as [|c k Hc Hk IHk]; simpl; auto.
  destruct (prune_node sel c); simpl; auto. lia.
Qed.

(** No element that matched is left. *)
Lemma count_prune sel root : count sel (prune sel root) = 0.
Proof.
  unfold count, prune. destruct root as [| |t a k]; simpl; auto.
  induction k as [|c k IH]; simpl; auto.
  pose proof (count_prune_node sel c) as Hc.
  destruct (prune_node sel c); simpl; auto. lia.
Qed.

(** Removal creates no match, for any selector. *)
Lemma find_prune_node sel sel' : forall n,
  find_node sel' n = None ->
  match prune_node sel n with
  | Some n' => find_node sel' n' = None
  | None => True
  end.
Proof.
  induction n as [s|h|t a k IH] using node_ind; simpl; auto.
  intros H. destruct (matches sel t a); auto. simpl.
  destruct (matches sel' t a); [discriminate|].
  apply find_list_none. apply find_list_none in H.
  apply Forall_filter_map. rewrite Forall_forall in *.
  intros c Hin. apply IH; auto.
Qed.

Lemma query_prune_none sel sel' root :
  query sel' root = None -> query sel' (prune sel root) = None.
Proof.
  unfold query, prune. destruct root as [| |t a k]; simpl; auto.
  intros H. apply find_list_none. apply find_list_none in H.
  apply Forall_filter_map. rewrite Forall_forall in *.
  intros c Hin. apply find_prune_node; auto.
Qed.

End DomFacts.

(** ** Facts about numbers *)

Module NumberFacts.
Import Number.

Lemma lt_zero_not_ge x : lt x zero = true -> ge x zero = false.
Proof.
  unfold lt, ge, SFltb. destruct (SFcompare x zero) as [[ | | ]|]; auto; discriminate.
Qed.

(** A number below zero is printed with a minus sign in front, whatever its
    size. *)
Lemma toFixed_negative x f :
  lt x zero = true -> exists r, toFixed x f = "-" ++ r.
Proof.
  unfold lt, SFltb. destruct x as [s|s| |s m e]; simpl; try discriminate.
  - destruct s; [|discriminate]. intros _. now exists "Infinity".
  - destruct s; [|discriminate]. intros _. eexists. reflexivity.
Qed.

(** Both zeros count as non-negative and are printed without a sign. *)
Lemma zero_ge_zero s : ge (S754_zero s) zero = true.
Proof. reflexivity. Qed.

(** [scaled_nearest] is the nearest integer to [m * 2^e * 10^f], the larger
    one when two are as near: with [d = 2^(-e)] for a negative [e],
    [-d < 2 * (n * d - m * 10^f) <= d]. *)
Lemma scaled_nearest_spec m e f :
  (e < 0)%Z ->
  let d := (2 ^ (- e))%Z in
  let n := scaled_nearest m e f in
  (- d < 2 * (n * d - Z.pos m * 10 ^ Z.of_nat f) <= d)%Z.
Proof.
  intros He d n. unfold n, scaled_nearest.
  destruct (Z.leb_spec 0 e) as [H|_]; [lia|]. fold d.
  assert (Hd : (0 < d)%Z) by (apply Z.pow_pos_nonneg; lia).
  set (num := (Z.pos m * 10 ^ Z.of_nat f)%Z).
  pose proof (Z.div_mod (2 * num + d) (2 * d) ltac:(lia)) as E.
  pose proof (Z.mod_pos_bound (2 * num + d) (2 * d) ltac:(lia)) as B.
  lia.
Qed.

Lemma scaled_nearest_exact m e f :
  (0 <= e)%Z ->
  scaled_nearest m e f = (Z.pos m * 10 ^ Z.of_nat f * 2 ^ e)%Z.
Proof.
  intros He. unfold scaled_nearest.
  destruct (Z.leb_spec 0 e) as [_|H]; [reflexivity|lia].
Qed.

(** *** What toFixed prints below 10^21

    The digits of [toFixed x f], read without the point, are the integer
    nearest to [|x| * 10^f], and [f] of them stand after the point. *)

Lemma string_length_app (a b : string) :
  String.length (a ++ b) = (String.length a + String.length b)%nat.
Proof. induction a as [|c a IH]; simpl; auto. Qed.

Lemma zeros_length z : String.length (zeros z) = z.
Proof. induction z; simpl; auto. Qed.

Lemma substring_all s : substring 0 (String.length s) s = s.
Proof. induction s as [|c s IH]; simpl; [reflexivity | now rewrite IH]. Qed.

Lemma substring_split : forall s a,
  (a <= String.length s)%nat ->
  (substring 0 a s ++ substring a (String.length s - a) s)%string = s.
Proof.
  induction s as [|c s IH]; intros [|a] H; simpl in H |- *.
  - reflexivity.
  - lia.
  - now rewrite substring_all.
  - f_equal. apply IH. lia.
Qed.

Lemma substring_split_at s a b :
  (a + b = String.length s)%nat ->
  (substring 0 a s ++ substring a b s)%string = s.
Proof.
  intros H. replace b with (String.length s - a)%nat by lia.
  apply substring_split. lia.
Qed.

Lemma substring_length : forall s a b,
  (a + b <= String.length s)%nat -> String.length (substring a b s) = b.
Proof.
  induction s as [|c s IH]; intros [|a] [|b] H; simpl in *; auto; try lia.
  - f_equal. apply (IH 0%nat). lia.
  - apply IH. lia.
  - apply IH. lia.
Qed.

Lemma read_zeros z s : read (zeros z ++ s) = read s.
Proof.
  induction z as [|z IH]; simpl; auto.
  unfold read in *. simpl.
  destruct (NilEmpty.uint_of_string (zeros z ++ s)) as [d|];
    destruct (NilEmpty.uint_of_string s) as [d'|]; simpl in *; congruence.
Qed.

Lemma read_decimal n : (0 <= n)%Z -> read (decimal n) = Some n.
Proof.
  intros Hn. unfold read, decimal.
  pose proof (DecimalN.Unsigned.of_to (Z.to_N n)) as E.
  destruct (N.to_uint (Z.to_N n)) as [|d|d|d|d|d|d|d|d|d|d] eqn:Ed;
    [ simpl in *; f_equal; lia
    | unfold NilZero.string_of_uint; cbv iota; rewrite NilEmpty.usu;
      cbn [option_map]; rewrite E, Z2N.id by lia; reflexivity .. ].
Qed.

Lemma scaled_nearest_nonneg m e f : (0 <= scaled_nearest m e f)%Z.
Proof.
  unfold scaled_nearest. destruct (Z.leb_spec 0 e).
  - apply Z.mul_nonneg_nonneg; [|apply Z.pow_nonneg; lia].
    apply Z.mul_nonneg_nonneg; [lia|apply Z.pow_nonneg; lia].
  - apply Z.div_pos.
    + assert (0 <= 10 ^ Z.of_nat f)%Z by (apply Z.pow_nonneg; lia).
      assert (0 <= 2 ^ (- e))%Z by (apply Z.pow_nonneg; lia). nia.
    + assert (0 < 2 ^ (- e))%Z by (apply Z.pow_pos_nonneg; lia). lia.
Qed.

Lemma fixed_digits_spec n f :
  (0 <= n)%Z ->
  exists a b,
    fixed_digits n (S f) = (a ++ "." ++ b)%string /\
    String.length b = S f /\
    (1 <= String.length a)%nat /\
    read (a ++ b) = Some n.
Proof.
  intros Hn. unfold fixed_digits.
  set (m := if Nat.leb (String.length (decimal n)) (S f)
            then (zeros (S f + 1 - String.length (decimal n)) ++ decimal n)%string
            else decimal n).
  assert (Hlen : (S f + 1 <= String.length m)%nat).
  { unfold m. destruct (Nat.leb_spec (String.length (decimal n)) (S f)).
    - rewrite string_length_app, zeros_length. lia.
    - lia. }
  assert (Hread : read m = Some n).
  { unfold m. destruct (Nat.leb (String.length (decimal n)) (S f)).
    - rewrite read_zeros. now apply read_decimal.
    - now apply read_decimal. }
  exists (substring 0 (String.length m - S f) m),
         (substring (String.length m - S f) (S f) m).
  split; [reflexivity|]. split; [|split].
  - apply substring_length. lia.
  - rewrite substring_length; lia.
  - rewrite substring_split_at by lia. exact Hread.
Qed.

(** toFixed of a finite number below 10^21 in magnitude. *)
Lemma toFixed_spec s m e f :
  at_least_1e21 m e = false ->
  exists a b,
    toFixed (S754_finite s m e) (S f)
    = ((if s then "-" else "") ++ a ++ "." ++ b)%string /\
    String.length b = S f /\
    (1 <= String.length a)%nat /\
    read (a ++ b) = Some (scaled_nearest m e (S f)).
Proof.
  intros H. unfold toFixed. rewrite H.
  destruct (fixed_digits_spec (scaled_nearest m e (S f)) f
              (scaled_nearest_nonneg m e (S f))) as (a & b & E & Hb & Ha & Hr).
  exists a, b. rewrite E. auto.
Qed.

End NumberFacts.

(** ** Facts about the page computations *)

Module JsFacts.
Import Dom Js DomFacts.
Local Open Scope js_scope.

Lemma bind_ok_inv {A B : Type} (m : js A) (k : A -> js B) st b st' :
  bind m k st = (Ok b, st') ->
  exists a st1, m st = (Ok a, st1) /\ k a st1 = (Ok b, st').
Proof.
  unfold bind. destruct (m st) as [[a|e] st1]; [eauto|discriminate].
Qed.

Lemma bind_ok {A B : Type} (m : js A) (k : A -> js B) st a st1 :
  m st = (Ok a, st1) -> bind m k st = k a st1.
Proof. unfold bind. now intros ->. Qed.

Lemma bind_throw {A B : Type} (m : js A) (k : A -> js B) st e st1 :
  m st = (Throw e, st1) -> bind m k st = (Throw e, st1).
Proof. unfold bind. now intros ->. Qed.

Lemma bind_ext_after {A B : Type} (m : js A) (k1 k2 : A -> js B) st :
  (forall a st1, m st = (Ok a, st1) -> k1 a st1 = k2 a st1) ->
  bind m k1 st = bind m k2 st.
Proof.
  intros H. unfold bind. destruct (m st) as [[a|e] st1]; auto.
Qed.

Lemma querySelector_document sel root :
  Dom.querySelector [] sel root = query sel root.
Proof.
  unfold Dom.querySelector. simpl. destruct (query sel root); reflexivity.
Qed.

(** A reference a query returns leads to an element that matches, inside
    the scope. *)
Lemma querySelector_some scope sel root c :
  Dom.querySelector scope sel root = Some c ->
  exists n q, get scope root = Some n /\ query sel n = Some q /\ c = (scope ++ q)%list.
Proof.
  unfold Dom.querySelector. destruct (get scope root) as [n|]; [|discriminate].
  destruct (query sel n) as [q|] eqn:E; [|discriminate].
  simpl. intros H. inversion H. eauto.
Qed.

Lemma querySelector_get scope sel root c :
  Dom.querySelector scope sel root = Some c ->
  exists t a k, get c root = Some (Elem t a k) /\ matches sel t a = true.
Proof.
  intros H. apply querySelector_some in H.
  destruct H as (n & q & Hn & Hq & ->).
  rewrite get_app, Hn. now apply query_get in Hq.
Qed.

Lemma querySelector_nonempty sel root c :
  Dom.querySelector [] sel root = Some c -> c <> [].
Proof.
  rewrite querySelector_document. intros H ->. now apply find_list_nonempty in H.
Qed.

End JsFacts.

(** ** Facts about [showAlert] *)

Module AlertFacts.
Import Dom Js Dashboard DomFacts JsFacts.
Local Open Scope js_scope.

(** [showAlert] case by case: the old alerts go first; then the call throws
    when there is no container, appends when there is no anchor, inserts
    before an anchor that is a child of the container, and throws when the
    anchor lies deeper. *)
Lemma showAlert_run ty msg st :
  showAlert ty msg st =
  let d := prune marker (doc st) in
  match Dom.querySelector [] container_sel d with
  | None => (Throw TypeError, set_doc d st)
  | Some c =>
      match Dom.querySelector c anchor_sel d with
      | None =>
          setTimeout 5000
            (set_doc (update c (on_kids (append (alertDiv ty msg))) d) st)
      | Some a =>
          match child_index c a with
          | Some i =>
              setTimeout 5000
                (set_doc (update c (on_kids (insert_at i (alertDiv ty msg))) d) st)
          | None => (Throw NotFoundError, set_doc d st)
          end
      end
  end.
Proof.
  unfold showAlert, bind, remove_all, modify_doc, Js.querySelector. simpl.
  destruct (Dom.querySelector [] container_sel (prune marker (doc st))) as [c|];
    simpl; [|reflexivity].
  destruct (Dom.querySelector c anchor_sel (prune marker (doc st))) as [a|];
    simpl; [|reflexivity].
  destruct (child_index c a); reflexivity.
Qed.

Lemma string_app_assoc (a b c : string) : ((a ++ b) ++ c = a ++ (b ++ c))%string.
Proof. induction a as [|x a IH]; simpl; [reflexivity | now rewrite IH]. Qed.

Lemma has_class_head c v rest :
  has_class c (("class", v) :: rest) = mem c (tokens v).
Proof. reflexivity. Qed.

(** The element built carries the marker class, whatever the severity tag. *)
Lemma alertDiv_marker ty msg : node_matches marker (alertDiv ty msg) = true.
Proof.
  unfold alertDiv, marker, node_matches, matches. rewrite has_class_head.
  replace ("alert alert-" ++ ty ++ " alert-dismissible fade show ajax-alert")%string
    with (("alert alert-" ++ ty ++ " alert-dismissible fade show") ++ " ajax-alert")%string
    by (now rewrite !string_app_assoc).
  apply tokens_from_marker.
Qed.

Lemma count_alertDiv ty msg : count_node marker (alertDiv ty msg) = 1.
Proof.
  rewrite count_node_unfold, alertDiv_marker. reflexivity.
Qed.

Lemma child_index_app : forall c q i,
  child_index c (c ++ q)%list = Some i -> q = [i].
Proof.
  induction c as [|x c IH]; intros q i; simpl.
  - destruct q as [|j [|]]; intros H; inversion H; reflexivity.
  - rewrite Nat.eqb_refl. apply IH.
Qed.

Lemma nth_error_insert_at i (x : node) l :
  i <= List.length l -> nth_error (insert_at i x l) i = Some x.
Proof.
  intros H. unfold insert_at. rewrite nth_error_app2; rewrite firstn_length_le; auto.
  now rewrite Nat.sub_diag.
Qed.

Lemma nth_error_append (x : node) l :
  nth_error (append x l) (List.length l) = Some x.
Proof.
  unfold append. rewrite nth_error_app2; auto. now rewrite Nat.sub_diag.
Qed.

(** What a call that returns did to the document: it put the new element
    at some place [a] of the document without the old alerts. *)
Lemma showAlert_ok ty msg st st' :
  showAlert ty msg st = (Ok tt, st') ->
  count marker (doc st') = 1 /\
  exists a, get a (doc st') = Some (alertDiv ty msg).
Proof.
  rewrite showAlert_run. cbv zeta.
  destruct (Dom.querySelector [] container_sel (prune marker (doc st))) as [c|] eqn:Ec;
    [|discriminate].
  pose proof (querySelector_nonempty _ _ _ Ec) as Hc.
  destruct (querySelector_get _ _ _ _ Ec) as (t & at' & k & Hget & _).
  assert (Hcount : forall g,
            count_node marker (g (Elem t at' k))
            = count_node marker (Elem t at' k) + 1 ->
            count marker (update c g (prune marker (doc st))) = 1).
  { intros g Hg. destruct c as [|i0 c]; [contradiction|].
    pose proof (count_update marker g i0 c _ _ Hget) as E.
    rewrite count_prune in E. lia. }
  destruct (Dom.querySelector c anchor_sel (prune marker (doc st))) as [a|] eqn:Ea.
  - destruct (child_index c a) as [i|] eqn:Ei; [|discriminate].
    intros H. unfold setTimeout, set_doc in H.
    inversion H; subst st'; clear H. cbn [doc]. split.
    + apply Hcount. simpl. rewrite list_sum_insert_at, count_alertDiv. lia.
    + apply querySelector_some in Ea. destruct Ea as (n & q & Hn & Hq & ->).
      apply child_index_app in Ei. subst q.
      rewrite Hget in Hn. inversion Hn; subst n; clear Hn.
      unfold query in Hq. apply find_list_some in Hq.
      destruct Hq as (i' & q' & c' & E & Hnth & _). inversion E; subst i'; clear E.
      exists (c ++ [i])%list.
      rewrite get_app, get_update_same, Hget. simpl.
      rewrite nth_error_insert_at; auto.
      apply Nat.lt_le_incl. apply nth_error_Some. simpl in Hnth. congruence.
  - intros H. unfold setTimeout, set_doc in H.
    inversion H; subst st'; clear H. cbn [doc]. split.
    + apply Hcount. simpl. rewrite list_sum_append, count_alertDiv. lia.
    + exists (c ++ [List.length k])%list.
      rewrite get_app, get_update_same, Hget. simpl.
      now rewrite nth_error_append.
Qed.

(** Without a container the call throws, and the old alerts are gone. *)
Lemma showAlert_no_container ty msg st :
  Dom.querySelector [] container_sel (doc st) = None ->
  showAlert ty msg st = (Throw TypeError, set_doc (prune marker (doc st)) st).
Proof.
  intros H. rewrite showAlert_run. cbv zeta.
  rewrite querySelector_document in *.
  now rewrite (query_prune_none marker container_sel _ H).
Qed.

End AlertFacts.

(** ** Facts about the handler *)

Module HandlerFacts.
Import Dom Js Dashboard DomFacts JsFacts AlertFacts.
Local Open Scope js_scope.
Local Open Scope list_scope.

(** *** Assignments and the first match *)

Lemma preserves_none_with_text sel s : preserves_none sel (with_text s).
Proof.
  intros [| |t a k]; simpl; auto.
  destruct (matches sel t a); [discriminate|]. intros _.
  destruct (String.eqb s ""); reflexivity.
Qed.

Lemma preserves_match_with_text sel s : preserves_match sel (with_text s).
Proof. intros [| |t a k]; simpl; auto. Qed.

Lemma preserves_none_with_class c v :
  mem c (tokens v) = false -> preserves_none (ByClass c) (with_class v).
Proof.
  intros H [| |t a k]; simpl; auto.
  rewrite has_class_setAttribute, H.
  destruct (has_class c a); [discriminate|auto].
Qed.

Lemma preserves_match_with_class c v :
  mem c (tokens v) = true -> preserves_match (ByClass c) (with_class v).
Proof.
  intros H [| |t a k]; simpl; auto. now rewrite has_class_setAttribute.
Qed.

Lemma preserves_match_id_with_class i v : preserves_match (ById i) (with_class v).
Proof.
  intros [| |t a k]; simpl; auto.
  now rewrite getAttribute_setAttribute_other by discriminate.
Qed.

(** *** One assignment through a query *)

Lemma step_text {B : Type} (k : unit -> js B) st scope sel s n q :
  get scope (doc st) = Some n -> query sel n = Some q ->
  bind (Js.querySelector scope sel) (fun c => bind (assign_textContent c s) k) st
  = k tt (set_doc (update scope (update q (with_text s)) (doc st)) st).
Proof.
  intros Hn Hq. unfold bind, Js.querySelector, Dom.querySelector.
  rewrite Hn, Hq. simpl. unfold modify_doc. now rewrite update_app.
Qed.

Lemma step_class {B : Type} (k : unit -> js B) st scope sel v n q :
  get scope (doc st) = Some n -> query sel n = Some q ->
  bind (Js.querySelector scope sel) (fun c => bind (assign_className c v) k) st
  = k tt (set_doc (update scope (update q (with_class v)) (doc st)) st).
Proof.
  intros Hn Hq. unfold bind, Js.querySelector, Dom.querySelector.
  rewrite Hn, Hq. simpl. unfold modify_doc. now rewrite update_app.
Qed.

Lemma step_class_last st scope sel v n q :
  get scope (doc st) = Some n -> query sel n = Some q ->
  bind (Js.querySelector scope sel) (fun c => assign_className c v) st
  = (Ok tt, set_doc (update scope (update q (with_class v)) (doc st)) st).
Proof.
  intros Hn Hq. unfold bind, Js.querySelector, Dom.querySelector.
  rewrite Hn, Hq. simpl. unfold modify_doc. now rewrite update_app.
Qed.

Ltac solve_query :=
  lazymatch goal with
  | |- query _ (update ?q _ _) = Some ?q =>
      apply query_update_same;
      [ first [ apply preserves_match_with_text
              | apply preserves_match_with_class; reflexivity ]
      | solve_query ]
  | |- query _ (update _ _ _) = Some _ =>
      apply query_update_frame;
      [ first [ apply preserves_none_with_text
              | apply preserves_none_with_class; reflexivity ]
      | solve_query
      | apply apart_prefixb; assumption ]
  | _ => assumption
  end.

Ltac solve_row :=
  cbn [doc set_doc]; rewrite ?get_update_same;
  match goal with H : get _ _ = Some _ |- _ => rewrite H end; reflexivity.

(** The run of [update_row] on a row whose four cells are apart. *)
Lemma update_row_run p st row R q1 q2 q3 q4 :
  Dom.querySelector [] (row_sel p) (doc st) = Some row ->
  get row (doc st) = Some R ->
  query (ByClass "current-price") R = Some q1 ->
  query (ByClass "current-value") R = Some q2 ->
  query (ByClass "profit-loss") R = Some q3 ->
  query (ByClass "profit-loss-percent") R = Some q4 ->
  separate [q1; q2; q3; q4] = true ->
  update_row p st
  = (Ok tt, set_doc (update row (row_writes p q1 q2 q3 q4) (doc st)) st).
Proof.
  intros Hrow HR H1 H2 H3 H4 Hsep. simpl in Hsep.
  repeat (apply andb_true_iff in Hsep; destruct Hsep as [? Hsep]).
  repeat match goal with
         | H : (_ && _)%bool = true |- _ =>
             apply andb_true_iff in H; destruct H
         end.
  assert (A21 : apart q2 q1 = true) by now rewrite apart_sym.
  assert (A31 : apart q3 q1 = true) by now rewrite apart_sym.
  assert (A32 : apart q3 q2 = true) by now rewrite apart_sym.
  destruct st as [b d co ti rq]. cbn [doc] in *.
  unfold update_row, row_writes.
  rewrite (bind_ok _ _ _ (Some row) _)
    by (unfold Js.querySelector; cbn [doc]; now rewrite Hrow).
  destruct (Number.ge (profit_loss p) Number.zero).
  all: rewrite (step_text _ _ _ _ _ R q1) by (solve_row || solve_query).
  all: erewrite (step_text _ _ _ _ _ _ q2); [ | solve_row | solve_query ].
  all: erewrite (step_text _ _ _ _ _ _ q3); [ | solve_row | solve_query ].
  all: erewrite (step_class _ _ _ _ _ _ q3); [ | solve_row | solve_query ].
  all: erewrite (step_text _ _ _ _ _ _ q4); [ | solve_row | solve_query ].
  all: erewrite (step_class_last _ _ _ _ _ q4); [ | solve_row | solve_query ].
  all: cbn [doc set_doc btn console timers requests].
  all: rewrite !update_compose; reflexivity.
Qed.

(** *** Reading the row back *)

Lemma prefixb_app r : forall p q, prefixb (r ++ p) (r ++ q) = prefixb p q.
Proof.
  induction r as [|x r IH]; intros p q; simpl; auto.
  now rewrite Nat.eqb_refl, IH.
Qed.

Lemma apart_app r p q : apart (r ++ p) (r ++ q) = apart p q.
Proof. unfold apart. now rewrite !prefixb_app. Qed.

Lemma cells_inv p root row c1 c2 c3 c4 :
  cells p root = Some (row, c1, c2, c3, c4) ->
  exists R q1 q2 q3 q4,
    Dom.querySelector [] (row_sel p) root = Some row /\
    get row root = Some R /\
    query (ByClass "current-price") R = Some q1 /\
    query (ByClass "current-value") R = Some q2 /\
    query (ByClass "profit-loss") R = Some q3 /\
    query (ByClass "profit-loss-percent") R = Some q4 /\
    c1 = row ++ q1 /\ c2 = row ++ q2 /\ c3 = row ++ q3 /\ c4 = row ++ q4.
Proof.
  unfold cells.
  destruct (Dom.querySelector [] (row_sel p) root) as [r|] eqn:Er; [|discriminate].
  destruct (Dom.querySelector r (ByClass "current-price") root) as [a1|] eqn:E1;
    [|discriminate].
  destruct (Dom.querySelector r (ByClass "current-value") root) as [a2|] eqn:E2;
    [|discriminate].
  destruct (Dom.querySelector r (ByClass "profit-loss") root) as [a3|] eqn:E3;
    [|discriminate].
  destruct (Dom.querySelector r (ByClass "profit-loss-percent") root) as [a4|] eqn:E4;
    [|discriminate].
  intros H. inversion H; subst; clear H.
  apply querySelector_some in E1, E2, E3, E4.
  destruct E1 as (R & q1 & HR & H1 & ->).
  destruct E2 as (R2 & q2 & HR2 & H2 & ->).
  destruct E3 as (R3 & q3 & HR3 & H3 & ->).
  destruct E4 as (R4 & q4 & HR4 & H4 & ->).
  rewrite HR in HR2, HR3, HR4.
  injection HR2 as <-. injection HR3 as <-. injection HR4 as <-.
  exists R, q1, q2, q3, q4. repeat split; auto.
Qed.

Ltac read_cell :=
  repeat (rewrite get_update_same || rewrite get_update_apart by assumption).

(** The effect of [update_row] on a row whose four cells are apart: the
    four texts are written; the class is written on the profit/loss cells
    and on these only. *)
Lemma update_row_effect p st row c1 c2 c3 c4 :
  cells p (doc st) = Some (row, c1, c2, c3, c4) ->
  separate [c1; c2; c3; c4] = true ->
  let plSign := if Number.ge (profit_loss p) Number.zero then "+" else "" in
  let plClass := if Number.ge (profit_loss p) Number.zero then "profit" else "loss" in
  exists st',
    update_row p st = (Ok tt, st') /\
    text_at c1 (doc st') = Some ("$" ++ Number.toFixed (current_price p) 2)%string /\
    text_at c2 (doc st') = Some ("$" ++ Number.toFixed (current_value p) 2)%string /\
    text_at c3 (doc st')
    = Some (plSign ++ "$" ++ Number.toFixed (profit_loss p) 2)%string /\
    text_at c4 (doc st')
    = Some ("(" ++ plSign ++ Number.toFixed (profit_loss_percent p) 2 ++ "%)")%string /\
    class_at c3 (doc st') = Some (plClass ++ " profit-loss")%string /\
    class_at c4 (doc st') = Some (plClass ++ " profit-loss-percent")%string /\
    class_at c1 (doc st') = class_at c1 (doc st) /\
    class_at c2 (doc st') = class_at c2 (doc st).
Proof.
  intros Hc Hsep plSign plClass. subst plSign plClass.
  apply cells_inv in Hc.
  destruct Hc as (R & q1 & q2 & q3 & q4 & Hrow & HR & H1 & H2 & H3 & H4
                  & -> & -> & -> & ->).
  assert (Hsep' : separate [q1; q2; q3; q4] = true).
  { simpl in *. now rewrite !apart_app in Hsep. }
  eexists. split; [eapply update_row_run; eauto|].
  simpl in Hsep'.
  repeat (apply andb_true_iff in Hsep'; destruct Hsep' as [? Hsep']).
  repeat match goal with
         | H : (_ && _)%bool = true |- _ =>
             apply andb_true_iff in H; destruct H
         end.
  assert (A21 : apart q2 q1 = true) by now rewrite apart_sym.
  assert (A31 : apart q3 q1 = true) by now rewrite apart_sym.
  assert (A32 : apart q3 q2 = true) by now rewrite apart_sym.
  assert (A41 : apart q4 q1 = true) by now rewrite apart_sym.
  assert (A42 : apart q4 q2 = true) by now rewrite apart_sym.
  assert (A43 : apart q4 q3 = true) by now rewrite apart_sym.
  destruct (query_get _ _ _ H1) as (t1 & a1 & k1 & G1 & _).
  destruct (query_get _ _ _ H2) as (t2 & a2 & k2 & G2 & _).
  destruct (query_get _ _ _ H3) as (t3 & a3 & k3 & G3 & _).
  destruct (query_get _ _ _ H4) as (t4 & a4 & k4 & G4 & _).
  unfold text_at, class_at. cbn [doc set_doc].
  rewrite !get_app, !get_update_same, !HR. cbn [option_map].
  unfold row_writes.
  destruct (Number.ge (profit_loss p) Number.zero).
  all: read_cell.
  all: rewrite ?G1, ?G2, ?G3, ?G4; cbn [option_map with_text with_class].
  all: rewrite ?getAttribute_setAttribute_same.
  all: repeat split; reflexivity.
Qed.

(** *** The totals *)

Lemma assign_textContent_ok tgt s st u st' :
  assign_textContent tgt s st = (Ok u, st') ->
  exists e, tgt = Some e /\ st' = set_doc (update e (with_text s) (doc st)) st.
Proof.
  destruct tgt as [e|]; simpl; [|discriminate].
  unfold modify_doc. intros H. inversion H. eauto.
Qed.

Lemma assign_className_ok tgt v st u st' :
  assign_className tgt v st = (Ok u, st') ->
  exists e, tgt = Some e /\ st' = set_doc (update e (with_class v) (doc st)) st.
Proof.
  destruct tgt as [e|]; simpl; [|discriminate].
  unfold modify_doc. intros H. inversion H. eauto.
Qed.

Lemma querySelector_ok scope sel st r st' :
  Js.querySelector scope sel st = (Ok r, st') ->
  r = Dom.querySelector scope sel (doc st) /\ st' = st.
Proof. unfold Js.querySelector. intros H. inversion H. auto. Qed.

Ltac bind_step H :=
  cbv beta zeta in H; apply bind_ok_inv in H;
  let a := fresh "a" in let s := fresh "s" in let E := fresh "E" in
  destruct H as (a & s & E & H).

(** When [update_totals] returns, the element [#totalPL] holds the text and
    the class of the last two assignments. *)
Lemma update_totals_ok t st st' :
  update_totals t st = (Ok tt, st') ->
  let plSign := if Number.ge (total_profit_loss t) Number.zero then "+" else "" in
  exists e,
    Dom.querySelector [] (ById "totalPL") (doc st') = Some e /\
    text_at e (doc st')
    = Some (plSign ++ "$" ++ Number.toFixed (total_profit_loss t) 2 ++ " ("
            ++ plSign ++ Number.toFixed (total_profit_loss_percent t) 2 ++ "%)")%string /\
    class_at e (doc st')
    = Some ("card-title " ++ (if Number.ge (total_profit_loss t) Number.zero
                              then "profit" else "loss"))%string.
Proof.
  intros H plSign. subst plSign. unfold update_totals, getElementById in H.
  bind_step H. bind_step H. bind_step H. bind_step H. clear E E0 E1 E2.
  bind_step H. apply querySelector_ok in E. destruct E as [-> ->].
  bind_step H. apply assign_textContent_ok in E. destruct E as (e & He & ->).
  bind_step H. apply querySelector_ok in E. destruct E as [-> ->].
  apply assign_className_ok in H. destruct H as (e' & He' & ->).
  cbn [doc set_doc] in *.
  rewrite querySelector_document in He, He'.
  rewrite (query_update_same _ _ (preserves_match_with_text _ _) _ _ He) in He'.
  injection He' as <-.
  destruct (query_get _ _ _ He) as (tg & at' & kk & G & _).
  exists e. rewrite querySelector_document. split; [|split].
  - apply query_update_same; [apply preserves_match_id_with_class|].
    apply query_update_same; [apply preserves_match_with_text|]. exact He.
  - unfold text_at. rewrite !get_update_same, G.
    destruct (Number.ge (total_profit_loss t) Number.zero); reflexivity.
  - unfold class_at. rewrite !get_update_same, G. cbn [option_map with_text with_class].
    now rewrite getAttribute_setAttribute_same.
Qed.

(** *** What never appears: rows *)

Lemma query_update_none_any sel g :
  preserves_none sel g ->
  (forall n, query sel n = None -> query sel (g n) = None) ->
  forall p n, query sel n = None -> query sel (update p g n) = None.
Proof.
  intros Hg Hq [|i p] n H; [now apply Hq|].
  apply query_update_none; auto. discriminate.
Qed.

Lemma keeps_absent_ret sel {A : Type} (a : A) : keeps_absent sel (ret a).
Proof. intros st r st' H. inversion H; subst. auto. Qed.

Lemma keeps_absent_throw sel {A : Type} e : keeps_absent sel (@throw A e).
Proof. intros st r st' H. inversion H; subst. auto. Qed.

Lemma keeps_absent_bind sel {A B : Type} (m : js A) (k : A -> js B) :
  keeps_absent sel m -> (forall a, keeps_absent sel (k a)) ->
  keeps_absent sel (bind m k).
Proof.
  intros Hm Hk st r st' H Hq. unfold bind in H.
  destruct (m st) as [[a|e] st1] eqn:E.
  - eapply Hk; eauto.
  - inversion H; subst. eauto.
Qed.

Lemma keeps_absent_catch sel {A : Type} (m : js A) (h : exn -> js A) :
  keeps_absent sel m -> (forall e, keeps_absent sel (h e)) ->
  keeps_absent sel (catch m h).
Proof.
  intros Hm Hh st r st' H Hq. unfold catch in H.
  destruct (m st) as [[a|e] st1] eqn:E.
  - inversion H; subst. eauto.
  - eapply Hh; eauto.
Qed.

Lemma keeps_absent_same_doc sel {A : Type} (m : js A) :
  (forall st r st', m st = (r, st') -> doc st' = doc st) ->
  keeps_absent sel m.
Proof. intros Hm st r st' H Hq. now rewrite (Hm _ _ _ H). Qed.

Lemma keeps_absent_querySelector sel scope sel' :
  keeps_absent sel (Js.querySelector scope sel').
Proof. apply keeps_absent_same_doc. intros st r st' H. now inversion H. Qed.

Lemma keeps_absent_modify sel g :
  (forall d, query sel d = None -> query sel (g d) = None) ->
  keeps_absent sel (modify_doc g).
Proof. intros Hg st r st' H Hq. inversion H; subst. simpl. auto. Qed.

Lemma keeps_absent_textContent sel tgt s :
  keeps_absent sel (assign_textContent tgt s).
Proof.
  destruct tgt as [e|]; simpl; [|apply keeps_absent_throw].
  apply keeps_absent_modify. intros d. apply query_update_none_any.
  - apply preserves_none_with_text.
  - intros [| |t a k] _; auto. unfold query. simpl.
    destruct (String.eqb s ""); reflexivity.
Qed.

Lemma preserves_none_attr_with_class t a w v :
  a <> "class"%string -> preserves_none (ByTagAttr t a w) (with_class v).
Proof.
  intros Ha [| |tg at' k]; simpl; auto.
  now rewrite getAttribute_setAttribute_other by congruence.
Qed.

Lemma keeps_absent_className t a w tgt v :
  a <> "class"%string ->
  keeps_absent (ByTagAttr t a w) (assign_className tgt v).
Proof.
  intros Ha. destruct tgt as [e|]; simpl; [|apply keeps_absent_throw].
  apply keeps_absent_modify. intros d. apply query_update_none_any.
  - now apply preserves_none_attr_with_class.
  - intros [| |tg at' k]; auto.
Qed.

Lemma keeps_absent_remove_all sel sel' : keeps_absent sel (remove_all sel').
Proof.
  apply keeps_absent_modify. intros d. apply query_prune_none.
Qed.

Lemma find_list_insert_at F i x l :
  find_list F l = None -> F x = None -> find_list F (insert_at i x l) = None.
Proof.
  intros Hl Hx. apply find_list_none. apply find_list_none in Hl.
  rewrite <- (firstn_skipn i l) in Hl. apply Forall_app in Hl. destruct Hl.
  unfold insert_at. apply Forall_app. split; auto.
Qed.

Lemma find_list_append F x l :
  find_list F l = None -> F x = None -> find_list F (append x l) = None.
Proof.
  intros Hl Hx. apply find_list_none. apply find_list_none in Hl.
  unfold append. apply Forall_app. split; auto.
Qed.

Lemma keeps_absent_insertBefore sel parent n child :
  find_node sel n = None ->
  keeps_absent sel (insertBefore parent n child).
Proof.
  intros Hn. destruct parent as [p|]; simpl; [|apply keeps_absent_throw].
  destruct child as [c|].
  - destruct (child_index p c) as [i|]; [|apply keeps_absent_throw].
    apply keeps_absent_modify. intros d. apply query_update_none_any.
    + intros [| |t a k]; simpl; auto.
      destruct (matches sel t a); [discriminate|].
      intros H. now apply find_list_insert_at.
    + intros [| |t a k]; auto. unfold query. simpl.
      intros H. now apply find_list_insert_at.
  - apply keeps_absent_modify. intros d. apply query_update_none_any.
    + intros [| |t a k]; simpl; auto.
      destruct (matches sel t a); [discriminate|].
      intros H. now apply find_list_append.
    + intros [| |t a k]; auto. unfold query. simpl.
      intros H. now apply find_list_append.
Qed.

Lemma keeps_absent_forEach sel {A : Type} (f : A -> js unit) :
  (forall x, keeps_absent sel (f x)) ->
  forall l, keeps_absent sel (forEach l f).
Proof.
  intros Hf. induction l as [|x l IH]; simpl.
  - apply keeps_absent_ret.
  - apply keeps_absent_bind; auto.
Qed.

Ltac keeps :=
  repeat first
    [ apply keeps_absent_bind; [|intros ?]
    | apply keeps_absent_ret
    | apply keeps_absent_throw
    | apply keeps_absent_querySelector
    | apply keeps_absent_textContent
    | apply keeps_absent_className; discriminate
    | apply keeps_absent_remove_all
    | apply keeps_absent_insertBefore; reflexivity
    | apply keeps_absent_same_doc; intros ? ? ? H; now inversion H ].

Lemma keeps_absent_showAlert t a w ty msg :
  t <> "div"%string -> keeps_absent (ByTagAttr t a w) (showAlert ty msg).
Proof.
  intros Ht. unfold showAlert, querySelector_of.
  apply keeps_absent_bind; [apply keeps_absent_remove_all|intros _].
  apply keeps_absent_bind; [apply keeps_absent_querySelector|intros c].
  apply keeps_absent_bind; [destruct c; keeps|intros a'].
  apply keeps_absent_bind; [|intros _; keeps].
  apply keeps_absent_insertBefore.
  rewrite find_node_unfold. unfold alertDiv, node_matches, matches.
  destruct (String.eqb_spec "div" t) as [E|_]; [congruence|reflexivity].
Qed.

Lemma keeps_absent_update_totals t a w tot :
  a <> "class"%string -> keeps_absent (ByTagAttr t a w) (update_totals tot).
Proof.
  intros Ha. unfold update_totals, getElementById. cbv zeta.
  repeat first
    [ apply keeps_absent_bind; [|intros ?]
    | apply keeps_absent_querySelector
    | apply keeps_absent_textContent
    | apply keeps_absent_className; assumption ].
Qed.

Lemma keeps_absent_update_row t a w p :
  a <> "class"%string -> keeps_absent (ByTagAttr t a w) (update_row p).
Proof.
  intros Ha. unfold update_row.
  apply keeps_absent_bind; [apply keeps_absent_querySelector|intros [row|]].
  - cbv zeta.
    repeat first
      [ apply keeps_absent_bind; [|intros ?]
      | apply keeps_absent_querySelector
      | apply keeps_absent_textContent
      | apply keeps_absent_className; assumption ].
  - apply keeps_absent_ret.
Qed.

(** An entry without row leaves the page as it is. *)
Lemma update_row_absent p st :
  Dom.querySelector [] (row_sel p) (doc st) = None ->
  update_row p st = (Ok tt, st).
Proof.
  intros H. unfold update_row, bind, Js.querySelector. now rewrite H.
Qed.

(** Dropping such an entry from the list changes nothing. *)
Lemma forEach_absent p l2 : forall l1 st,
  Dom.querySelector [] (row_sel p) (doc st) = None ->
  forEach (l1 ++ p :: l2) update_row st = forEach (l1 ++ l2) update_row st.
Proof.
  induction l1 as [|x l1 IH]; intros st H; simpl.
  - unfold bind. now rewrite update_row_absent.
  - unfold bind. destruct (update_row x st) as [[u|e] st1] eqn:E; auto.
    apply IH. rewrite querySelector_document in *.
    eapply (keeps_absent_update_row "tr" "data-portfolio-id"); eauto. discriminate.
Qed.

(** *** The button *)

Lemma restore_button_run st :
  restore_button st
  = (Ok tt, set_btn {| disabled := false; innerHTML := refresh_label;
                       dataset_url := dataset_url (btn st) |} st).
Proof. reflexivity. Qed.

Lemma then_restore_ok (m : js unit) st st' :
  (m ;; restore_button) st = (Ok tt, st') ->
  disabled (btn st') = false /\ innerHTML (btn st') = refresh_label.
Proof.
  intros H. apply bind_ok_inv in H. destruct H as (a & s1 & _ & H).
  rewrite restore_button_run in H. inversion H; subst. auto.
Qed.

(** An activation that ends without an uncaught exception has restored the
    control. *)
Lemma activation_ok_restores o st st' :
  activation o st = (Ok tt, st') ->
  disabled (btn st') = false /\ innerHTML (btn st') = refresh_label.
Proof.
  unfold activation. intros H. apply bind_ok_inv in H.
  destruct H as (a & s1 & _ & H). unfold on_settled, catch in H.
  destruct o as [e|data].
  - simpl in H. unfold on_error in H.
    apply bind_ok_inv in H. destruct H as (a1 & s2 & _ & H).
    now apply (then_restore_ok (showAlert "danger" failure_message)) in H.
  - destruct (on_data data s1) as [[u|e] s2] eqn:E.
    + inversion H; subst. unfold on_data in E.
      apply bind_ok_inv in E. destruct E as (a1 & s3 & _ & E).
      apply bind_ok_inv in E. destruct E as (a2 & s4 & _ & E).
      now apply (then_restore_ok (forEach (portfolios data) update_row)) in E.
    + unfold on_error in H.
      apply bind_ok_inv in H. destruct H as (a1 & s3 & _ & H).
      now apply (then_restore_ok (showAlert "danger" failure_message)) in H.
Qed.

End HandlerFacts.

(** * The claims of the specification *)

Import Dom Js Dashboard Sample.
Import DomFacts JsFacts AlertFacts HandlerFacts NumberFacts.

(** C1, as stated, fails: for a profit/loss of -12.345 the cell reads
    "$-12.35", the minus sign after the dollar sign, not "-$12.35". *)
Lemma C1_counterexample :
  update_row loss_entry (page_of page_doc) = (Ok tt, after_loss_update) /\
  text_at pl_path (doc after_loss_update) = Some "$-12.35" /\
  text_at pl_path (doc after_loss_update) <> Some "-$12.35".
Proof.
  split; [|split].
  - vm_compute. reflexivity.
  - vm_compute. reflexivity.
  - vm_compute. discriminate.
Qed.

(** C1, amended: for an entry with profit_loss = -12.345 whose row has its
    four cells apart, the text written into the profit/loss cell is
    "$-12.35" (empty sign prefix, then the dollar sign, then the minus sign
    that toFixed prints) and its class becomes "loss profit-loss". *)
Theorem C1_loss_text_and_class p st row c1 c2 c3 c4 :
  cells p (doc st) = Some (row, c1, c2, c3, c4) ->
  separate [c1; c2; c3; c4] = true ->
  profit_loss p = Number.of_decimal (-12345) 3 ->
  exists st',
    update_row p st = (Ok tt, st') /\
    text_at c3 (doc st') = Some "$-12.35" /\
    class_at c3 (doc st') = Some "loss profit-loss".
Proof.
  intros Hc Hs Hpl.
  destruct (update_row_effect p st row c1 c2 c3 c4 Hc Hs)
    as (st' & Hrun & _ & _ & Ht & _ & Hk & _).
  exists st'. rewrite Hpl in Ht, Hk. auto.
Qed.

Lemma C1_witness :
  cells loss_entry (doc (page_of page_doc))
  = Some (row7_path, price_path, value_path, pl_path, percent_path) /\
  separate [price_path; value_path; pl_path; percent_path] = true /\
  profit_loss loss_entry = Number.of_decimal (-12345) 3 /\
  exists st',
    update_row loss_entry (page_of page_doc) = (Ok tt, st') /\
    text_at pl_path (doc st') = Some "$-12.35" /\
    class_at pl_path (doc st') = Some "loss profit-loss".
Proof.
  assert (Hc : cells loss_entry (doc (page_of page_doc))
               = Some (row7_path, price_path, value_path, pl_path, percent_path))
    by (vm_compute; reflexivity).
  assert (Hs : separate [price_path; value_path; pl_path; percent_path] = true)
    by reflexivity.
  repeat split; auto.
  exact (C1_loss_text_and_class loss_entry (page_of page_doc) _ _ _ _ _ Hc Hs eq_refl).
Defined.

(** C8: for an entry with profit_loss = 0 (either zero), the sign prefix is
    "+", the profit/loss cell reads "+$0.00" and its class becomes
    "profit profit-loss", the profit class. *)
Theorem C8_zero_text_and_class p st row c1 c2 c3 c4 s :
  cells p (doc st) = Some (row, c1, c2, c3, c4) ->
  separate [c1; c2; c3; c4] = true ->
  profit_loss p = S754_zero s ->
  (if Number.ge (profit_loss p) Number.zero then "+" else "") = "+" /\
  exists st',
    update_row p st = (Ok tt, st') /\
    text_at c3 (doc st') = Some "+$0.00" /\
    class_at c3 (doc st') = Some "profit profit-loss".
Proof.
  intros Hc Hs Hpl.
  destruct (update_row_effect p st row c1 c2 c3 c4 Hc Hs)
    as (st' & Hrun & _ & _ & Ht & _ & Hk & _).
  rewrite Hpl in *. rewrite zero_ge_zero in *.
  split; [reflexivity|]. exists st'. auto.
Qed.

Lemma C8_witness :
  cells (entry 7 Number.zero) (doc (page_of page_doc))
  = Some (row7_path, price_path, value_path, pl_path, percent_path) /\
  separate [price_path; value_path; pl_path; percent_path] = true /\
  profit_loss (entry 7 Number.zero) = S754_zero false /\
  (if Number.ge (profit_loss (entry 7 Number.zero)) Number.zero then "+" else "") = "+" /\
  exists st',
    update_row (entry 7 Number.zero) (page_of page_doc) = (Ok tt, st') /\
    text_at pl_path (doc st') = Some "+$0.00" /\
    class_at pl_path (doc st') = Some "profit profit-loss".
Proof.
  assert (Hc : cells (entry 7 Number.zero) (doc (page_of page_doc))
               = Some (row7_path, price_path, value_path, pl_path, percent_path))
    by (vm_compute; reflexivity).
  assert (Hs : separate [price_path; value_path; pl_path; percent_path] = true)
    by reflexivity.
  repeat split; auto;
    apply (C8_zero_text_and_class (entry 7 Number.zero) (page_of page_doc)
             _ _ _ _ _ false Hc Hs eq_refl).
Defined.

(** C3, as stated, fails: after the update of row 7 the price and value
    cells keep the class they had, which says nothing of profit or loss;
    only the two profit/loss cells get a class. *)
Lemma C3_counterexample :
  update_row loss_entry (page_of page_doc) = (Ok tt, after_loss_update) /\
  class_at price_path (doc after_loss_update) = Some "current-price" /\
  class_at value_path (doc after_loss_update) = Some "current-value" /\
  has_class "loss" [("class", "current-price")] = false /\
  has_class "loss" [("class", "current-value")] = false /\
  class_at pl_path (doc after_loss_update) = Some "loss profit-loss" /\
  class_at percent_path (doc after_loss_update) = Some "loss profit-loss-percent".
Proof.
  repeat split; vm_compute; reflexivity.
Qed.

(** C3, amended: for an entry whose id matches a row with its four cells
    apart, the handler writes the text of all four cells (price, value,
    profit/loss amount, profit/loss percent); it re-applies a class, profit
    when profit_loss >= 0 and loss otherwise, on the profit/loss amount and
    percent cells only, and leaves the class of the price and value cells as
    it was. *)
Theorem C3_row_update p st row c1 c2 c3 c4 :
  cells p (doc st) = Some (row, c1, c2, c3, c4) ->
  separate [c1; c2; c3; c4] = true ->
  let plSign := if Number.ge (profit_loss p) Number.zero then "+" else "" in
  let plClass := if Number.ge (profit_loss p) Number.zero then "profit" else "loss" in
  exists st',
    update_row p st = (Ok tt, st') /\
    text_at c1 (doc st') = Some ("$" ++ Number.toFixed (current_price p) 2) /\
    text_at c2 (doc st') = Some ("$" ++ Number.toFixed (current_value p) 2) /\
    text_at c3 (doc st') = Some (plSign ++ "$" ++ Number.toFixed (profit_loss p) 2) /\
    text_at c4 (doc st')
    = Some ("(" ++ plSign ++ Number.toFixed (profit_loss_percent p) 2 ++ "%)") /\
    class_at c3 (doc st') = Some (plClass ++ " profit-loss") /\
    class_at c4 (doc st') = Some (plClass ++ " profit-loss-percent") /\
    class_at c1 (doc st') = class_at c1 (doc st) /\
    class_at c2 (doc st') = class_at c2 (doc st).
Proof.
  intros Hc Hs. exact (update_row_effect p st row c1 c2 c3 c4 Hc Hs).
Qed.

Lemma C3_witness :
  cells loss_entry (doc (page_of page_doc))
  = Some (row7_path, price_path, value_path, pl_path, percent_path) /\
  separate [price_path; value_path; pl_path; percent_path] = true /\
  exists st',
    update_row loss_entry (page_of page_doc) = (Ok tt, st') /\
    text_at price_path (doc st') = Some "$1.50" /\
    text_at value_path (doc st') = Some "$3.00" /\
    text_at pl_path (doc st') = Some "$-12.35" /\
    text_at percent_path (doc st') = Some "(2.50%)" /\
    class_at pl_path (doc st') = Some "loss profit-loss" /\
    class_at percent_path (doc st') = Some "loss profit-loss-percent" /\
    class_at price_path (doc st') = Some "current-price" /\
    class_at value_path (doc st') = Some "current-value".
Proof.
  assert (Hc : cells loss_entry (doc (page_of page_doc))
               = Some (row7_path, price_path, value_path, pl_path, percent_path))
    by (vm_compute; reflexivity).
  assert (Hs : separate [price_path; value_path; pl_path; percent_path] = true)
    by reflexivity.
  repeat split; auto.
  exact (C3_row_update loss_entry (page_of page_doc) _ _ _ _ _ Hc Hs).
Defined.

(** C6: an entry whose id has no matching row changes nothing on the page;
    the loop over the entries does the same with and without it; and the
    page the handler leaves is the one it leaves for the payload without
    that entry: the updates of the totals and of the other entries are the
    same.  (No step of the handler brings a row in: the assignments write
    text and classes, and the markup of an alert is kept unparsed.) *)
Theorem C6_entry_without_row p st :
  Dom.querySelector [] (row_sel p) (doc st) = None ->
  update_row p st = (Ok tt, st) /\
  (forall l1 l2,
     forEach (l1 ++ p :: l2) update_row st = forEach (l1 ++ l2) update_row st) /\
  forall err tot l1 l2,
    on_data {| error := err; totals := tot; portfolios := l1 ++ p :: l2 |} st
    = on_data {| error := err; totals := tot; portfolios := l1 ++ l2 |} st.
Proof.
  intros H. split; [now apply update_row_absent|].
  split; [intros l1 l2; now apply forEach_absent|].
  intros err tot l1 l2. unfold on_data. cbn [error totals portfolios].
  rewrite querySelector_document in H.
  assert (Ha : keeps_absent (row_sel p)
                 (if truthy err then showAlert "warning" (message_of err) else ret tt)).
  { destruct (truthy err).
    - apply keeps_absent_showAlert. discriminate.
    - apply keeps_absent_ret. }
  apply bind_ext_after. intros u st1 E1. specialize (Ha _ _ _ E1 H).
  apply bind_ext_after. intros u2 st2 E2.
  assert (H2 : query (row_sel p) (doc st2) = None).
  { eapply (keeps_absent_update_totals "tr" "data-portfolio-id"); eauto. discriminate. }
  unfold bind. rewrite forEach_absent by now rewrite querySelector_document.
  reflexivity.
Qed.

Lemma C6_witness :
  Dom.querySelector [] (row_sel stray_entry) (doc (page_of page_doc)) = None /\
  update_row stray_entry (page_of page_doc) = (Ok tt, page_of page_doc) /\
  on_data (payload None [loss_entry; stray_entry]) (page_of page_doc)
  = on_data (payload None [loss_entry]) (page_of page_doc).
Proof.
  assert (H : Dom.querySelector [] (row_sel stray_entry) (doc (page_of page_doc)) = None)
    by (vm_compute; reflexivity).
  split; [exact H|]. split.
  - exact (proj1 (C6_entry_without_row stray_entry (page_of page_doc) H)).
  - exact (proj2 (proj2 (C6_entry_without_row stray_entry (page_of page_doc) H))
             None totals0 [loss_entry] []).
Defined.

(** C5, as stated, fails: on a page without [main.container] the call
    throws and no element carries the marker class afterwards. *)
Lemma C5_counterexample :
  fst (showAlert "warning" "X" (page_of no_container_doc)) = Throw TypeError /\
  count marker (doc (snd (showAlert "warning" "X" (page_of no_container_doc)))) = 0.
Proof.
  split; vm_compute; reflexivity.
Qed.

(** C5, amended: after any call to showAlert that returns, exactly one
    element carrying the marker class is in the document: the call first
    removes all those there are, then inserts the one it built; so it is
    after a second call that returns.  (The markup of the message is kept
    unparsed: elements it would bring are not counted.) *)
Theorem C5_one_alert_after_call ty msg st st' :
  showAlert ty msg st = (Ok tt, st') ->
  count marker (prune marker (doc st)) = 0 /\
  count marker (doc st') = 1 /\
  (exists a, get a (doc st') = Some (alertDiv ty msg)) /\
  forall ty2 msg2 st'',
    showAlert ty2 msg2 st' = (Ok tt, st'') -> count marker (doc st'') = 1.
Proof.
  intros H. split; [apply count_prune|].
  destruct (showAlert_ok _ _ _ _ H) as [Hc Ha].
  split; [exact Hc|]. split; [exact Ha|].
  intros ty2 msg2 st'' H2. exact (proj1 (showAlert_ok _ _ _ _ H2)).
Qed.

Lemma C5_witness :
  showAlert "warning" "X" (page_of page_doc)
  = (Ok tt, snd (showAlert "warning" "X" (page_of page_doc))) /\
  count marker (doc (snd (showAlert "warning" "X" (page_of page_doc)))) = 1.
Proof.
  assert (H : showAlert "warning" "X" (page_of page_doc)
              = (Ok tt, snd (showAlert "warning" "X" (page_of page_doc))))
    by (vm_compute; reflexivity).
  split; [exact H|].
  exact (proj1 (proj2 (C5_one_alert_after_call _ _ _ _ H))).
Defined.

(** C10, as stated, fails for the anchor: on a page that has the container
    but no anchor in it, the call returns and the new alert is in the
    document. *)
Lemma C10_counterexample :
  Dom.querySelector [] anchor_sel no_anchor_doc = None /\
  fst (showAlert "danger" "X" (page_of no_anchor_doc)) = Ok tt /\
  count marker (doc (snd (showAlert "danger" "X" (page_of no_anchor_doc)))) = 1.
Proof.
  repeat split; vm_compute; reflexivity.
Qed.

(** C10, amended: showAlert removes the marker-class alerts before it looks
    up the container, so a call made when the container is absent throws
    after the alerts displayed before have been removed, and leaves no alert;
    a call made when the container is there and the anchor is absent does
    not throw: it appends the new alert to the container. *)
Theorem C10_showAlert_failure ty msg st :
  (Dom.querySelector [] container_sel (doc st) = None ->
   showAlert ty msg st = (Throw TypeError, set_doc (prune marker (doc st)) st) /\
   count marker (prune marker (doc st)) = 0) /\
  (forall c,
     Dom.querySelector [] container_sel (prune marker (doc st)) = Some c ->
     Dom.querySelector c anchor_sel (prune marker (doc st)) = None ->
     showAlert ty msg st
     = setTimeout 5000
         (set_doc (update c (on_kids (append (alertDiv ty msg)))
                     (prune marker (doc st))) st)).
Proof.
  split.
  - intros H. split; [now apply showAlert_no_container | apply count_prune].
  - intros c Hc Ha. rewrite showAlert_run. cbv zeta. now rewrite Hc, Ha.
Qed.

Lemma C10_witness :
  Dom.querySelector [] container_sel (doc (page_of no_container_doc)) = None /\
  showAlert "danger" "X" (page_of no_container_doc)
  = (Throw TypeError,
     set_doc (prune marker (doc (page_of no_container_doc))) (page_of no_container_doc)) /\
  count marker (prune marker (doc (page_of no_container_doc))) = 0.
Proof.
  assert (H : Dom.querySelector [] container_sel (doc (page_of no_container_doc)) = None)
    by (vm_compute; reflexivity).
  split; [exact H|].
  exact (proj1 (C10_showAlert_failure "danger" "X" (page_of no_container_doc)) H).
Defined.

(** C2 fails on the code: when the page has no [main.container], the
    failure path itself throws in showAlert, before the two assignments that
    restore the control, and the control stays disabled with its loading
    label. *)
Theorem C2_control_left_disabled st e :
  Dom.querySelector [] container_sel (doc st) = None ->
  exists st',
    activation (Rejected e) st = (Throw TypeError, st') /\
    disabled (btn st') = true /\
    innerHTML (btn st') = spinner_label.
Proof.
  intros H. unfold activation, on_click, on_settled, catch, on_error.
  unfold bind at 1. cbn [set_disabled set_innerHTML fetch bind].
  cbv beta iota. unfold throw, console_error. unfold bind.
  rewrite showAlert_no_container by exact H.
  eexists. split; [reflexivity|]. split; reflexivity.
Qed.

Lemma C2_witness :
  Dom.querySelector [] container_sel (doc (page_of no_container_doc)) = None /\
  exists st',
    activation (Rejected NetworkError) (page_of no_container_doc) = (Throw TypeError, st') /\
    disabled (btn st') = true /\
    innerHTML (btn st') = spinner_label.
Proof.
  assert (H : Dom.querySelector [] container_sel (doc (page_of no_container_doc)) = None)
    by (vm_compute; reflexivity).
  split; [exact H|].
  exact (C2_control_left_disabled (page_of no_container_doc) NetworkError H).
Defined.

(** C9: in the totals display the sign prefix of the percent is the one of
    the amount: when total_profit_loss >= 0 the percent is written with "+"
    in front, also when the percent is negative, which gives "(+-N%)"; when
    total_profit_loss < 0 the percent is written without prefix, whatever
    its sign. *)
Theorem C9_percent_prefix_follows_amount t st st' :
  update_totals t st = (Ok tt, st') ->
  exists e txt,
    Dom.querySelector [] (ById "totalPL") (doc st') = Some e /\
    text_at e (doc st') = Some txt /\
    (Number.ge (total_profit_loss t) Number.zero = true ->
     txt = "+$" ++ Number.toFixed (total_profit_loss t) 2
           ++ " (+" ++ Number.toFixed (total_profit_loss_percent t) 2 ++ "%)" /\
     (Number.lt (total_profit_loss_percent t) Number.zero = true ->
      exists digits,
        txt = "+$" ++ Number.toFixed (total_profit_loss t) 2
              ++ " (+-" ++ digits ++ "%)")) /\
    (Number.lt (total_profit_loss t) Number.zero = true ->
     txt = "$" ++ Number.toFixed (total_profit_loss t) 2
           ++ " (" ++ Number.toFixed (total_profit_loss_percent t) 2 ++ "%)").
Proof.
  intros H. destruct (update_totals_ok _ _ _ H) as (e & Hq & Ht & _).
  exists e. eexists. split; [exact Hq|]. split; [exact Ht|]. split.
  - intros Hge. rewrite Hge. split; [reflexivity|].
    intros Hlt. destruct (toFixed_negative _ 2 Hlt) as [r ->].
    exists r. reflexivity.
  - intros Hlt. rewrite (lt_zero_not_ge _ Hlt). reflexivity.
Qed.

Lemma C9_witness :
  update_totals mixed_totals (page_of page_doc)
  = (Ok tt, snd (update_totals mixed_totals (page_of page_doc))) /\
  text_at [0; 0; 0; 3] (doc (snd (update_totals mixed_totals (page_of page_doc))))
  = Some "+$10.00 (+-5.00%)" /\
  exists e txt,
    Dom.querySelector [] (ById "totalPL")
      (doc (snd (update_totals mixed_totals (page_of page_doc)))) = Some e /\
    text_at e (doc (snd (update_totals mixed_totals (page_of page_doc)))) = Some txt.
Proof.
  assert (H : update_totals mixed_totals (page_of page_doc)
              = (Ok tt, snd (update_totals mixed_totals (page_of page_doc))))
    by (vm_compute; reflexivity).
  split; [exact H|]. split; [vm_compute; reflexivity|].
  destruct (C9_percent_prefix_follows_amount _ _ _ H) as (e & txt & Hq & Ht & _).
  exists e, txt. split; assumption.
Defined.

(** C7: the tooltip of the hovered segment is its label, a colon, "$" and
    the value with two decimals, then in parentheses the Number
    value / sum(values) * 100 with one decimal and "%"; for the values
    [10, 20, 30] and the labels ["A", "B", "C"], segment "B" gives
    "B: $20.00 (33.3%)". *)
Theorem C7_tooltip_text :
  (forall labels values i l v,
     nth_error labels i = Some l ->
     nth_error values i = Some v ->
     Chart.tooltip labels values i
     = Some (l ++ ": $" ++ Number.toFixed v 2 ++ " ("
             ++ Number.toFixed
                  (Number.mul (Number.div v (fold_left Number.add values Number.zero))
                     (Number.of_Z 100)) 1
             ++ "%)")) /\
  Chart.tooltip ["A"; "B"; "C"] [Number.of_Z 10; Number.of_Z 20; Number.of_Z 30] 1
  = Some "B: $20.00 (33.3%)".
Proof.
  split.
  - intros labels values i l v Hl Hv. unfold Chart.tooltip, Chart.hover.
    rewrite Hl, Hv. reflexivity.
  - vm_compute. reflexivity.
Qed.

Lemma C7_witness :
  nth_error ["A"; "B"; "C"] 1 = Some "B" /\
  nth_error [Number.of_Z 10; Number.of_Z 20; Number.of_Z 30] 1 = Some (Number.of_Z 20) /\
  Chart.tooltip ["A"; "B"; "C"] [Number.of_Z 10; Number.of_Z 20; Number.of_Z 30] 1
  = Some ("B" ++ ": $" ++ Number.toFixed (Number.of_Z 20) 2 ++ " ("
          ++ Number.toFixed
               (Number.mul
                  (Number.div (Number.of_Z 20)
                     (fold_left Number.add
                        [Number.of_Z 10; Number.of_Z 20; Number.of_Z 30] Number.zero))
                  (Number.of_Z 100)) 1
          ++ "%)").
Proof.
  split; [reflexivity|]. split; [reflexivity|].
  exact (proj1 C7_tooltip_text ["A"; "B"; "C"]
           [Number.of_Z 10; Number.of_Z 20; Number.of_Z 30] 1 "B" (Number.of_Z 20)
           eq_refl eq_refl).
Defined.

(** * Further properties of the scripts *)

(** ** Class lists *)

Module ClassListFacts.
Import Dom ClassList DomFacts AlertFacts.
Local Open Scope list_scope.

Lemma string_app_nil (s : string) : (s ++ "")%string = s.
Proof. induction s as [|c s IH]; simpl; [reflexivity | now rewrite IH]. Qed.

Lemma no_space_app a b : no_space (a ++ b)%string = no_space a && no_space b.
Proof.
  induction a as [|c a IH]; simpl; auto. rewrite IH. now rewrite andb_assoc.
Qed.

Lemma eqb_app_char_empty cur c : String.eqb (cur ++ String c "")%string "" = false.
Proof. destruct cur; reflexivity. Qed.

(** What the tokenizer returns are tokens. *)
Lemma tokens_from_are_tokens s : forall cur,
  no_space cur = true -> Forall (fun t => is_token t = true) (tokens_from cur s).
Proof.
  induction s as [|c s IH]; intros cur Hcur; simpl.
  - destruct (String.eqb cur "") eqn:E; constructor; auto.
    unfold is_token. now rewrite E, Hcur.
  - destruct (is_space c) eqn:Ec.
    + destruct (String.eqb cur "") eqn:E.
      * now apply IH.
      * constructor; [|now apply IH]. unfold is_token. now rewrite E, Hcur.
    + apply IH. rewrite no_space_app, Hcur. simpl. now rewrite Ec.
Qed.

Lemma tokens_are_tokens s : Forall (fun t => is_token t = true) (tokens s).
Proof. now apply tokens_from_are_tokens. Qed.

Lemma tokens_from_app x : forall cur s,
  no_space x = true ->
  tokens_from cur (x ++ s)%string = tokens_from (cur ++ x)%string s.
Proof.
  induction x as [|c x IH]; intros cur s H; simpl in *.
  - now rewrite string_app_nil.
  - apply andb_true_iff in H. destruct H as [Hc Hx].
    apply negb_true_iff in Hc. rewrite Hc, IH by exact Hx.
    now rewrite string_app_assoc.
Qed.

(** Round trip: the tokens of the serialization of a list of tokens are
    these tokens. *)
Lemma tokens_join l :
  Forall (fun t => is_token t = true) l -> tokens (join l) = l.
Proof.
  unfold tokens. induction l as [|x l IH]; intros H; [reflexivity|].
  inversion H as [|? ? Hx Hl]; subst. unfold is_token in Hx.
  apply andb_true_iff in Hx. destruct Hx as [Hne Hns].
  apply negb_true_iff in Hne.
  destruct l as [|y l].
  - simpl. rewrite <- (string_app_nil x) at 1.
    rewrite tokens_from_app by exact Hns. simpl. now rewrite Hne.
  - change (join (x :: y :: l)) with (x ++ String " " (join (y :: l)))%string.
    rewrite tokens_from_app by exact Hns. simpl. rewrite Hne.
    f_equal. now apply IH.
Qed.

Lemma mem_filter x (f : string -> bool) l :
  mem x (filter f l) = mem x l && f x.
Proof.
  unfold mem. induction l as [|y l IH]; simpl; auto.
  destruct (f y) eqn:Ey; simpl; rewrite IH;
    destruct (String.eqb x y) eqn:Exy; simpl; auto;
    apply String.eqb_eq in Exy; subst y; rewrite Ey; auto using andb_false_r.
Qed.

Lemma mem_dedupe x l : mem x (dedupe l) = mem x l.
Proof.
  induction l as [|y l IH]; simpl; auto.
  change (mem x (y :: ?r)) with (String.eqb x y || mem x r).
  rewrite mem_filter, IH.
  destruct (String.eqb_spec x y) as [->|Hne]; simpl; auto.
  destruct (String.eqb_spec y x) as [->|_]; [contradiction|].
  now rewrite andb_true_r.
Qed.

Lemma mem_remove_token x tok l :
  mem x (remove_token tok l) = mem x l && negb (String.eqb tok x).
Proof. apply mem_filter. Qed.

Lemma Forall_filter_tokens (P : string -> Prop) f l :
  Forall P l -> Forall P (filter f l).
Proof.
  induction 1 as [|y l Hy Hl IH]; simpl; auto. destruct (f y); auto.
Qed.

Lemma dedupe_are_tokens l :
  Forall (fun t => is_token t = true) l ->
  Forall (fun t => is_token t = true) (dedupe l).
Proof.
  induction 1 as [|y l Hy Hl IH]; simpl; auto.
  constructor; auto. now apply Forall_filter_tokens.
Qed.

(** The class tokens after [classList.remove(tok)]: those there were,
    without [tok]. *)
Lemma has_class_without c tok t a k v :
  getAttribute "class" a = Some v ->
  node_matches (ByClass c) (without_class tok (Elem t a k))
  = mem c (tokens v) && negb (String.eqb tok c).
Proof.
  intros Hv. simpl. rewrite Hv. simpl.
  rewrite has_class_setAttribute, tokens_join.
  - now rewrite mem_remove_token, mem_dedupe.
  - apply Forall_filter_tokens, dedupe_are_tokens, tokens_are_tokens.
Qed.

End ClassListFacts.

(** ** The alert, from the call to its removal *)

Module AlertLifeFacts.
Import Dom Js Dashboard ClassList Timers DomFacts JsFacts AlertFacts ClassListFacts.
Local Open Scope js_scope.
Local Open Scope list_scope.

Lemma append_as_insert (x : node) l : append x l = insert_at (List.length l) x l.
Proof. unfold append, insert_at. now rewrite firstn_all, skipn_all. Qed.

Lemma modify_nth_ext_at g g' : forall l i,
  (forall x, nth_error l i = Some x -> g x = g' x) ->
  modify_nth i g l = modify_nth i g' l.
Proof.
  induction l as [|y l IH]; intros [|i] H; simpl; auto.
  - now rewrite (H y eq_refl).
  - now rewrite (IH i H).
Qed.

Lemma update_ext_at g g' : forall c n m,
  get c n = Some m -> g m = g' m -> update c g n = update c g' n.
Proof.
  induction c as [|j c IH]; intros n m Hget E; simpl in *.
  - now injection Hget as ->.
  - destruct (nth_error (kids_of n) j) as [ch|] eqn:Ej; [|discriminate].
    destruct n as [| |t a k]; simpl in *; auto. f_equal.
    apply modify_nth_ext_at. intros x Hx. rewrite Ej in Hx. injection Hx as <-.
    eapply IH; eauto.
Qed.

(** The call case by case, through [alert_place]. *)
Lemma showAlert_shape ty msg st :
  match alert_place (doc st) with
  | Some a =>
      exists c i t at' k,
        a = c ++ [i] /\ c <> [] /\
        get c (prune marker (doc st)) = Some (Elem t at' k) /\
        i <= List.length k /\
        showAlert ty msg st
        = setTimeout 5000
            (set_doc (update c (on_kids (insert_at i (alertDiv ty msg)))
                        (prune marker (doc st))) st)
  | None =>
      (Dom.querySelector [] container_sel (prune marker (doc st)) = None /\
       showAlert ty msg st = (Throw TypeError, set_doc (prune marker (doc st)) st)) \/
      (exists c a,
         Dom.querySelector [] container_sel (prune marker (doc st)) = Some c /\
         Dom.querySelector c anchor_sel (prune marker (doc st)) = Some a /\
         child_index c a = None /\
         showAlert ty msg st = (Throw NotFoundError, set_doc (prune marker (doc st)) st))
  end.
Proof.
  rewrite showAlert_run. unfold alert_place. cbv zeta.
  destruct (Dom.querySelector [] container_sel (prune marker (doc st))) as [c|] eqn:Ec;
    [|left; auto].
  destruct (querySelector_get _ _ _ _ Ec) as (t & at' & k & Hget & _).
  pose proof (querySelector_nonempty _ _ _ Ec) as Hc.
  destruct (Dom.querySelector c anchor_sel (prune marker (doc st))) as [a|] eqn:Ea.
  - destruct (child_index c a) as [i|] eqn:Ei.
    + apply querySelector_some in Ea. destruct Ea as (n & q & Hn & Hq & ->).
      pose proof (child_index_app _ _ _ Ei) as ->.
      rewrite Hget in Hn. injection Hn as <-.
      unfold query in Hq. apply find_list_some in Hq.
      destruct Hq as (i' & q' & c' & E & Hnth & _). injection E as <- <-.
      exists c, i, t, at', k. repeat split; auto.
      apply Nat.lt_le_incl. apply nth_error_Some. simpl in Hnth. congruence.
    + right. exists c, a. auto.
  - rewrite Hget. simpl. exists c, (List.length k), t, at', k.
    repeat split; auto.
    rewrite (update_ext_at (on_kids (append (alertDiv ty msg)))
               (on_kids (insert_at (List.length k) (alertDiv ty msg)))
               c _ _ Hget); [reflexivity|].
    simpl. now rewrite append_as_insert.
Qed.

(** *** Removing a node *)

Lemma remove_nth_insert_at (x : node) : forall l i,
  i <= List.length l -> remove_nth i (insert_at i x l) = l.
Proof.
  unfold insert_at. induction l as [|y l IH]; intros [|i] H; simpl in *; auto; try lia.
  f_equal. apply IH. lia.
Qed.


Lemma modify_nth_id g : forall l i,
  (forall x, nth_error l i = Some x -> g x = x) -> modify_nth i g l = l.
Proof.
  induction l as [|y l IH]; intros [|i] H; simpl; auto.
  - now rewrite (H y eq_refl).
  - rewrite IH; auto.
Qed.


Lemma detach_snoc j c i n :
  detach (j :: (c ++ [i])) n = on_kids (modify_nth j (detach (c ++ [i]))) n.
Proof. destruct c; reflexivity. Qed.

(** Taking out what was put in gives the document back. *)
Lemma detach_insert x i t a k : forall c n,
  get c n = Some (Elem t a k) -> i <= List.length k ->
  detach (c ++ [i]) (update c (on_kids (insert_at i x)) n) = n.
Proof.
  induction c as [|j c IH]; intros n Hget Hi.
  - simpl in Hget. injection Hget as ->. simpl.
    now rewrite remove_nth_insert_at.
  - simpl in Hget.
    destruct (nth_error (kids_of n) j) as [ch|] eqn:Ej; [|discriminate].
    destruct n as [| |tn an kn]; simpl in Ej; try (destruct j; discriminate).
    change ((j :: c) ++ [i]) with (j :: (c ++ [i])).
    rewrite detach_snoc. cbn [update on_kids]. rewrite modify_nth_compose. f_equal.
    apply modify_nth_id. intros y Hy. rewrite Ej in Hy. injection Hy as <-.
    now apply IH.
Qed.


(** *** Removal of alerts after an insertion *)

Lemma list_sum_zero (h : node -> nat) l :
  list_sum (map h l) = 0 -> Forall (fun x => h x = 0) l.
Proof.
  induction l as [|x l IH]; simpl; intros H; constructor; [lia|apply IH; lia].
Qed.

Lemma filter_map_same (F : node -> option node) l :
  Forall (fun x => F x = Some x) l -> filter_map F l = l.
Proof.
  induction 1 as [|x l Hx Hl IH]; simpl; auto. now rewrite Hx, IH.
Qed.

Lemma filter_map_app (F : node -> option node) l1 l2 :
  filter_map F (l1 ++ l2) = filter_map F l1 ++ filter_map F l2.
Proof.
  induction l1 as [|x l1 IH]; simpl; auto. destruct (F x); simpl; now rewrite IH.
Qed.

(** Removal leaves a subtree without match as it is. *)
Lemma prune_node_clean sel : forall n,
  count_node sel n = 0 -> prune_node sel n = Some n.
Proof.
  induction n as [s|h|t a k IH] using node_ind; simpl; auto.
  intros H. destruct (matches sel t a); [lia|]. simpl in H.
  do 2 f_equal. apply filter_map_same. apply list_sum_zero in H.
  rewrite Forall_forall in *. intros x Hx. apply IH; auto.
Qed.

Lemma filter_map_insert_at sel x i l :
  Forall (fun y => count_node sel y = 0) l ->
  node_matches sel x = true ->
  filter_map (prune_node sel) (insert_at i x l) = l.
Proof.
  intros Hl Hx. unfold insert_at. rewrite filter_map_app. simpl.
  assert (Ex : prune_node sel x = None).
  { destruct x as [| |t a k]; simpl in *; try discriminate. now rewrite Hx. }
  rewrite Ex. rewrite <- filter_map_app, firstn_skipn.
  apply filter_map_same. rewrite Forall_forall in *.
  intros y Hy. apply prune_node_clean. auto.
Qed.

Lemma filter_map_modify_nth (F : node -> option node) g : forall l i,
  Forall (fun y => F y = Some y) l ->
  (forall y, nth_error l i = Some y -> F (g y) = Some y) ->
  filter_map F (modify_nth i g l) = l.
Proof.
  induction l as [|y l IH]; intros [|i] Hl Hg; simpl; auto;
    inversion Hl; subst.
  - rewrite (Hg y eq_refl). f_equal. now apply filter_map_same.
  - rewrite H1. f_equal. apply IH; auto.
Qed.

(** Removal undoes the insertion of an element that matches into a subtree
    without match. *)
Lemma prune_node_insert sel x i t a k :
  node_matches sel x = true ->
  forall c n,
    count_node sel n = 0 -> get c n = Some (Elem t a k) ->
    prune_node sel (update c (on_kids (insert_at i x)) n) = Some n.
Proof.
  intros Hx. induction c as [|j c IH]; intros n Hn Hget.
  - simpl in Hget. injection Hget as ->. simpl in *.
    destruct (matches sel t a); [lia|]. simpl in Hn.
    do 2 f_equal. apply filter_map_insert_at; auto. now apply list_sum_zero.
  - simpl in Hget.
    destruct (nth_error (kids_of n) j) as [ch|] eqn:Ej; [|discriminate].
    destruct n as [| |tn an kn]; simpl in Ej; try (destruct j; discriminate).
    simpl in *. destruct (matches sel tn an); [lia|]. simpl in Hn.
    apply list_sum_zero in Hn. do 2 f_equal.
    apply filter_map_modify_nth.
    + rewrite Forall_forall in *. intros y Hy. apply prune_node_clean. auto.
    + intros y Hy. rewrite Ej in Hy. injection Hy as <-. apply IH; auto.
      rewrite Forall_forall in Hn. apply Hn. eapply nth_error_In; eauto.
Qed.

Lemma prune_insert sel x i t a k c root :
  node_matches sel x = true ->
  count sel root = 0 -> c <> [] -> get c root = Some (Elem t a k) ->
  prune sel (update c (on_kids (insert_at i x)) root) = root.
Proof.
  intros Hx Hroot Hc Hget. destruct c as [|j c]; [contradiction|].
  simpl in Hget.
  destruct (nth_error (kids_of root) j) as [ch|] eqn:Ej; [|discriminate].
  destruct root as [| |tn an kn]; simpl in Ej; try (destruct j; discriminate).
  unfold prune, count in *. simpl in *. f_equal.
  apply list_sum_zero in Hroot.
  apply filter_map_modify_nth.
  - rewrite Forall_forall in *. intros y Hy. apply prune_node_clean. auto.
  - intros y Hy. rewrite Ej in Hy. injection Hy as <-.
    eapply prune_node_insert; eauto.
    rewrite Forall_forall in Hroot. apply Hroot. eapply nth_error_In; eauto.
Qed.

(** Removing twice is removing once. *)
Lemma prune_idem sel root : prune sel (prune sel root) = prune sel root.
Proof.
  pose proof (count_prune sel root) as H. unfold count in H.
  destruct (prune sel root) as [| |t a k] eqn:E; auto.
  unfold prune. simpl in *. f_equal. apply filter_map_same.
  apply list_sum_zero in H. rewrite Forall_forall in *.
  intros x Hx. apply prune_node_clean. auto.
Qed.

Lemma alert_place_prune d : alert_place (prune marker d) = alert_place d.
Proof. unfold alert_place. now rewrite prune_idem. Qed.

Lemma alert_class_marker ty :
  mem "ajax-alert"
    (tokens ("alert alert-" ++ ty ++ " alert-dismissible fade show ajax-alert")%string)
  = true.
Proof.
  pose proof (alertDiv_marker ty "") as M.
  unfold alertDiv, marker, node_matches, matches in M.
  now rewrite has_class_head in M.
Qed.

(** After a call that returned, removing the alerts gives the document the
    call started from, without its alerts. *)
Lemma prune_after_showAlert ty msg st st' :
  showAlert ty msg st = (Ok tt, st') ->
  prune marker (doc st') = prune marker (doc st).
Proof.
  intros H. pose proof (showAlert_shape ty msg st) as S.
  destruct (alert_place (doc st)) as [a|].
  - destruct S as (c & i & t & at' & k & -> & Hc & Hget & Hi & E).
    rewrite E in H. unfold setTimeout, set_doc in H. injection H as <-. cbn [doc].
    eapply prune_insert; eauto.
    + apply alertDiv_marker.
    + apply count_prune.
  - destruct S as [[_ E]|(c & a & _ & _ & _ & E)]; rewrite E in H; discriminate.
Qed.

(** The call that returns, through [alert_place]. *)
Lemma showAlert_at_place ty msg st a :
  alert_place (doc st) = Some a ->
  exists st',
    showAlert ty msg st = (Ok tt, st') /\
    get a (doc st') = Some (alertDiv ty msg) /\
    detach a (doc st') = prune marker (doc st) /\
    timers st' = 5000%Z :: timers st /\
    btn st' = btn st /\ console st' = console st /\ requests st' = requests st.
Proof.
  intros Ha. pose proof (showAlert_shape ty msg st) as S. rewrite Ha in S.
  destruct S as (c & i & t & at' & k & -> & Hc & Hget & Hi & E).
  eexists. split; [exact E|]. cbn [setTimeout snd doc timers btn console requests set_doc].
  repeat split.
  - rewrite get_app, get_update_same, Hget. simpl.
    now rewrite nth_error_insert_at by exact Hi.
  - eapply detach_insert; eauto.
Qed.

End AlertLifeFacts.

(** ** Properties of [showAlert] and of its timers *)

Import Dom Js Dashboard Sample ClassList Timers MoreSamples.
Import DomFacts JsFacts AlertFacts ClassListFacts AlertLifeFacts.

(** X1: when [alert_place] gives a place [a], the call returns; the element
    it built is at [a]; the document without that element is the document
    of before without its alerts; one timer of 5000 is pending more, and
    nothing else of the page changes. *)
Theorem X1_showAlert_places_alert ty msg st a :
  alert_place (doc st) = Some a ->
  exists st',
    showAlert ty msg st = (Ok tt, st') /\
    get a (doc st') = Some (alertDiv ty msg) /\
    detach a (doc st') = prune marker (doc st) /\
    timers st' = 5000%Z :: timers st /\
    btn st' = btn st /\ console st' = console st /\ requests st' = requests st.
Proof.
  intros Ha. exact (showAlert_at_place ty msg st a Ha).
Qed.

Lemma X1_witness :
  alert_place (doc (page_of page_doc)) = Some [0; 0; 0; 0] /\
  exists st',
    showAlert "warning" "X" (page_of page_doc) = (Ok tt, st') /\
    get [0; 0; 0; 0] (doc st') = Some (alertDiv "warning" "X") /\
    detach [0; 0; 0; 0] (doc st') = prune marker (doc (page_of page_doc)) /\
    timers st' = 5000%Z :: timers (page_of page_doc) /\
    btn st' = btn (page_of page_doc) /\
    console st' = console (page_of page_doc) /\
    requests st' = requests (page_of page_doc).
Proof.
  assert (H : alert_place (doc (page_of page_doc)) = Some [0; 0; 0; 0])
    by (vm_compute; reflexivity).
  split; [exact H|].
  exact (X1_showAlert_places_alert "warning" "X" (page_of page_doc) _ H).
Defined.

(** X2: when [alert_place] gives no place, the call throws after it has
    removed the alerts there were and before it schedules a timer: a
    TypeError exactly when no [main.container] is left, a NotFoundError
    when the first [.d-flex] element inside the container is not one of its
    children. *)
Theorem X2_showAlert_failures ty msg st :
  alert_place (doc st) = None ->
  exists e,
    showAlert ty msg st = (Throw e, set_doc (prune marker (doc st)) st) /\
    count marker (prune marker (doc st)) = 0 /\
    (Dom.querySelector [] container_sel (prune marker (doc st)) = None ->
     e = TypeError) /\
    (forall c, Dom.querySelector [] container_sel (prune marker (doc st)) = Some c ->
               e = NotFoundError /\
               exists anchor,
                 Dom.querySelector c anchor_sel (prune marker (doc st)) = Some anchor /\
                 child_index c anchor = None).
Proof.
  intros Ha. pose proof (showAlert_shape ty msg st) as S. rewrite Ha in S.
  destruct S as [[Hc E]|(c & a & Hc & Hanchor & Hi & E)].
  - exists TypeError. split; [exact E|]. split; [apply count_prune|].
    split; [reflexivity|]. intros c Hc'. congruence.
  - exists NotFoundError. split; [exact E|]. split; [apply count_prune|].
    split; [intros Hc'; congruence|].
    intros c' Hc'. rewrite Hc in Hc'. injection Hc' as <-.
    split; [reflexivity|]. exists a. auto.
Qed.

Lemma X2_witness :
  alert_place (doc (page_of deep_anchor_doc)) = None /\
  showAlert "danger" "X" (page_of deep_anchor_doc)
  = (Throw NotFoundError,
     set_doc (prune marker (doc (page_of deep_anchor_doc))) (page_of deep_anchor_doc)).
Proof.
  assert (H : alert_place (doc (page_of deep_anchor_doc)) = None)
    by (vm_compute; reflexivity).
  split; [exact H|].
  destruct (X2_showAlert_failures "danger" "X" (page_of deep_anchor_doc) H)
    as (e & E & _ & _ & Hn).
  destruct (Hn [0; 0; 0] ltac:(vm_compute; reflexivity)) as [-> _].
  exact E.
Defined.

(** X3: a second alert replaces the first.  After a call that returned,
    any further call has the outcome and leaves the document it would have
    had and left without the first call. *)
Theorem X3_second_alert_replaces_first ty1 msg1 st st1 ty2 msg2 :
  showAlert ty1 msg1 st = (Ok tt, st1) ->
  fst (showAlert ty2 msg2 st1) = fst (showAlert ty2 msg2 st) /\
  doc (snd (showAlert ty2 msg2 st1)) = doc (snd (showAlert ty2 msg2 st)).
Proof.
  intros H. rewrite !showAlert_run. cbv zeta.
  rewrite (prune_after_showAlert _ _ _ _ H).
  destruct (Dom.querySelector [] container_sel (prune marker (doc st))) as [c|];
    [|split; reflexivity].
  destruct (Dom.querySelector c anchor_sel (prune marker (doc st))) as [a|];
    [|split; reflexivity].
  destruct (child_index c a); split; reflexivity.
Qed.

Lemma X3_witness :
  showAlert "warning" "old" (page_of page_doc)
  = (Ok tt, snd (showAlert "warning" "old" (page_of page_doc))) /\
  doc (snd (showAlert "danger" "new" (snd (showAlert "warning" "old" (page_of page_doc)))))
  = doc (snd (showAlert "danger" "new" (page_of page_doc))).
Proof.
  assert (H : showAlert "warning" "old" (page_of page_doc)
              = (Ok tt, snd (showAlert "warning" "old" (page_of page_doc))))
    by (vm_compute; reflexivity).
  split; [exact H|].
  exact (proj2 (X3_second_alert_replaces_first _ _ _ _ "danger" "new" H)).
Defined.

(** X4: when the first timer fires on an alert that is still displayed,
    the alert loses the class "show" and keeps every other class it had,
    the marker class among them: it is still the one alert of the
    document; and a timer of 150 is scheduled. *)
Theorem X4_first_timer ty msg st a :
  alert_place (doc st) = Some a ->
  exists st1 st2 v,
    showAlert ty msg st = (Ok tt, st1) /\
    on_timeout (Some a) st1 = (Ok tt, st2) /\
    class_at a (doc st2) = Some v /\
    (forall c, mem c (tokens v)
               = mem c (tokens ("alert alert-" ++ ty
                                ++ " alert-dismissible fade show ajax-alert"))
                 && negb (String.eqb "show" c)) /\
    mem "ajax-alert" (tokens v) = true /\
    count marker (doc st2) = 1 /\
    timers st2 = 150%Z :: timers st1.
Proof.
  intros Ha.
  destruct (showAlert_at_place ty msg st a Ha)
    as (st1 & E & Hget & _ & _).
  destruct (showAlert_ok _ _ _ _ E) as [Hcount _].
  set (cls := "alert alert-" ++ ty ++ " alert-dismissible fade show ajax-alert").
  set (v := join (remove_token "show" (dedupe (tokens cls)))).
  assert (Hv : forall c, mem c (tokens v)
                         = mem c (tokens cls) && negb (String.eqb "show" c)).
  { intros c. unfold v. rewrite tokens_join.
    - now rewrite mem_remove_token, mem_dedupe.
    - apply Forall_filter_tokens, dedupe_are_tokens, tokens_are_tokens. }
  assert (Hmk : mem "ajax-alert" (tokens v) = true).
  { rewrite Hv. unfold cls. now rewrite (alert_class_marker ty). }
  assert (Hw : without_class "show" (alertDiv ty msg)
               = Elem "div" [("class", v); ("role", "alert")]
                   (kids_of (alertDiv ty msg))) by reflexivity.
  assert (Hg : get a (update a (without_class "show") (doc st1))
               = Some (Elem "div" [("class", v); ("role", "alert")]
                         (kids_of (alertDiv ty msg)))).
  { now rewrite get_update_same, Hget, <- Hw. }
  exists st1. eexists. exists v. split; [exact E|]. split; [reflexivity|].
  cbn [snd doc timers set_doc setTimeout].
  split; [unfold class_at; now rewrite Hg|].
  split; [exact Hv|]. split; [exact Hmk|]. split; [|reflexivity].
  destruct a as [|i a].
  - pose proof (showAlert_shape ty msg st) as S. rewrite Ha in S.
    destruct S as (c & j & _ & _ & _ & Hnil & _). destruct c; discriminate.
  - pose proof (count_update marker (without_class "show") i a _ _ Hget) as C.
    rewrite Hw, count_alertDiv in C.
    assert (Hone : count_node marker
                     (Elem "div" [("class", v); ("role", "alert")]
                        (kids_of (alertDiv ty msg))) = 1).
    { rewrite count_node_unfold. unfold marker, node_matches, matches.
      rewrite has_class_head, Hmk. reflexivity. }
    rewrite Hone in C. lia.
Qed.

Lemma X4_witness :
  alert_place (doc (page_of page_doc)) = Some [0; 0; 0; 0] /\
  exists st1 st2 v,
    showAlert "warning" "X" (page_of page_doc) = (Ok tt, st1) /\
    on_timeout (Some [0; 0; 0; 0]) st1 = (Ok tt, st2) /\
    class_at [0; 0; 0; 0] (doc st2) = Some v /\
    mem "ajax-alert" (tokens v) = true /\
    count marker (doc st2) = 1.
Proof.
  assert (H : alert_place (doc (page_of page_doc)) = Some [0; 0; 0; 0])
    by (vm_compute; reflexivity).
  split; [exact H|].
  destruct (X4_first_timer "warning" "X" (page_of page_doc) _ H)
    as (st1 & st2 & v & E1 & E2 & Hv & _ & Hm & Hc & _).
  exists st1, st2, v. auto.
Defined.



(** ** What the handler leaves alone *)

Module FrameFacts.
Import Dom Js Dashboard ClassList Timers.
Import DomFacts JsFacts AlertFacts HandlerFacts AlertLifeFacts.
Local Open Scope js_scope.
Local Open Scope list_scope.

Lemma bind_throw_inv {A B : Type} (m : js A) (k : A -> js B) st e st' :
  bind m k st = (Throw e, st') ->
  m st = (Throw e, st') \/ exists a st1, m st = (Ok a, st1) /\ k a st1 = (Throw e, st').
Proof.
  unfold bind. destruct (m st) as [[a|e1] st1]; intros H.
  - right. eauto.
  - left. now inversion H.
Qed.

Lemma unchanged_ret {X A : Type} (f : page -> X) (a : A) : unchanged f (ret a).
Proof. intros st r st' H. now inversion H. Qed.

Lemma unchanged_throw {X A : Type} (f : page -> X) e : unchanged f (@throw A e).
Proof. intros st r st' H. now inversion H. Qed.

Lemma unchanged_bind {X A B : Type} (f : page -> X) (m : js A) (k : A -> js B) :
  unchanged f m -> (forall a, unchanged f (k a)) -> unchanged f (bind m k).
Proof.
  intros Hm Hk st r st' H. unfold bind in H.
  destruct (m st) as [[a|e] st1] eqn:E.
  - rewrite (Hk a _ _ _ H). eapply Hm; eauto.
  - inversion H; subst. eapply Hm; eauto.
Qed.

Lemma unchanged_catch {X A : Type} (f : page -> X) (m : js A) (h : exn -> js A) :
  unchanged f m -> (forall e, unchanged f (h e)) -> unchanged f (catch m h).
Proof.
  intros Hm Hh st r st' H. unfold catch in H.
  destruct (m st) as [[a|e] st1] eqn:E.
  - inversion H; subst. eapply Hm; eauto.
  - rewrite (Hh e _ _ _ H). eapply Hm; eauto.
Qed.

Lemma unchanged_forEach {X A : Type} (f : page -> X) (g : A -> js unit) :
  (forall x, unchanged f (g x)) -> forall l, unchanged f (forEach l g).
Proof.
  intros Hg. induction l as [|x l IH]; simpl.
  - apply unchanged_ret.
  - apply unchanged_bind; auto.
Qed.

(** A primitive that does not write the component. *)
Ltac primitive :=
  let H := fresh "H" in
  intros ? ? ? H;
  unfold Js.querySelector, querySelector_of, assign_textContent, assign_className,
    remove_all, insertBefore, setTimeout, console_error, fetch, set_disabled,
    set_innerHTML, modify_doc, throw, ret, Js.querySelector in H;
  repeat match type of H with
         | context [match ?x with _ => _ end] => destruct x
         end;
  inversion H; reflexivity.

Ltac leaves :=
  repeat first
    [ apply unchanged_bind; [|intros ?]
    | apply unchanged_ret
    | apply unchanged_throw
    | solve [primitive]
    | match goal with
      | |- unchanged _ (match ?x with _ => _ end) => destruct x
      | |- unchanged _ (if ?x then _ else _) => destruct x
      end ].

Section Components.
Context {X : Type} (f : page -> X).

(** [f] reads the page but not its document. *)
Hypothesis f_doc : forall d st, f (set_doc d st) = f st.

Lemma unchanged_querySelector scope sel : unchanged f (Js.querySelector scope sel).
Proof. intros st r st' H. now inversion H. Qed.

Lemma unchanged_textContent tgt s : unchanged f (assign_textContent tgt s).
Proof.
  intros st r st' H. destruct tgt; simpl in H; inversion H; auto.
Qed.

Lemma unchanged_className tgt s : unchanged f (assign_className tgt s).
Proof.
  intros st r st' H. destruct tgt; simpl in H; inversion H; auto.
Qed.

Lemma unchanged_update_totals t : unchanged f (update_totals t).
Proof.
  unfold update_totals, getElementById. cbv zeta.
  repeat first
    [ apply unchanged_bind; [|intros ?]
    | apply unchanged_querySelector
    | apply unchanged_textContent
    | apply unchanged_className ].
Qed.

Lemma unchanged_update_row p : unchanged f (update_row p).
Proof.
  unfold update_row.
  apply unchanged_bind; [apply unchanged_querySelector|intros [row|]];
    [|apply unchanged_ret].
  cbv zeta.
  repeat first
    [ apply unchanged_bind; [|intros ?]
    | apply unchanged_querySelector
    | apply unchanged_textContent
    | apply unchanged_className ].
Qed.

(** The numeric updates: lines 15-41. *)
Lemma unchanged_numbers data :
  unchanged f (bind (update_totals (totals data))
                 (fun _ => forEach (portfolios data) update_row)).
Proof.
  apply unchanged_bind; [apply unchanged_update_totals|intros _].
  apply unchanged_forEach. apply unchanged_update_row.
Qed.

End Components.

Lemma unchanged_showAlert_btn ty msg : unchanged btn (showAlert ty msg).
Proof. unfold showAlert. leaves. Qed.

Lemma unchanged_showAlert_console ty msg : unchanged console (showAlert ty msg).
Proof. unfold showAlert. leaves. Qed.

Lemma unchanged_showAlert_requests ty msg : unchanged requests (showAlert ty msg).
Proof. unfold showAlert. leaves. Qed.

Lemma restore_button_ok st : exists st', restore_button st = (Ok tt, st').
Proof. eexists. reflexivity. Qed.

(** When the [then] callback throws, it has not touched the control. *)
Lemma on_data_throw_btn data st e st' :
  on_data data st = (Throw e, st') -> btn st' = btn st.
Proof.
  unfold on_data. intros H.
  apply bind_throw_inv in H. destruct H as [H|(a1 & s1 & H1 & H)].
  { destruct (truthy (error data)).
    - eapply unchanged_showAlert_btn; eauto.
    - inversion H. }
  assert (E1 : btn s1 = btn st).
  { destruct (truthy (error data)).
    - eapply unchanged_showAlert_btn; eauto.
    - now inversion H1. }
  apply bind_throw_inv in H. destruct H as [H|(a2 & s2 & H2 & H)].
  { rewrite <- E1.
    eapply (unchanged_update_totals btn (fun _ _ => eq_refl)); eauto. }
  assert (E2 : btn s2 = btn s1).
  { eapply (unchanged_update_totals btn (fun _ _ => eq_refl)); eauto. }
  apply bind_throw_inv in H. destruct H as [H|(a3 & s3 & H3 & H)].
  { rewrite <- E1, <- E2.
    eapply (unchanged_forEach btn); [|exact H].
    intros x. apply unchanged_update_row. reflexivity. }
  discriminate.
Qed.

End FrameFacts.

(** ** More on what the handler writes *)

Module WriteFacts.
Import Dom Js Dashboard ClassList Timers.
Import DomFacts JsFacts AlertFacts HandlerFacts AlertLifeFacts FrameFacts.
Local Open Scope js_scope.
Local Open Scope list_scope.

(** *** No alert appears *)

Lemma on_kids_id n : on_kids (fun k => k) n = n.
Proof. now destruct n. Qed.

Lemma update_nowhere g : forall p n, get p n = None -> update p g n = n.
Proof.
  induction p as [|i p IH]; intros n H; simpl in *; [discriminate|].
  destruct n as [| |t a k]; simpl in *; auto. f_equal.
  apply modify_nth_id. intros x Hx. rewrite Hx in H. now apply IH.
Qed.

Lemma count_update_le sel g :
  (forall m, count_node sel (g m) <= count_node sel m) ->
  (forall m, count sel (g m) <= count sel m) ->
  forall p n, count sel (update p g n) <= count sel n.
Proof.
  intros Hnode Hroot [|i p] n; [apply Hroot|].
  destruct (get (i :: p) n) as [m|] eqn:E.
  - pose proof (count_update sel g i p n m E). specialize (Hnode m). lia.
  - now rewrite update_nowhere.
Qed.

Lemma count_with_text sel s p n : count sel (update p (with_text s) n) <= count sel n.
Proof.
  apply count_update_le.
  - intros [| |t a k]; simpl; auto. destruct (String.eqb s ""); simpl; lia.
  - intros [| |t a k]; unfold count; simpl; auto.
    destruct (String.eqb s ""); simpl; lia.
Qed.

Lemma count_with_class c v p n :
  mem c (tokens v) = false ->
  count (ByClass c) (update p (with_class v) n) <= count (ByClass c) n.
Proof.
  intros H. apply count_update_le.
  - intros [| |t a k]; simpl; auto. rewrite has_class_setAttribute, H. lia.
  - intros [| |t a k]; unfold count; simpl; auto.
Qed.

Lemma adds_none_ret sel {A : Type} (a : A) : adds_none sel (ret a).
Proof. intros st r st' H. inversion H; subst. auto. Qed.

Lemma adds_none_bind sel {A B : Type} (m : js A) (k : A -> js B) :
  adds_none sel m -> (forall a, adds_none sel (k a)) -> adds_none sel (bind m k).
Proof.
  intros Hm Hk st r st' H. unfold bind in H.
  destruct (m st) as [[a|e] st1] eqn:E.
  - specialize (Hk a _ _ _ H). specialize (Hm _ _ _ E). lia.
  - inversion H; subst. eapply Hm; eauto.
Qed.

Lemma adds_none_forEach sel {A : Type} (g : A -> js unit) :
  (forall x, adds_none sel (g x)) -> forall l, adds_none sel (forEach l g).
Proof.
  intros Hg. induction l as [|x l IH]; simpl.
  - apply adds_none_ret.
  - apply adds_none_bind; auto.
Qed.

Lemma adds_none_querySelector sel scope sel' :
  adds_none sel (Js.querySelector scope sel').
Proof. intros st r st' H. inversion H; subst. auto. Qed.

Lemma adds_none_textContent sel tgt s : adds_none sel (assign_textContent tgt s).
Proof.
  intros st r st' H. destruct tgt; simpl in H; inversion H; subst; auto.
  apply count_with_text.
Qed.

Lemma adds_none_className c tgt v :
  mem c (tokens v) = false -> adds_none (ByClass c) (assign_className tgt v).
Proof.
  intros Hv st r st' H. destruct tgt; simpl in H; inversion H; subst; auto.
  now apply count_with_class.
Qed.

Lemma adds_none_update_totals t : adds_none marker (update_totals t).
Proof.
  unfold update_totals, getElementById. cbv zeta.
  repeat first
    [ apply adds_none_bind; [|intros ?]
    | apply adds_none_querySelector
    | apply adds_none_textContent ].
  apply adds_none_className.
  destruct (Number.ge (total_profit_loss t) Number.zero); reflexivity.
Qed.

Lemma adds_none_update_row p : adds_none marker (update_row p).
Proof.
  unfold update_row.
  apply adds_none_bind; [apply adds_none_querySelector|intros [row|]];
    [|apply adds_none_ret].
  cbv zeta.
  repeat first
    [ apply adds_none_bind; [|intros ?]
    | apply adds_none_querySelector
    | apply adds_none_textContent
    | apply adds_none_className;
      destruct (Number.ge (profit_loss p) Number.zero); reflexivity ].
Qed.

(** *** Writes stay inside the row *)

Lemma prefixb_app_left r x q : prefixb (r ++ x) q = true -> prefixb r q = true.
Proof.
  revert q. induction r as [|i r IH]; intros q H; simpl in *; auto.
  destruct q as [|j q]; [discriminate|].
  apply andb_true_iff in H. destruct H as [E H]. rewrite E. simpl. now apply IH.
Qed.

Lemma prefixb_trans_app q r x : prefixb q r = true -> prefixb q (r ++ x) = true.
Proof.
  revert r. induction q as [|i q IH]; intros r H; simpl in *; auto.
  destruct r as [|j r]; [discriminate|]. simpl.
  apply andb_true_iff in H. destruct H as [E H]. rewrite E. simpl. now apply IH.
Qed.

(** What is apart from a node is apart from all that is inside it. *)
Lemma apart_inside r x q : apart r q = true -> apart (r ++ x) q = true.
Proof.
  unfold apart. intros H. apply andb_true_iff in H. destruct H as [H1 H2].
  apply negb_true_iff in H1, H2. apply andb_true_iff. split; apply negb_true_iff.
  - destruct (prefixb (r ++ x) q) eqn:E; auto.
    apply prefixb_app_left in E. congruence.
  - destruct (prefixb q (r ++ x)) eqn:E; auto.
    revert r H1 H2 E. induction q as [|i q IH]; intros r H1 H2 E.
    + discriminate.
    + destruct r as [|j r]; [discriminate|]. simpl in *.
      destruct (Nat.eqb i j) eqn:Eij; [|discriminate]. simpl in *.
      rewrite Nat.eqb_sym, Eij in H1. simpl in H1. eauto.
Qed.

Lemma writes_under_ret r {A : Type} (a : A) : writes_under r (ret a).
Proof. intros st res st' q H. inversion H; subst. auto. Qed.

Lemma writes_under_throw r {A : Type} e : writes_under r (@throw A e).
Proof. intros st res st' q H. inversion H; subst. auto. Qed.

Lemma writes_under_bind r {A B : Type} (m : js A) (k : A -> js B) :
  writes_under r m -> (forall a, writes_under r (k a)) -> writes_under r (bind m k).
Proof.
  intros Hm Hk st res st' q H Hq. unfold bind in H.
  destruct (m st) as [[a|e] st1] eqn:E.
  - rewrite (Hk a _ _ _ _ H Hq). eapply Hm; eauto.
  - inversion H; subst. eapply Hm; eauto.
Qed.

(** A reference found below [r], then a computation that writes below
    [r] if its reference is. *)
Lemma writes_under_query r {B : Type} sel (k : option path -> js B) :
  (forall x, writes_under r (k (Some (r ++ x)))) ->
  writes_under r (k None) ->
  writes_under r (bind (Js.querySelector r sel) k).
Proof.
  intros Hsome Hnone st res st' q H Hq. unfold bind, Js.querySelector in H.
  destruct (Dom.querySelector r sel (doc st)) as [c|] eqn:E.
  - apply querySelector_some in E. destruct E as (n & x & _ & _ & ->).
    eapply Hsome; eauto.
  - eapply Hnone; eauto.
Qed.

Lemma writes_under_textContent r x s :
  writes_under r (assign_textContent (Some (r ++ x)) s).
Proof.
  intros st res st' q H Hq. simpl in H. inversion H; subst. simpl.
  apply get_update_apart. now apply apart_inside.
Qed.

Lemma writes_under_className r x s :
  writes_under r (assign_className (Some (r ++ x)) s).
Proof.
  intros st res st' q H Hq. simpl in H. inversion H; subst. simpl.
  apply get_update_apart. now apply apart_inside.
Qed.

Ltac under_row :=
  repeat first
    [ apply writes_under_query; [intros ?|]
    | apply writes_under_bind; [|intros ?]
    | apply writes_under_textContent
    | apply writes_under_className
    | apply writes_under_throw
    | apply writes_under_ret ].

(** The body of [update_row] once the row is found. *)
Lemma update_row_found p st row :
  Dom.querySelector [] (row_sel p) (doc st) = Some row ->
  exists body : js unit,
    writes_under row body /\ update_row p st = body st.
Proof.
  intros Hrow. eexists. split.
  2:{ unfold update_row. rewrite (bind_ok _ _ _ (Some row) st)
        by (unfold Js.querySelector; now rewrite Hrow).
      reflexivity. }
  cbv zeta. under_row.
  all: try (simpl; apply writes_under_throw).
  all: under_row.
Qed.

End WriteFacts.

(** ** Properties of the click handler *)

Import FrameFacts WriteFacts HandlerFacts.

(** X6: the failure path on a page where the alert has a place.  The
    activation ends without exception; the error is logged; the danger
    alert with the fixed message is the one alert of the document, at its
    place, and the rest of the document is as before without its old
    alerts; the control is enabled with its label; one timer and one request
    have been added. *)
Theorem X6_failure_path e st a :
  alert_place (doc st) = Some a ->
  exists st',
    activation (Rejected e) st = (Ok tt, st') /\
    btn st' = {| disabled := false; innerHTML := refresh_label;
                 dataset_url := dataset_url (btn st) |} /\
    console st' = ("Error:", e) :: console st /\
    get a (doc st') = Some (alertDiv "danger" failure_message) /\
    detach a (doc st') = prune marker (doc st) /\
    count marker (doc st') = 1 /\
    timers st' = 5000%Z :: timers st /\
    requests st' = dataset_url (btn st) :: requests st.
Proof.
  intros Ha.
  set (st1 := snd (console_error "Error:" e (snd (on_click st)))).
  assert (Hd : doc st1 = doc st) by reflexivity.
  assert (Ha1 : alert_place (doc st1) = Some a) by now rewrite Hd.
  destruct (showAlert_at_place "danger" failure_message st1 a Ha1)
    as (st2 & E & Hget & Hdet & Ht & Hb & Hc & Hr).
  destruct (showAlert_ok _ _ _ _ E) as [Hcount _].
  exists (snd (restore_button st2)). split.
  - unfold activation, on_settled, catch, on_error.
    unfold bind at 1. change (on_click st) with (Ok tt, snd (on_click st)).
    cbv beta iota. unfold throw.
    unfold bind at 1. change (console_error "Error:" e (snd (on_click st)))
      with (Ok tt, st1). cbv beta iota.
    unfold bind at 1. rewrite E. reflexivity.
  - cbn [restore_button snd btn doc console timers requests set_btn bind
           set_disabled set_innerHTML disabled innerHTML dataset_url].
    rewrite Hb, Hc, Hr, Ht, Hdet, Hd. repeat split; auto.
Qed.

Lemma X6_witness :
  alert_place (doc (page_of page_doc)) = Some [0; 0; 0; 0] /\
  exists st',
    activation (Rejected NetworkError) (page_of page_doc) = (Ok tt, st') /\
    btn st' = {| disabled := false; innerHTML := refresh_label;
                 dataset_url := dataset_url (btn (page_of page_doc)) |} /\
    console st' = [("Error:", NetworkError)] /\
    count marker (doc st') = 1.
Proof.
  assert (H : alert_place (doc (page_of page_doc)) = Some [0; 0; 0; 0])
    by (vm_compute; reflexivity).
  split; [exact H|].
  destruct (X6_failure_path NetworkError (page_of page_doc) _ H)
    as (st' & E & Hb & Hc & _ & _ & Hn & _).
  exists st'. auto.
Defined.

(** X7: on a page without the region [#totalInvested], a decoded response
    without error message is handled exactly as a failed request is, with
    a TypeError for error: nothing of the payload is displayed. *)
Theorem X7_missing_region_is_failure data st :
  Dom.querySelector [] (ById "totalInvested") (doc st) = None ->
  truthy (error data) = false ->
  activation (Resolved data) st = activation (Rejected TypeError) st.
Proof.
  intros Hq Ht. unfold activation. apply bind_ext_after. intros u st1 E.
  assert (Hd : doc st1 = doc st).
  { unfold on_click in E. inversion E. reflexivity. }
  unfold on_settled, catch.
  assert (Hthrow : on_data data st1 = (Throw TypeError, st1)).
  { unfold on_data. rewrite Ht.
    unfold update_totals, getElementById, bind, Js.querySelector, ret.
    rewrite Hd, Hq. reflexivity. }
  rewrite Hthrow. reflexivity.
Qed.

Lemma X7_witness :
  Dom.querySelector [] (ById "totalInvested") (doc (page_of no_invested_doc)) = None /\
  truthy (error (payload None [loss_entry])) = false /\
  activation (Resolved (payload None [loss_entry])) (page_of no_invested_doc)
  = activation (Rejected TypeError) (page_of no_invested_doc).
Proof.
  assert (H : Dom.querySelector [] (ById "totalInvested")
                (doc (page_of no_invested_doc)) = None)
    by (vm_compute; reflexivity).
  split; [exact H|]. split; [reflexivity|].
  exact (X7_missing_region_is_failure (payload None [loss_entry])
           (page_of no_invested_doc) H eq_refl).
Defined.

(** X8: an activation that ends with an uncaught exception ends in
    [showAlert] called by the [catch] callback: the exception is a
    TypeError or a NotFoundError, the first error has been logged, no alert
    is in the document, and the control is left disabled with its loading
    label. *)
Theorem X8_uncaught_end o st e st' :
  activation o st = (Throw e, st') ->
  (e = TypeError \/ e = NotFoundError) /\
  disabled (btn st') = true /\
  innerHTML (btn st') = spinner_label /\
  count marker (doc st') = 0 /\
  alert_place (doc st') = None /\
  exists e0 rest, console st' = ("Error:", e0) :: rest.
Proof.
  unfold activation. intros H.
  apply bind_throw_inv in H. destruct H as [H|(u & st0 & H0 & H)]; [discriminate|].
  assert (Hb0 : disabled (btn st0) = true /\ innerHTML (btn st0) = spinner_label).
  { unfold on_click in H0. inversion H0. split; reflexivity. }
  unfold on_settled, catch in H.
  assert (Herr : exists e1 st1, btn st1 = btn st0 /\ on_error e1 st1 = (Throw e, st')).
  { destruct o as [e1|data].
    - exists e1, st0. split; [reflexivity|exact H].
    - destruct (on_data data st0) as [[u1|e1] st1] eqn:E; [discriminate|].
      exists e1, st1. split; [|exact H]. eapply on_data_throw_btn; eauto. }
  destruct Herr as (e1 & st1 & Hb1 & Herr). unfold on_error in Herr.
  apply bind_throw_inv in Herr. destruct Herr as [Herr|(u2 & st2 & Hlog & Herr)];
    [discriminate|].
  unfold console_error in Hlog. injection Hlog as _ <-.
  apply bind_throw_inv in Herr. destruct Herr as [Herr|(u3 & st3 & Hs3 & Herr)];
    [|discriminate].
  pose proof (showAlert_shape "danger" failure_message
                {| btn := btn st1; doc := doc st1;
                   console := ("Error:", e1) :: console st1;
                   timers := timers st1; requests := requests st1 |}) as S.
  cbn [doc] in S.
  destruct (alert_place (doc st1)) as [a|] eqn:Ea.
  - destruct S as (c & i & t & at' & k & _ & _ & _ & _ & E).
    rewrite E in Herr. discriminate.
  - assert (Hst : st' = set_doc (prune marker (doc st1))
                          {| btn := btn st1; doc := doc st1;
                             console := ("Error:", e1) :: console st1;
                             timers := timers st1; requests := requests st1 |}
                  /\ (e = TypeError \/ e = NotFoundError)).
    { destruct S as [[_ E]|(c & a & _ & _ & _ & E)]; rewrite E in Herr;
        inversion Herr; auto. }
    destruct Hst as [-> He]. cbn [set_doc btn doc console].
    rewrite Hb1. destruct Hb0 as [Hd Hi].
    repeat split; auto.
    + apply count_prune.
    + now rewrite alert_place_prune.
    + eauto.
Qed.

Lemma X8_witness :
  activation (Rejected NetworkError) (page_of no_container_doc)
  = (Throw TypeError, snd (activation (Rejected NetworkError) (page_of no_container_doc))) /\
  disabled (btn (snd (activation (Rejected NetworkError) (page_of no_container_doc))))
  = true /\
  count marker (doc (snd (activation (Rejected NetworkError) (page_of no_container_doc))))
  = 0.
Proof.
  assert (H : activation (Rejected NetworkError) (page_of no_container_doc)
              = (Throw TypeError,
                 snd (activation (Rejected NetworkError) (page_of no_container_doc))))
    by (vm_compute; reflexivity).
  split; [exact H|].
  destruct (X8_uncaught_end _ _ _ _ H) as (_ & Hd & _ & Hc & _).
  split; assumption.
Defined.

(** The requests and the address of the control over an activation. *)
Lemma activation_requests o st :
  requests (snd (activation o st)) = dataset_url (btn st) :: requests st /\
  dataset_url (btn (snd (activation o st))) = dataset_url (btn st).
Proof.
  assert (Hset : forall X (f : page -> X), (forall d s, f (set_doc d s) = f s) ->
                 (forall ty msg, unchanged f (showAlert ty msg)) ->
                 (forall tag e, unchanged f (console_error tag e)) ->
                 unchanged f restore_button ->
                 unchanged f (on_settled o)).
  { intros X f Hdoc Halert Hlog Hrestore. unfold on_settled.
    apply unchanged_catch.
    - destruct o as [e|data]; [apply unchanged_throw|]. unfold on_data.
      apply unchanged_bind; [|intros _].
      { destruct (truthy (error data)); [apply Halert|apply unchanged_ret]. }
      apply unchanged_bind; [apply unchanged_update_totals; exact Hdoc|intros _].
      apply unchanged_bind; [|intros _; exact Hrestore].
      apply unchanged_forEach. intros x. apply unchanged_update_row. exact Hdoc.
    - intros e. unfold on_error.
      apply unchanged_bind; [apply Hlog|intros _].
      apply unchanged_bind; [apply Halert|intros _; exact Hrestore]. }
  unfold activation, bind. change (on_click st) with (Ok tt, snd (on_click st)).
  cbv beta iota.
  destruct (on_settled o (snd (on_click st))) as [r st'] eqn:E. cbn [snd].
  assert (U1 : unchanged requests (on_settled o)).
  { apply Hset.
    - reflexivity.
    - intros ty msg. apply unchanged_showAlert_requests.
    - intros tag e. primitive.
    - unfold restore_button. leaves. }
  assert (U2 : unchanged (fun s => dataset_url (btn s)) (on_settled o)).
  { apply Hset.
    - reflexivity.
    - intros ty msg s r0 s' Hs.
      now rewrite (unchanged_showAlert_btn ty msg s r0 s' Hs).
    - intros tag e. primitive.
    - unfold restore_button. leaves. }
  split.
  - rewrite (U1 _ _ _ E). reflexivity.
  - rewrite (U2 _ _ _ E). reflexivity.
Qed.

(** X9: an activation calls fetch once, with the address the control
    carries, whatever the outcome (no second attempt on failure), and
    leaves that address on the control. *)
Theorem X9_one_request o st :
  requests (snd (activation o st)) = dataset_url (btn st) :: requests st /\
  dataset_url (btn (snd (activation o st))) = dataset_url (btn st).
Proof. exact (activation_requests o st). Qed.

(** X10: for a payload without error message, the [then] callback creates
    no alert (no more elements carry the marker class than before), logs
    nothing and schedules no timer, whether it returns or throws. *)
Theorem X10_no_alert_without_error data st r st' :
  truthy (error data) = false ->
  on_data data st = (r, st') ->
  count marker (doc st') <= count marker (doc st) /\
  console st' = console st /\
  timers st' = timers st.
Proof.
  intros Ht H. unfold on_data in H. rewrite Ht in H.
  assert (Hrestore : forall X (f : page -> X),
             (forall b s, f (set_btn b s) = f s) -> unchanged f restore_button).
  { intros X f Hf s r0 s' Hs. unfold restore_button, bind, set_disabled,
      set_innerHTML in Hs. inversion Hs. now rewrite !Hf. }
  assert (Hall : forall X (f : page -> X),
             (forall d s, f (set_doc d s) = f s) ->
             (forall b s, f (set_btn b s) = f s) -> f st' = f st).
  { intros X f Hd Hb.
    assert (U : unchanged f (bind (ret tt) (fun _ =>
                  bind (update_totals (totals data)) (fun _ =>
                    bind (forEach (portfolios data) update_row)
                      (fun _ => restore_button))))).
    { apply unchanged_bind; [apply unchanged_ret|intros _].
      apply unchanged_bind; [now apply unchanged_update_totals|intros _].
      apply unchanged_bind; [|intros _; now apply Hrestore].
      apply unchanged_forEach. intros x. now apply unchanged_update_row. }
    exact (U _ _ _ H). }
  split; [|split].
  - assert (A : adds_none marker (bind (ret tt) (fun _ =>
                  bind (update_totals (totals data)) (fun _ =>
                    bind (forEach (portfolios data) update_row)
                      (fun _ => restore_button))))).
    { apply adds_none_bind; [apply adds_none_ret|intros _].
      apply adds_none_bind; [apply adds_none_update_totals|intros _].
      apply adds_none_bind.
      - apply adds_none_forEach. intros x. apply adds_none_update_row.
      - intros _ s r0 s' Hs. inversion Hs. auto. }
    exact (A _ _ _ H).
  - apply (Hall _ console); reflexivity.
  - apply (Hall _ timers); reflexivity.
Qed.

Lemma X10_witness :
  truthy (error (payload None [loss_entry])) = false /\
  on_data (payload None [loss_entry]) (page_of alerted_doc)
  = (Ok tt, snd (on_data (payload None [loss_entry]) (page_of alerted_doc))) /\
  count marker (doc (snd (on_data (payload None [loss_entry]) (page_of alerted_doc))))
  <= count marker (doc (page_of alerted_doc)).
Proof.
  assert (H : on_data (payload None [loss_entry]) (page_of alerted_doc)
              = (Ok tt, snd (on_data (payload None [loss_entry]) (page_of alerted_doc))))
    by (vm_compute; reflexivity).
  split; [reflexivity|]. split; [exact H|].
  exact (proj1 (X10_no_alert_without_error (payload None [loss_entry])
                  (page_of alerted_doc) _ _ eq_refl H)).
Defined.

(** X11: [update_row] writes inside its row only.  Whatever it does,
    returning or throwing, every node that is apart from the row of the
    entry is after the call what it was before, and so are the control, the
    log, the timers and the requests. *)
Theorem X11_update_row_frame p st res st' row q :
  Dom.querySelector [] (row_sel p) (doc st) = Some row ->
  update_row p st = (res, st') ->
  apart row q = true ->
  get q (doc st') = get q (doc st) /\
  btn st' = btn st /\ console st' = console st /\
  timers st' = timers st /\ requests st' = requests st.
Proof.
  intros Hrow H Hq. split.
  - destruct (update_row_found p st row Hrow) as (body & Hbody & E).
    rewrite E in H. exact (Hbody _ _ _ _ H Hq).
  - repeat split.
    + exact (unchanged_update_row btn (fun _ _ => eq_refl) p _ _ _ H).
    + exact (unchanged_update_row console (fun _ _ => eq_refl) p _ _ _ H).
    + exact (unchanged_update_row timers (fun _ _ => eq_refl) p _ _ _ H).
    + exact (unchanged_update_row requests (fun _ _ => eq_refl) p _ _ _ H).
Qed.

Lemma X11_witness :
  Dom.querySelector [] (row_sel loss_entry) (doc (page_of page_doc)) = Some row7_path /\
  update_row loss_entry (page_of page_doc) = (Ok tt, after_loss_update) /\
  apart row7_path [0; 0; 0; 3] = true /\
  get [0; 0; 0; 3] (doc after_loss_update) = get [0; 0; 0; 3] (doc (page_of page_doc)).
Proof.
  assert (H1 : Dom.querySelector [] (row_sel loss_entry) (doc (page_of page_doc))
               = Some row7_path) by (vm_compute; reflexivity).
  assert (H2 : update_row loss_entry (page_of page_doc) = (Ok tt, after_loss_update))
    by (vm_compute; reflexivity).
  assert (H3 : apart row7_path [0; 0; 0; 3] = true) by reflexivity.
  split; [exact H1|]. split; [exact H2|]. split; [exact H3|].
  exact (proj1 (X11_update_row_frame _ _ _ _ _ _ H1 H2 H3)).
Defined.

(** X12: on a page where the three regions of the totals are found and
    apart, [update_totals] returns; the invested amount and the current
    value read "$" and the number with two decimals; the profit/loss region
    gets its text and the class "card-title profit" or "card-title loss";
    the class of the two other regions and every node apart from the three
    regions are left as they were. *)
Theorem X12_update_totals_effect t st e1 e2 e3 :
  Dom.querySelector [] (ById "totalInvested") (doc st) = Some e1 ->
  Dom.querySelector [] (ById "totalValue") (doc st) = Some e2 ->
  Dom.querySelector [] (ById "totalPL") (doc st) = Some e3 ->
  separate [e1; e2; e3] = true ->
  let plSign := if Number.ge (total_profit_loss t) Number.zero then "+" else "" in
  exists st',
    update_totals t st = (Ok tt, st') /\
    text_at e1 (doc st') = Some ("$" ++ Number.toFixed (total_invested t) 2) /\
    text_at e2 (doc st') = Some ("$" ++ Number.toFixed (total_current_value t) 2) /\
    text_at e3 (doc st')
    = Some (plSign ++ "$" ++ Number.toFixed (total_profit_loss t) 2 ++ " ("
            ++ plSign ++ Number.toFixed (total_profit_loss_percent t) 2 ++ "%)") /\
    class_at e3 (doc st')
    = Some ("card-title " ++ (if Number.ge (total_profit_loss t) Number.zero
                              then "profit" else "loss")) /\
    class_at e1 (doc st') = class_at e1 (doc st) /\
    class_at e2 (doc st') = class_at e2 (doc st) /\
    forall q, apart e1 q = true -> apart e2 q = true -> apart e3 q = true ->
              get q (doc st') = get q (doc st).
Proof.
  intros H1 H2 H3 Hsep plSign. subst plSign.
  rewrite querySelector_document in H1, H2, H3.
  simpl in Hsep.
  repeat (apply andb_true_iff in Hsep; destruct Hsep as [? Hsep]).
  repeat match goal with
         | H : (_ && _)%bool = true |- _ => apply andb_true_iff in H; destruct H
         end.
  assert (A21 : apart e2 e1 = true) by now rewrite apart_sym.
  assert (A31 : apart e3 e1 = true) by now rewrite apart_sym.
  assert (A32 : apart e3 e2 = true) by now rewrite apart_sym.
  destruct (query_get _ _ _ H1) as (t1 & a1 & k1 & G1 & _).
  destruct (query_get _ _ _ H2) as (t2 & a2 & k2 & G2 & _).
  destruct (query_get _ _ _ H3) as (t3 & a3 & k3 & G3 & _).
  destruct st as [b d co ti rq]. cbn [doc] in *.
  eexists. split.
  - unfold update_totals, getElementById. cbv zeta.
    rewrite (step_text _ _ [] _ _ d e1) by (reflexivity || assumption).
    cbn [update doc set_doc btn console timers requests].
    erewrite (step_text _ _ [] _ _ _ e2);
      [ | first [reflexivity | cbn [doc set_doc]; solve_query] .. ].
    cbn [update doc set_doc btn console timers requests].
    erewrite (step_text _ _ [] _ _ _ e3);
      [ | first [reflexivity | cbn [doc set_doc]; solve_query] .. ].
    cbn [update doc set_doc btn console timers requests].
    erewrite (step_class_last _ [] _ _ _ e3);
      [ | first [reflexivity | cbn [doc set_doc]; solve_query] .. ].
    cbn [update doc set_doc btn console timers requests]. reflexivity.
  - cbn [doc set_doc]. unfold text_at, class_at.
    destruct (Number.ge (total_profit_loss t) Number.zero).
    all: read_cell.
    all: rewrite ?G1, ?G2, ?G3; cbn [option_map with_text with_class].
    all: rewrite ?getAttribute_setAttribute_same.
    all: repeat split; try reflexivity.
    all: intros q Q1 Q2 Q3; now rewrite !get_update_apart by assumption.
Qed.

Lemma X12_witness :
  Dom.querySelector [] (ById "totalInvested") (doc (page_of page_doc)) = Some [0; 0; 0; 1] /\
  Dom.querySelector [] (ById "totalValue") (doc (page_of page_doc)) = Some [0; 0; 0; 2] /\
  Dom.querySelector [] (ById "totalPL") (doc (page_of page_doc)) = Some [0; 0; 0; 3] /\
  separate [[0; 0; 0; 1]; [0; 0; 0; 2]; [0; 0; 0; 3]] = true /\
  exists st',
    update_totals mixed_totals (page_of page_doc) = (Ok tt, st') /\
    text_at [0; 0; 0; 1] (doc st') = Some "$100.00" /\
    text_at [0; 0; 0; 2] (doc st') = Some "$110.00" /\
    text_at [0; 0; 0; 3] (doc st') = Some "+$10.00 (+-5.00%)" /\
    class_at [0; 0; 0; 3] (doc st') = Some "card-title profit".
Proof.
  assert (H1 : Dom.querySelector [] (ById "totalInvested") (doc (page_of page_doc))
               = Some [0; 0; 0; 1]) by (vm_compute; reflexivity).
  assert (H2 : Dom.querySelector [] (ById "totalValue") (doc (page_of page_doc))
               = Some [0; 0; 0; 2]) by (vm_compute; reflexivity).
  assert (H3 : Dom.querySelector [] (ById "totalPL") (doc (page_of page_doc))
               = Some [0; 0; 0; 3]) by (vm_compute; reflexivity).
  assert (H4 : separate [[0; 0; 0; 1]; [0; 0; 0; 2]; [0; 0; 0; 3]] = true)
    by reflexivity.
  repeat (split; [assumption|]).
  destruct (X12_update_totals_effect mixed_totals (page_of page_doc) _ _ _ H1 H2 H3 H4)
    as (st' & E & T1 & T2 & T3 & C3 & _).
  exists st'. repeat split; assumption.
Defined.

(** ** The same entry again *)

Module AgainFacts.
Import Dom Js Dashboard.
Import DomFacts JsFacts HandlerFacts.
Local Open Scope list_scope.

Lemma modify_nth_comm g h : forall l i j,
  i <> j ->
  modify_nth i g (modify_nth j h l) = modify_nth j h (modify_nth i g l).
Proof.
  induction l as [|x l IH]; intros [|i] [|j] H; simpl; auto; try congruence.
  f_equal. apply IH. congruence.
Qed.

(** Updates of two nodes that are apart can be done in either order. *)
Lemma update_comm g h : forall p q n,
  apart p q = true ->
  update p g (update q h n) = update q h (update p g n).
Proof.
  unfold apart. induction p as [|i p IH]; intros q n H; [discriminate|].
  destruct q as [|j q]; [simpl in H; discriminate|].
  destruct n as [| |t a k]; simpl; auto. f_equal.
  destruct (Nat.eqb i j) eqn:E.
  - apply Nat.eqb_eq in E. subst j. rewrite !modify_nth_compose.
    apply modify_nth_ext. intros x. apply IH.
    simpl in H. now rewrite Nat.eqb_refl in H.
  - apply modify_nth_comm. now apply Nat.eqb_neq.
Qed.

Lemma update_ext g g' : (forall x, g x = g' x) ->
  forall p n, update p g n = update p g' n.
Proof.
  intros E. induction p as [|i p IH]; intros n; simpl; auto.
  destruct n; simpl; auto. f_equal. now apply modify_nth_ext.
Qed.

Lemma update_idem g p n :
  (forall x, g (g x) = g x) -> update p g (update p g n) = update p g n.
Proof.
  intros H. rewrite update_compose. now apply update_ext.
Qed.

Lemma setAttribute_twice name v v' a :
  setAttribute name v (setAttribute name v' a) = setAttribute name v a.
Proof.
  induction a as [|[n w] a IH]; simpl.
  - now rewrite String.eqb_refl.
  - destruct (String.eqb n name) eqn:E; simpl; rewrite E; auto. now rewrite IH.
Qed.

(** Writing the same text and the same class a second time changes
    nothing. *)
Lemma text_class_idem s c x :
  with_class c (with_text s (with_class c (with_text s x)))
  = with_class c (with_text s x).
Proof. destruct x; simpl; auto. now rewrite setAttribute_twice. Qed.

Lemma text_idem s x : with_text s (with_text s x) = with_text s x.
Proof. destruct x; reflexivity. Qed.

Lemma row_writes_idem p q1 q2 q3 q4 R :
  separate [q1; q2; q3; q4] = true ->
  row_writes p q1 q2 q3 q4 (row_writes p q1 q2 q3 q4 R) = row_writes p q1 q2 q3 q4 R.
Proof.
  intros Hsep. simpl in Hsep.
  repeat (apply andb_true_iff in Hsep; destruct Hsep as [? Hsep]).
  repeat match goal with
         | H : (_ && _)%bool = true |- _ => apply andb_true_iff in H; destruct H
         end.
  unfold row_writes. cbv zeta. rewrite !update_compose.
  rewrite (update_comm _ _ q1 q4) by assumption.
  rewrite (update_comm _ _ q1 q3) by assumption.
  rewrite (update_comm _ _ q1 q2) by assumption.
  rewrite (update_idem _ q1) by (intros x; apply text_idem).
  rewrite (update_comm _ _ q2 q4) by assumption.
  rewrite (update_comm _ _ q2 q3) by assumption.
  rewrite (update_idem _ q2) by (intros x; apply text_idem).
  rewrite (update_comm _ _ q3 q4) by assumption.
  rewrite (update_idem _ q3) by (intros x; apply text_class_idem).
  rewrite (update_idem _ q4) by (intros x; apply text_class_idem).
  reflexivity.
Qed.

Lemma preserves_match_row_writes sel p q1 q2 q3 q4 :
  q1 <> [] -> q2 <> [] -> q3 <> [] -> q4 <> [] ->
  preserves_match sel (row_writes p q1 q2 q3 q4).
Proof.
  intros N1 N2 N3 N4 n Hn. unfold row_writes. cbv zeta.
  destruct q1 as [|i1 q1]; [contradiction|].
  destruct q2 as [|i2 q2]; [contradiction|].
  destruct q3 as [|i3 q3]; [contradiction|].
  destruct q4 as [|i4 q4]; [contradiction|].
  now rewrite !node_matches_update_inside.
Qed.

(** The cells are found where they were after the row has been written. *)
Lemma row_writes_queries p q1 q2 q3 q4 R :
  query (ByClass "current-price") R = Some q1 ->
  query (ByClass "current-value") R = Some q2 ->
  query (ByClass "profit-loss") R = Some q3 ->
  query (ByClass "profit-loss-percent") R = Some q4 ->
  separate [q1; q2; q3; q4] = true ->
  query (ByClass "current-price") (row_writes p q1 q2 q3 q4 R) = Some q1 /\
  query (ByClass "current-value") (row_writes p q1 q2 q3 q4 R) = Some q2 /\
  query (ByClass "profit-loss") (row_writes p q1 q2 q3 q4 R) = Some q3 /\
  query (ByClass "profit-loss-percent") (row_writes p q1 q2 q3 q4 R) = Some q4.
Proof.
  intros H1 H2 H3 H4 Hsep. simpl in Hsep.
  repeat (apply andb_true_iff in Hsep; destruct Hsep as [? Hsep]).
  repeat match goal with
         | H : (_ && _)%bool = true |- _ => apply andb_true_iff in H; destruct H
         end.
  assert (A21 : apart q2 q1 = true) by now rewrite apart_sym.
  assert (A31 : apart q3 q1 = true) by now rewrite apart_sym.
  assert (A32 : apart q3 q2 = true) by now rewrite apart_sym.
  assert (A41 : apart q4 q1 = true) by now rewrite apart_sym.
  assert (A42 : apart q4 q2 = true) by now rewrite apart_sym.
  assert (A43 : apart q4 q3 = true) by now rewrite apart_sym.
  unfold row_writes. cbv zeta.
  destruct (Number.ge (profit_loss p) Number.zero); repeat split; solve_query.
Qed.

End AgainFacts.

Import AgainFacts.

(** X13: the same entry a second time changes nothing.  On a row whose four
    cells are apart, [update_row] returns, leaves the row and its cells
    where the handler will look them up again, and a second call with the
    same entry returns with the page unchanged. *)
Theorem X13_update_row_twice p st row c1 c2 c3 c4 :
  cells p (doc st) = Some (row, c1, c2, c3, c4) ->
  separate [c1; c2; c3; c4] = true ->
  exists st',
    update_row p st = (Ok tt, st') /\
    cells p (doc st') = Some (row, c1, c2, c3, c4) /\
    update_row p st' = (Ok tt, st').
Proof.
  intros Hc Hsep. apply cells_inv in Hc.
  destruct Hc as (R & q1 & q2 & q3 & q4 & Hrow & HR & H1 & H2 & H3 & H4
                  & -> & -> & -> & ->).
  assert (Hsep' : separate [q1; q2; q3; q4] = true).
  { simpl in *. now rewrite !apart_app in Hsep. }
  pose proof (update_row_run p st row R q1 q2 q3 q4 Hrow HR H1 H2 H3 H4 Hsep') as Run.
  destruct (row_writes_queries p q1 q2 q3 q4 R H1 H2 H3 H4 Hsep')
    as (W1 & W2 & W3 & W4).
  assert (N : q1 <> [] /\ q2 <> [] /\ q3 <> [] /\ q4 <> []).
  { repeat split; intros ->;
      match goal with H : query _ R = Some [] |- _ =>
        now apply find_list_nonempty in H end. }
  destruct N as (N1 & N2 & N3 & N4).
  set (st' := set_doc (update row (row_writes p q1 q2 q3 q4) (doc st)) st) in *.
  assert (Hrow' : Dom.querySelector [] (row_sel p) (doc st') = Some row).
  { unfold st'. cbn [doc set_doc]. rewrite querySelector_document in *.
    apply query_update_same; auto. now apply preserves_match_row_writes. }
  assert (HR' : get row (doc st') = Some (row_writes p q1 q2 q3 q4 R)).
  { unfold st'. cbn [doc set_doc]. now rewrite get_update_same, HR. }
  exists st'. split; [exact Run|]. split.
  - unfold cells. rewrite Hrow'. unfold Dom.querySelector at 1 2 3 4.
    rewrite HR', W1, W2, W3, W4. reflexivity.
  - rewrite (update_row_run p st' row _ q1 q2 q3 q4 Hrow' HR' W1 W2 W3 W4 Hsep').
    unfold st', set_doc. cbn [doc btn console timers requests].
    rewrite update_compose.
    rewrite (update_ext_at
               (fun x => row_writes p q1 q2 q3 q4 (row_writes p q1 q2 q3 q4 x))
               (row_writes p q1 q2 q3 q4) row _ _ HR)
      by (now apply row_writes_idem).
    reflexivity.
Qed.

Lemma X13_witness :
  cells loss_entry (doc (page_of page_doc))
  = Some (row7_path, price_path, value_path, pl_path, percent_path) /\
  separate [price_path; value_path; pl_path; percent_path] = true /\
  exists st',
    update_row loss_entry (page_of page_doc) = (Ok tt, st') /\
    update_row loss_entry st' = (Ok tt, st').
Proof.
  assert (Hc : cells loss_entry (doc (page_of page_doc))
               = Some (row7_path, price_path, value_path, pl_path, percent_path))
    by (vm_compute; reflexivity).
  assert (Hs : separate [price_path; value_path; pl_path; percent_path] = true)
    by reflexivity.
  split; [exact Hc|]. split; [exact Hs|].
  destruct (X13_update_row_twice loss_entry (page_of page_doc) _ _ _ _ _ Hc Hs)
    as (st' & E1 & _ & E2).
  exists st'. split; assumption.
Defined.

(** ** The chart callbacks *)

Module LegendFacts.
Import Js Legend.
Local Open Scope list_scope.

Lemma colors_NoDup : NoDup colors.
Proof.
  unfold colors.
  repeat (constructor; [simpl; intuition discriminate|]). constructor.
Qed.

(** The entries of a legend that was built, read by index. *)
Lemma map_labels_inv meta : forall labels i items,
  map_labels meta i labels = Ok items ->
  List.length items = List.length labels /\
  forall j it,
    nth_error items j = Some it ->
    index it = i + j /\
    fillStyle it = nth_error colors (i + j) /\
    strokeStyle it = nth_error colors (i + j) /\
    lineWidth it = 0%Z /\
    nth_error labels j = Some (text it) /\
    nth_error meta (i + j) = Some (hidden it).
Proof.
  induction labels as [|label rest IH]; intros i items H; simpl in H.
  - injection H as <-. split; [reflexivity|]. intros [|j] it Hj; discriminate.
  - destruct (nth_error meta i) as [h|] eqn:Eh; [|discriminate].
    destruct (map_labels meta (S i) rest) as [its|e] eqn:E; [|discriminate].
    injection H as <-. destruct (IH _ _ E) as [Hlen Hits].
    split; [simpl; now rewrite Hlen|].
    intros [|j] it Hj; simpl in Hj.
    + injection Hj as <-. simpl. rewrite Nat.add_0_r. repeat split; auto.
    + destruct (Hits j it Hj) as (H1 & H2 & H3 & H4 & H5 & H6).
      rewrite Nat.add_succ_r. simpl. repeat split; auto.
Qed.

Lemma map_labels_ok meta : forall labels i,
  i + List.length labels <= List.length meta ->
  exists items, map_labels meta i labels = Ok items.
Proof.
  induction labels as [|label rest IH]; intros i H; simpl in *.
  - eexists. reflexivity.
  - destruct (nth_error meta i) as [h|] eqn:Eh.
    + destruct (IH (S i) ltac:(lia)) as [its E]. rewrite E. eexists. reflexivity.
    + apply nth_error_None in Eh. lia.
Qed.

Lemma map_labels_throw meta : forall labels i,
  List.length meta < i + List.length labels ->
  i <= List.length meta ->
  map_labels meta i labels = Throw TypeError.
Proof.
  induction labels as [|label rest IH]; intros i H Hi; simpl in *; [lia|].
  destruct (nth_error meta i) as [h|] eqn:Eh; [|reflexivity].
  assert (i < List.length meta) by (apply nth_error_Some; congruence).
  rewrite IH by lia. reflexivity.
Qed.

End LegendFacts.

Import Legend LegendFacts.

(** X14: when the chart has a dataset and an element for each label, the
    legend has one entry per label, in the order of the labels: entry [j]
    carries label [j] as text, index [j], the hidden flag of element [j],
    line width 0, and colour [j] of the palette as fill and as stroke. *)
Theorem X14_legend_entries c :
  data_datasets c <> 0 ->
  List.length (data_labels c) <= List.length (meta_data c) ->
  exists items,
    generateLabels c = Ok items /\
    List.length items = List.length (data_labels c) /\
    forall j label,
      nth_error (data_labels c) j = Some label ->
      exists h,
        nth_error (meta_data c) j = Some h /\
        nth_error items j
        = Some {| text := label; fillStyle := nth_error colors j;
                  strokeStyle := nth_error colors j; lineWidth := 0;
                  hidden := h; index := j |}.
Proof.
  intros Hd Hlen. unfold generateLabels.
  destruct (map_labels_ok (meta_data c) (data_labels c) 0 Hlen) as [items E].
  destruct (map_labels_inv _ _ _ _ E) as [Hl Hits].
  assert (G : (if negb (Nat.eqb (List.length (data_labels c)) 0)
                  && negb (Nat.eqb (data_datasets c) 0)
               then map_labels (meta_data c) 0 (data_labels c) else Ok [])
              = Ok items).
  { destruct (data_labels c) as [|l ls] eqn:El.
    - simpl in *. now destruct items.
    - apply Nat.eqb_neq in Hd. rewrite Hd. simpl. exact E. }
  exists items. split; [exact G|]. split; [exact Hl|].
  intros j label Hj.
  assert (Hjl : j < List.length items).
  { rewrite Hl. apply nth_error_Some. congruence. }
  destruct (nth_error items j) as [it|] eqn:Eit;
    [|apply nth_error_None in Eit; lia].
  destruct (Hits j it Eit) as (H1 & H2 & H3 & H4 & H5 & H6). simpl in *.
  exists (hidden it). split; [exact H6|].
  destruct it as [tx fs ss lw hd ix]. simpl in *.
  rewrite Hj in H5. injection H5 as <-. now subst.
Qed.

Lemma X14_witness :
  data_datasets {| data_labels := ["BTC"; "ETH"]; data_datasets := 1;
                   meta_data := [false; true] |} <> 0 /\
  generateLabels {| data_labels := ["BTC"; "ETH"]; data_datasets := 1;
                    meta_data := [false; true] |}
  = Ok [ {| text := "BTC"; fillStyle := Some "#F7931A"; strokeStyle := Some "#F7931A";
            lineWidth := 0; hidden := false; index := 0 |};
         {| text := "ETH"; fillStyle := Some "#627EEA"; strokeStyle := Some "#627EEA";
            lineWidth := 0; hidden := true; index := 1 |} ].
Proof.
  assert (Hd : data_datasets {| data_labels := ["BTC"; "ETH"]; data_datasets := 1;
                                meta_data := [false; true] |} <> 0) by discriminate.
  split; [exact Hd|].
  destruct (X14_legend_entries _ Hd (le_n 2)) as (items & E & _). 
  rewrite E. vm_compute in E. injection E as <-. reflexivity.
Defined.

(** X15: the palette does not cycle.  In a legend that was built, entry
    [j] has colour [j] of the palette: two different entries among the
    first ten have different colours, and from the eleventh on an entry has
    no colour at all (undefined). *)
Theorem X15_legend_palette c items :
  generateLabels c = Ok items ->
  (forall i j a b,
     nth_error items i = Some a -> nth_error items j = Some b ->
     i < 10 -> i <> j ->
     fillStyle a <> None /\ fillStyle a <> fillStyle b) /\
  (forall j a,
     nth_error items j = Some a -> 10 <= j ->
     fillStyle a = None /\ strokeStyle a = None).
Proof.
  unfold generateLabels. intros H.
  assert (Hits : forall j it, nth_error items j = Some it ->
                 fillStyle it = nth_error colors j /\
                 strokeStyle it = nth_error colors j).
  { destruct (negb (Nat.eqb (List.length (data_labels c)) 0)
              && negb (Nat.eqb (data_datasets c) 0)).
    - intros j it Hj. destruct (map_labels_inv _ _ _ _ H) as [_ Hi].
      destruct (Hi j it Hj) as (_ & H2 & H3 & _). auto.
    - injection H as <-. intros [|j] it Hj; discriminate. }
  split.
  - intros i j a b Ha Hb Hi Hij.
    destruct (Hits _ _ Ha) as [Fa _]. destruct (Hits _ _ Hb) as [Fb _].
    rewrite Fa, Fb. split.
    + apply nth_error_Some. exact Hi.
    + intros E. apply Hij.
      apply (proj1 (NoDup_nth_error colors) colors_NoDup); auto.
  - intros j a Ha Hj. destruct (Hits _ _ Ha) as [Fa Sa]. rewrite Fa, Sa.
    split; apply nth_error_None; exact Hj.
Qed.

Lemma X15_witness :
  generateLabels {| data_labels := ["BTC"; "ETH"]; data_datasets := 1;
                    meta_data := [false; true] |}
  = Ok [ {| text := "BTC"; fillStyle := Some "#F7931A"; strokeStyle := Some "#F7931A";
            lineWidth := 0; hidden := false; index := 0 |};
         {| text := "ETH"; fillStyle := Some "#627EEA"; strokeStyle := Some "#627EEA";
            lineWidth := 0; hidden := true; index := 1 |} ] /\
  Some "#F7931A" <> Some "#627EEA".
Proof.
  assert (H : generateLabels {| data_labels := ["BTC"; "ETH"]; data_datasets := 1;
                                meta_data := [false; true] |}
              = Ok [ {| text := "BTC"; fillStyle := Some "#F7931A";
                        strokeStyle := Some "#F7931A";
                        lineWidth := 0; hidden := false; index := 0 |};
                     {| text := "ETH"; fillStyle := Some "#627EEA";
                        strokeStyle := Some "#627EEA";
                        lineWidth := 0; hidden := true; index := 1 |} ])
    by reflexivity.
  split; [exact H|].
  exact (proj2 (proj1 (X15_legend_palette _ _ H) 0 1 _ _ eq_refl eq_refl
                  ltac:(lia) ltac:(lia))).
Defined.

(** X16: the edges of the legend callback.  Without labels, or without
    dataset, the legend is empty; with a dataset and more labels than
    elements, the callback throws a TypeError (it reads [hidden] of an
    element that is not there). *)
Theorem X16_legend_edges c :
  (data_labels c = [] \/ data_datasets c = 0 -> generateLabels c = Ok []) /\
  (data_datasets c <> 0 ->
   List.length (meta_data c) < List.length (data_labels c) ->
   generateLabels c = Throw TypeError).
Proof.
  unfold generateLabels. split.
  - intros [H|H]; rewrite H; simpl; auto. now rewrite andb_false_r.
  - intros Hd Hlen. apply Nat.eqb_neq in Hd. rewrite Hd.
    destruct (data_labels c) as [|l ls] eqn:El; [simpl in Hlen; lia|].
    rewrite <- El in *.
    assert (E : Nat.eqb (List.length (data_labels c)) 0 = false).
    { apply Nat.eqb_neq. rewrite El. discriminate. }
    rewrite E. simpl. apply map_labels_throw; lia.
Qed.

Lemma X16_witness :
  generateLabels {| data_labels := []; data_datasets := 1; meta_data := [] |} = Ok [] /\
  generateLabels {| data_labels := ["BTC"; "ETH"]; data_datasets := 1;
                    meta_data := [false] |} = Throw TypeError.
Proof.
  split.
  - exact (proj1 (X16_legend_edges
                    {| data_labels := []; data_datasets := 1; meta_data := [] |})
             (or_introl eq_refl)).
  - exact (proj2 (X16_legend_edges
                    {| data_labels := ["BTC"; "ETH"]; data_datasets := 1;
                       meta_data := [false] |})
             ltac:(discriminate) (le_n 2)).
Defined.

Module TooltipFacts.

Lemma add_zeros s s' : exists s'', Number.add (S754_zero s) (S754_zero s') = S754_zero s''.
Proof. destruct s, s'; eexists; reflexivity. Qed.

(** The sum of zeros is a zero. *)
Lemma sum_of_zeros : forall values s,
  Forall (fun v => exists s', v = S754_zero s') values ->
  exists s'', fold_left Number.add values (S754_zero s) = S754_zero s''.
Proof.
  induction values as [|v values IH]; intros s H; cbn [fold_left].
  - eauto.
  - inversion H as [|? ? [s' ->] Hrest]; subst.
    destruct (add_zeros s s') as [s'' ->]. now apply IH.
Qed.

End TooltipFacts.

(** X17: a dataset of zeros (a portfolio without value).  The tooltip of
    every segment reads "$0.00 (NaN%)" after the label: zero divided by the
    zero total is not a number, and toFixed prints it as "NaN". *)
Theorem X17_tooltip_of_zeros labels values i l :
  Forall (fun v => exists s, v = S754_zero s) values ->
  nth_error labels i = Some l ->
  i < List.length values ->
  Chart.tooltip labels values i = Some (l ++ ": $0.00 (NaN%)").
Proof.
  intros Hz Hl Hi. unfold Chart.tooltip, Chart.hover. rewrite Hl.
  unfold Chart.number, Number.number in *.
  destruct (nth_error values i) as [v|] eqn:Ev;
    [|apply nth_error_None in Ev; lia].
  assert (Hv : exists s, v = S754_zero s).
  { rewrite Forall_forall in Hz. apply Hz. eapply nth_error_In; eauto. }
  destruct Hv as [s ->].
  destruct (TooltipFacts.sum_of_zeros values false Hz) as [s' Hs].
  cbn [option_map]. unfold Chart.tooltip_label.
  cbn [Chart.raw Chart.label Chart.dataset_data].
  change (fun a b : Number.number => Number.add a b) with Number.add.
  unfold Number.zero. rewrite Hs. reflexivity.
Qed.

Lemma X17_witness :
  Forall (fun v => exists s, v = S754_zero s) [Number.zero; Number.zero] /\
  Chart.tooltip ["BTC"; "ETH"] [Number.zero; Number.zero] 1
  = Some "ETH: $0.00 (NaN%)".
Proof.
  assert (H : Forall (fun v => exists s, v = S754_zero s) [Number.zero; Number.zero])
    by (repeat constructor; exists false; reflexivity).
  split; [exact H|].
  exact (X17_tooltip_of_zeros ["BTC"; "ETH"] [Number.zero; Number.zero] 1 "ETH"
           H eq_refl (le_n 2)).
Defined.

(** X18: a segment of value zero in a dataset whose total is a finite
    number other than zero: its tooltip reads "$0.00 (0.0%)" after the
    label, whatever the total. *)
Theorem X18_tooltip_of_zero_segment ctx s s' m e :
  Chart.raw ctx = S754_zero s ->
  fold_left Number.add (Chart.dataset_data ctx) Number.zero = S754_finite s' m e ->
  Chart.tooltip_label ctx = Chart.label ctx ++ ": $0.00 (0.0%)".
Proof.
  intros Hr Ht. unfold Chart.tooltip_label.
  change (fun a b : Number.number => Number.add a b) with Number.add.
  rewrite Hr, Ht. reflexivity.
Qed.

Lemma X18_witness :
  Chart.tooltip_label
    {| Chart.label := "BTC"; Chart.raw := Number.zero;
       Chart.dataset_data := [Number.zero; Number.of_Z 5] |}
  = "BTC: $0.00 (0.0%)".
Proof.
  exact (X18_tooltip_of_zero_segment
           {| Chart.label := "BTC"; Chart.raw := Number.zero;
              Chart.dataset_data := [Number.zero; Number.of_Z 5] |}
           false false 5629499534213120%positive (-50)%Z eq_refl eq_refl).
Defined.

(** X19: an activation that ends without uncaught exception, on the
    success path or through the [catch] callback, leaves the control
    enabled, with its label and the address it had. *)
Theorem X19_control_restored o st st' :
  activation o st = (Ok tt, st') ->
  btn st' = {| disabled := false; innerHTML := refresh_label;
               dataset_url := dataset_url (btn st) |}.
Proof.
  intros H. destruct (activation_ok_restores o st st' H) as [Hd Hi].
  pose proof (proj2 (activation_requests o st)) as Hu. rewrite H in Hu. simpl in Hu.
  destruct (btn st') as [d i u]. simpl in *. now subst.
Qed.

Lemma X19_witness :
  activation (Resolved (payload None [loss_entry])) (page_of page_doc)
  = (Ok tt, snd (activation (Resolved (payload None [loss_entry])) (page_of page_doc))) /\
  btn (snd (activation (Resolved (payload None [loss_entry])) (page_of page_doc)))
  = {| disabled := false; innerHTML := refresh_label; dataset_url := "/refresh/" |}.
Proof.
  assert (H : activation (Resolved (payload None [loss_entry])) (page_of page_doc)
              = (Ok tt, snd (activation (Resolved (payload None [loss_entry]))
                               (page_of page_doc))))
    by (vm_compute; reflexivity).
  split; [exact H|].
  exact (X19_control_restored _ _ _ H).
Defined.

(** * A response that carries an error message *)

(** ** Rows and regions under the updates *)

Module TableFacts.
Import Dom Js Dashboard Layout.
Import DomFacts JsFacts AlertFacts HandlerFacts FrameFacts WriteFacts AgainFacts.

Lemma forallb_ext_in {A : Type} (f g : A -> bool) (l : list A) :
  (forall x, In x l -> f x = g x) -> forallb f l = forallb g l.
Proof.
  induction l as [|x l IH]; intros H; simpl; auto.
  rewrite (H x) by now left. rewrite IH; auto. intros y Hy. apply H. now right.
Qed.

(** *** A row that is kept *)

Lemma row_kept_refl d p : row_kept d d p.
Proof. split; auto. Qed.

Lemma row_kept_trans d d' d'' p :
  row_kept d d' p -> row_kept d' d'' p -> row_kept d d'' p.
Proof.
  intros [Q1 G1] [Q2 G2]. split.
  - now rewrite Q2.
  - intros row H. rewrite G2 by now rewrite Q1. now apply G1.
Qed.

Lemma cells_kept p d d' : row_kept d d' p -> cells p d' = cells p d.
Proof.
  intros [Hq Hg]. unfold cells. rewrite Hq.
  destruct (Dom.querySelector [] (row_sel p) d) as [row|] eqn:E; [|reflexivity].
  unfold Dom.querySelector. now rewrite (Hg row eq_refl).
Qed.

Lemma row_ready_kept regions p d d' :
  row_kept d d' p -> row_ready regions d' p = row_ready regions d p.
Proof.
  intros H. unfold row_ready. rewrite (cells_kept _ _ _ H).
  destruct H as [E _]. now rewrite E.
Qed.

Lemma rows_apart_kept d d' p p' :
  row_kept d d' p -> row_kept d d' p' -> rows_apart d' p p' = rows_apart d p p'.
Proof. intros [E1 _] [E2 _]. unfold rows_apart. now rewrite E1, E2. Qed.

Lemma table_ready_kept regions d d' : forall l,
  (forall p, In p l -> row_kept d d' p) ->
  table_ready regions d' l = table_ready regions d l.
Proof.
  induction l as [|p l IH]; intros H; simpl; auto.
  rewrite (row_ready_kept regions p d d') by (apply H; now left).
  rewrite IH by (intros q Hq; apply H; now right).
  f_equal. f_equal. apply forallb_ext_in. intros q Hq.
  apply rows_apart_kept; apply H; [now left|now right].
Qed.

(** An update at a place apart from the row of [p], which builds no row,
    keeps the row of [p]. *)
Lemma row_kept_update p e g d :
  e <> [] ->
  preserves_none (row_sel p) g ->
  (forall row, Dom.querySelector [] (row_sel p) d = Some row -> apart row e = true) ->
  row_kept d (update e g d) p.
Proof.
  intros He Hg Ha. unfold row_kept. rewrite !querySelector_document in *.
  destruct (query (row_sel p) d) as [row|] eqn:E.
  - specialize (Ha row eq_refl). split.
    + apply query_update_frame; auto. apply apart_prefixb. now rewrite apart_sym.
    + intros r Hr. injection Hr as <-. apply get_update_apart. now rewrite apart_sym.
  - split; [|discriminate]. now apply query_update_none.
Qed.

Lemma preserves_none_row_text p s : preserves_none (row_sel p) (with_text s).
Proof. apply preserves_none_with_text. Qed.

Lemma preserves_none_row_class p v : preserves_none (row_sel p) (with_class v).
Proof. unfold row_sel. apply preserves_none_attr_with_class. discriminate. Qed.

Lemma preserves_none_update sel g q :
  preserves_none sel g -> preserves_none sel (update q g).
Proof. intros Hg n Hn. now apply find_node_update_none. Qed.

Lemma preserves_none_row_writes p' p q1 q2 q3 q4 :
  preserves_none (row_sel p') (row_writes p q1 q2 q3 q4).
Proof.
  intros n Hn. unfold row_writes. cbv zeta.
  repeat (apply find_node_update_none;
          [ first [apply preserves_none_row_text | apply preserves_none_row_class] | ]).
  exact Hn.
Qed.

(** *** What is read at a place *)

Lemma text_at_get c d d' : get c d' = get c d -> text_at c d' = text_at c d.
Proof. unfold text_at. now intros ->. Qed.

Lemma class_at_get c d d' : get c d' = get c d -> class_at c d' = class_at c d.
Proof. unfold class_at. now intros ->. Qed.

Lemma row_shows_get p c1 c2 c3 c4 d d' :
  get c1 d' = get c1 d -> get c2 d' = get c2 d ->
  get c3 d' = get c3 d -> get c4 d' = get c4 d ->
  row_shows p c1 c2 c3 c4 d -> row_shows p c1 c2 c3 c4 d'.
Proof.
  intros G1 G2 G3 G4. unfold row_shows. cbv zeta.
  rewrite (text_at_get c1 d d'), (text_at_get c2 d d'), (text_at_get c3 d d'),
    (text_at_get c4 d d'), (class_at_get c3 d d'), (class_at_get c4 d d');
    auto.
Qed.

(** *** What the checks say *)

Lemma row_ready_inv regions d p row :
  row_ready regions d p = true ->
  Dom.querySelector [] (row_sel p) d = Some row ->
  (forall e, In e regions -> apart row e = true) /\
  exists c1 c2 c3 c4,
    cells p d = Some (row, c1, c2, c3, c4) /\ separate [c1; c2; c3; c4] = true.
Proof.
  unfold row_ready. intros H Hq. rewrite Hq in H.
  apply andb_true_iff in H. destruct H as [Hr Hc]. split.
  - intros e He. rewrite forallb_forall in Hr. now apply Hr.
  - destruct (cells p d) as [[[[[r c1] c2] c3] c4]|] eqn:E; [|discriminate].
    exists c1, c2, c3, c4. split; auto.
    pose proof (cells_inv _ _ _ _ _ _ _ E) as (R & q1 & q2 & q3 & q4 & Hrow & _).
    rewrite Hq in Hrow. now injection Hrow as ->.
Qed.

Lemma table_ready_in regions d : forall l p,
  table_ready regions d l = true -> In p l -> row_ready regions d p = true.
Proof.
  induction l as [|x l IH]; intros p H Hp; [destruct Hp|].
  simpl in H. destruct Hp as [<-|Hp].
  - apply andb_true_iff in H. destruct H as [H _].
    apply andb_true_iff in H. now destruct H.
  - apply andb_true_iff in H. destruct H as [_ H]. now apply IH.
Qed.

(** *** The totals *)

Lemma update_totals_run t st e1 e2 e3 :
  Dom.querySelector [] (ById "totalInvested") (doc st) = Some e1 ->
  Dom.querySelector [] (ById "totalValue") (doc st) = Some e2 ->
  Dom.querySelector [] (ById "totalPL") (doc st) = Some e3 ->
  separate [e1; e2; e3] = true ->
  update_totals t st = (Ok tt, set_doc (totals_writes t e1 e2 e3 (doc st)) st).
Proof.
  intros H1 H2 H3 Hsep.
  rewrite querySelector_document in H1, H2, H3.
  simpl in Hsep.
  repeat (apply andb_true_iff in Hsep; destruct Hsep as [? Hsep]).
  repeat match goal with
         | H : (_ && _)%bool = true |- _ => apply andb_true_iff in H; destruct H
         end.
  assert (A21 : apart e2 e1 = true) by now rewrite apart_sym.
  assert (A31 : apart e3 e1 = true) by now rewrite apart_sym.
  assert (A32 : apart e3 e2 = true) by now rewrite apart_sym.
  destruct st as [b d co ti rq]. cbn [doc] in *.
  unfold update_totals, getElementById, totals_writes. cbv zeta.
  rewrite (step_text _ _ [] _ _ d e1) by (reflexivity || assumption).
  cbn [update doc set_doc btn console timers requests].
  erewrite (step_text _ _ [] _ _ _ e2);
    [ | first [reflexivity | cbn [doc set_doc]; solve_query] .. ].
  cbn [update doc set_doc btn console timers requests].
  erewrite (step_text _ _ [] _ _ _ e3);
    [ | first [reflexivity | cbn [doc set_doc]; solve_query] .. ].
  cbn [update doc set_doc btn console timers requests].
  erewrite (step_class_last _ [] _ _ _ e3);
    [ | first [reflexivity | cbn [doc set_doc]; solve_query] .. ].
  cbn [update doc set_doc btn console timers requests]. reflexivity.
Qed.

(** What the three regions read after the assignments. *)
Lemma totals_writes_read t e1 e2 e3 d :
  Dom.querySelector [] (ById "totalInvested") d = Some e1 ->
  Dom.querySelector [] (ById "totalValue") d = Some e2 ->
  Dom.querySelector [] (ById "totalPL") d = Some e3 ->
  separate [e1; e2; e3] = true ->
  let plSign := if Number.ge (total_profit_loss t) Number.zero then "+" else "" in
  let d' := totals_writes t e1 e2 e3 d in
  text_at e1 d' = Some ("$" ++ Number.toFixed (total_invested t) 2) /\
  text_at e2 d' = Some ("$" ++ Number.toFixed (total_current_value t) 2) /\
  text_at e3 d'
  = Some (plSign ++ "$" ++ Number.toFixed (total_profit_loss t) 2 ++ " ("
          ++ plSign ++ Number.toFixed (total_profit_loss_percent t) 2 ++ "%)") /\
  class_at e3 d'
  = Some ("card-title " ++ (if Number.ge (total_profit_loss t) Number.zero
                            then "profit" else "loss")).
Proof.
  intros H1 H2 H3 Hsep plSign d'. subst plSign d'.
  rewrite querySelector_document in H1, H2, H3.
  simpl in Hsep.
  repeat (apply andb_true_iff in Hsep; destruct Hsep as [? Hsep]).
  repeat match goal with
         | H : (_ && _)%bool = true |- _ => apply andb_true_iff in H; destruct H
         end.
  assert (A21 : apart e2 e1 = true) by now rewrite apart_sym.
  assert (A31 : apart e3 e1 = true) by now rewrite apart_sym.
  assert (A32 : apart e3 e2 = true) by now rewrite apart_sym.
  destruct (query_get _ _ _ H1) as (t1 & a1 & k1 & G1 & _).
  destruct (query_get _ _ _ H2) as (t2 & a2 & k2 & G2 & _).
  destruct (query_get _ _ _ H3) as (t3 & a3 & k3 & G3 & _).
  unfold totals_writes, text_at, class_at. cbv zeta.
  destruct (Number.ge (total_profit_loss t) Number.zero).
  all: read_cell.
  all: rewrite ?G1, ?G2, ?G3; cbn [option_map with_text with_class].
  all: rewrite ?getAttribute_setAttribute_same.
  all: repeat split; reflexivity.
Qed.

(** The assignments of the totals keep every row that is apart from the
    three regions. *)
Lemma totals_writes_kept t e1 e2 e3 d p :
  e1 <> [] -> e2 <> [] -> e3 <> [] ->
  (forall row, Dom.querySelector [] (row_sel p) d = Some row ->
               apart row e1 = true /\ apart row e2 = true /\ apart row e3 = true) ->
  row_kept d (totals_writes t e1 e2 e3 d) p.
Proof.
  intros N1 N2 N3 Ha. unfold totals_writes. cbv zeta.
  set (d1 := update e1 _ d).
  assert (K1 : row_kept d d1 p).
  { apply row_kept_update; auto using preserves_none_row_text.
    intros row Hr. now apply Ha. }
  set (d2 := update e2 _ d1).
  assert (K2 : row_kept d d2 p).
  { apply (row_kept_trans _ d1); auto.
    apply row_kept_update; auto using preserves_none_row_text.
    intros row Hr. rewrite (proj1 K1) in Hr. now apply Ha. }
  set (d3 := update e3 _ d2).
  assert (K3 : row_kept d d3 p).
  { apply (row_kept_trans _ d2); auto.
    apply row_kept_update; auto using preserves_none_row_text.
    intros row Hr. rewrite (proj1 K2) in Hr. now apply Ha. }
  apply (row_kept_trans _ d3); auto.
  apply row_kept_update; auto using preserves_none_row_class.
  intros row Hr. rewrite (proj1 K3) in Hr. now apply Ha.
Qed.

(** *** The rows, one after the other *)

Lemma forEach_table regions : forall l st,
  table_ready regions (doc st) l = true ->
  exists st',
    forEach l update_row st = (Ok tt, st') /\
    btn st' = btn st /\
    (forall q,
       (forall p row, In p l -> Dom.querySelector [] (row_sel p) (doc st) = Some row ->
                      apart row q = true) ->
       get q (doc st') = get q (doc st)) /\
    (forall p row c1 c2 c3 c4,
       In p l -> cells p (doc st) = Some (row, c1, c2, c3, c4) ->
       row_shows p c1 c2 c3 c4 (doc st')).
Proof.
  induction l as [|p l IH]; intros st H.
  - exists st. split; [reflexivity|]. split; [reflexivity|]. split; [reflexivity|].
    intros p row c1 c2 c3 c4 [].
  - simpl in H. apply andb_true_iff in H. destruct H as [H Hl].
    apply andb_true_iff in H. destruct H as [Hp Hap].
    rewrite forallb_forall in Hap.
    destruct (Dom.querySelector [] (row_sel p) (doc st)) as [row|] eqn:Hrow.
    + destruct (row_ready_inv _ _ _ _ Hp Hrow) as (_ & c1 & c2 & c3 & c4 & Hc & Hsep).
      destruct (update_row_effect p st row c1 c2 c3 c4 Hc Hsep)
        as (st1 & Hrun & T1 & T2 & T3 & T4 & C3 & C4 & _).
      pose proof (cells_inv _ _ _ _ _ _ _ Hc)
        as (R & q1 & q2 & q3 & q4 & _ & HR & Q1 & Q2 & Q3 & Q4 & E1 & E2 & E3 & E4).
      assert (Hsep' : separate [q1; q2; q3; q4] = true).
      { subst c1 c2 c3 c4. simpl in *. now rewrite !apart_app in Hsep. }
      pose proof (update_row_run p st row R q1 q2 q3 q4 Hrow HR Q1 Q2 Q3 Q4 Hsep') as Hrun'.
      rewrite Hrun in Hrun'. injection Hrun' as Hst1.
      assert (Hne : row <> []) by (eapply querySelector_nonempty; eauto).
      assert (Hfar : forall p' row', In p' l ->
                Dom.querySelector [] (row_sel p') (doc st) = Some row' ->
                apart row row' = true).
      { intros p' row' Hp' Hr'. specialize (Hap p' Hp').
        unfold rows_apart in Hap. now rewrite Hrow, Hr' in Hap. }
      assert (Hk : forall p', In p' l -> row_kept (doc st) (doc st1) p').
      { intros p' Hp'. rewrite Hst1. cbn [doc set_doc].
        apply row_kept_update; auto using preserves_none_row_writes.
        intros row' Hr'. rewrite apart_sym. eauto. }
      rewrite <- (table_ready_kept regions _ _ l Hk) in Hl.
      destruct (IH st1 Hl) as (st' & Hrest & Hb & Hframe & Hshow).
      exists st'. split; [|split; [|split]].
      * cbn [forEach]. now rewrite (bind_ok _ _ _ _ _ Hrun).
      * rewrite Hb, Hst1. reflexivity.
      * intros q Hq. rewrite Hframe.
        -- rewrite Hst1. cbn [doc set_doc]. apply get_update_apart.
           apply (Hq p row); [now left|assumption].
        -- intros p' row' Hp' Hr'. rewrite (proj1 (Hk p' Hp')) in Hr'.
           apply (Hq p' row'); [now right|assumption].
      * intros p0 row0 a1 a2 a3 a4 [<-|Hin] Hc0.
        -- rewrite Hc in Hc0. injection Hc0 as <- <- <- <- <-.
           assert (Hget : forall x, get (row ++ x)%list (doc st')
                                    = get (row ++ x)%list (doc st1)).
           { intros x. apply Hframe. intros p' row' Hp' Hr'.
             rewrite (proj1 (Hk p' Hp')) in Hr'. rewrite apart_sym.
             apply apart_inside. now apply (Hfar p'). }
           subst c1 c2 c3 c4.
           apply (row_shows_get p _ _ _ _ (doc st1)); auto.
           unfold row_shows. cbv zeta. auto 10.
        -- rewrite <- (cells_kept _ _ _ (Hk p0 Hin)) in Hc0. eauto.
    + destruct (IH st Hl) as (st' & Hrest & Hb & Hframe & Hshow).
      exists st'. split; [|split; [|split]]; auto.
      * cbn [forEach]. now rewrite (bind_ok _ _ _ _ _ (update_row_absent p st Hrow)).
      * intros q Hq. apply Hframe. intros p' row' Hp' Hr'.
        apply (Hq p' row'); [now right|assumption].
      * intros p0 row0 a1 a2 a3 a4 [<-|Hin] Hc0; [|eauto].
        apply cells_inv in Hc0. destruct Hc0 as (R & q1 & q2 & q3 & q4 & Hr & _).
        rewrite Hrow in Hr. discriminate.
Qed.

End TableFacts.

Import Layout TableFacts.

(** C4, as stated, fails twice: an [error] field that is the empty string is
    falsy and no alert is created; and when the page has no
    [main.container] the alert call throws, so the totals are not
    written (the region still reads "-"). *)
Lemma C4_counterexample :
  (error (payload (Some "") []) = Some "" /\
   fst (on_data (payload (Some "") []) (page_of page_doc)) = Ok tt /\
   count marker (doc (snd (on_data (payload (Some "") []) (page_of page_doc)))) = 0) /\
  (error (payload (Some "X") []) = Some "X" /\
   fst (on_data (payload (Some "X") []) (page_of no_container_doc)) = Throw TypeError /\
   text_at invested_path
     (doc (snd (on_data (payload (Some "X") []) (page_of no_container_doc))))
   = Some "-").
Proof.
  repeat split; vm_compute; reflexivity.
Qed.

(** C4, amended: for a decoded response whose [error] field is a non-empty
    string X, when the alert call returns (the container is there), a
    warning-severity alert whose markup contains X is in the document, alone
    of its kind (the elements a browser would build from the markup of X are
    not counted), and the handler goes on as it does for the same payload
    without the field.  On a page that, with the alert displayed, has its
    three regions of totals at places apart and, for every entry, no row or
    a row with its four cells at places apart, the rows being apart from one
    another and from the regions, the handler then returns: the three
    regions read the totals of the payload, [#totalPL] has the class of
    their sign, the cells of every row that is found for an entry read that
    entry, and the control is enabled again with its label. *)
Theorem C4_error_alert_then_updates data st X st1 e1 e2 e3 :
  error data = Some X ->
  X <> "" ->
  showAlert "warning" X st = (Ok tt, st1) ->
  Dom.querySelector [] (ById "totalInvested") (doc st1) = Some e1 ->
  Dom.querySelector [] (ById "totalValue") (doc st1) = Some e2 ->
  Dom.querySelector [] (ById "totalPL") (doc st1) = Some e3 ->
  separate [e1; e2; e3] = true ->
  table_ready [e1; e2; e3] (doc st1) (portfolios data) = true ->
  (exists a pre post,
     get a (doc st1)
     = Some (Elem "div"
               [("class", "alert alert-warning alert-dismissible fade show ajax-alert");
                ("role", "alert")]
               [Markup (pre ++ X ++ post)])) /\
  count marker (doc st1) = 1 /\
  on_data data st
  = on_data {| error := None; totals := totals data; portfolios := portfolios data |} st1 /\
  exists st',
    on_data data st = (Ok tt, st') /\
    let t := totals data in
    let tSign := if Number.ge (total_profit_loss t) Number.zero then "+" else "" in
    text_at e1 (doc st') = Some ("$" ++ Number.toFixed (total_invested t) 2) /\
    text_at e2 (doc st') = Some ("$" ++ Number.toFixed (total_current_value t) 2) /\
    text_at e3 (doc st')
    = Some (tSign ++ "$" ++ Number.toFixed (total_profit_loss t) 2 ++ " ("
            ++ tSign ++ Number.toFixed (total_profit_loss_percent t) 2 ++ "%)") /\
    class_at e3 (doc st')
    = Some ("card-title " ++ (if Number.ge (total_profit_loss t) Number.zero
                              then "profit" else "loss")) /\
    (forall p row c1 c2 c3 c4,
       In p (portfolios data) ->
       cells p (doc st1) = Some (row, c1, c2, c3, c4) ->
       let plSign := if Number.ge (profit_loss p) Number.zero then "+" else "" in
       let plClass := if Number.ge (profit_loss p) Number.zero then "profit" else "loss" in
       text_at c1 (doc st') = Some ("$" ++ Number.toFixed (current_price p) 2) /\
       text_at c2 (doc st') = Some ("$" ++ Number.toFixed (current_value p) 2) /\
       text_at c3 (doc st') = Some (plSign ++ "$" ++ Number.toFixed (profit_loss p) 2) /\
       text_at c4 (doc st')
       = Some ("(" ++ plSign ++ Number.toFixed (profit_loss_percent p) 2 ++ "%)") /\
       class_at c3 (doc st') = Some (plClass ++ " profit-loss") /\
       class_at c4 (doc st') = Some (plClass ++ " profit-loss-percent")) /\
    btn st' = {| disabled := false; innerHTML := refresh_label;
                 dataset_url := dataset_url (btn st) |}.
Proof.
  intros He HX Hs H1 H2 H3 Hsep Hready.
  destruct (showAlert_ok _ _ _ _ Hs) as [Hc [a Ha]].
  assert (Hstep : on_data data st
                  = on_data {| error := None; totals := totals data;
                               portfolios := portfolios data |} st1).
  { unfold on_data. rewrite He. cbn [truthy message_of error totals portfolios].
    apply String.eqb_neq in HX. rewrite HX. cbn [negb].
    rewrite (bind_ok _ _ _ _ _ Hs). reflexivity. }
  split; [|split; [exact Hc|split; [exact Hstep|]]].
  { exists a, (nl ++ "        "), (nl ++ "        " ++ close_button ++ nl ++ "    ").
    rewrite Ha. reflexivity. }
  (* the totals *)
  pose proof (update_totals_run (totals data) st1 e1 e2 e3 H1 H2 H3 Hsep) as Ht.
  set (st2 := set_doc (totals_writes (totals data) e1 e2 e3 (doc st1)) st1) in Ht.
  pose proof (totals_writes_read (totals data) e1 e2 e3 (doc st1) H1 H2 H3 Hsep)
    as (T1 & T2 & T3 & C3).
  assert (Hfar : forall p row, In p (portfolios data) ->
            Dom.querySelector [] (row_sel p) (doc st1) = Some row ->
            apart row e1 = true /\ apart row e2 = true /\ apart row e3 = true).
  { intros p row Hp Hr.
    destruct (row_ready_inv _ _ _ _ (table_ready_in _ _ _ _ Hready Hp) Hr) as [Hapart _].
    repeat split; apply Hapart; simpl; auto. }
  assert (Hk : forall p, In p (portfolios data) -> row_kept (doc st1) (doc st2) p).
  { intros p Hp. unfold st2. cbn [doc set_doc].
    apply totals_writes_kept; eauto using querySelector_nonempty. }
  rewrite <- (table_ready_kept _ _ _ _ Hk) in Hready.
  (* the rows *)
  destruct (forEach_table _ _ st2 Hready) as (st3 & Hrows & Hb & Hframe & Hshow).
  assert (Hreg : forall e, (e = e1 \/ e = e2 \/ e = e3) ->
                           get e (doc st3) = get e (doc st2)).
  { intros e Hin. apply Hframe. intros p row Hp Hr.
    rewrite (proj1 (Hk p Hp)) in Hr. destruct (Hfar p row Hp Hr) as (A1 & A2 & A3).
    destruct Hin as [->|[->| ->]]; assumption. }
  eexists. split.
  { rewrite Hstep. unfold on_data. cbn [truthy error totals portfolios].
    rewrite (bind_ok _ _ _ tt st1) by reflexivity.
    rewrite (bind_ok _ _ _ _ _ Ht).
    rewrite (bind_ok _ _ _ _ _ Hrows).
    apply restore_button_run. }
  cbv zeta. cbn [doc set_btn btn].
  rewrite (text_at_get e1 (doc st2)), (text_at_get e2 (doc st2)),
    (text_at_get e3 (doc st2)), (class_at_get e3 (doc st2)) by auto.
  split; [exact T1|]. split; [exact T2|]. split; [exact T3|]. split; [exact C3|].
  split.
  - intros p row c1 c2 c3 c4 Hp Hcells.
    rewrite <- (cells_kept _ _ _ (Hk p Hp)) in Hcells.
    exact (Hshow p row c1 c2 c3 c4 Hp Hcells).
  - rewrite Hb. unfold st2. cbn [btn set_doc].
    now rewrite (unchanged_showAlert_btn _ _ _ _ _ Hs).
Qed.

Lemma C4_witness :
  error error_payload = Some "boom" /\
  "boom" <> "" /\
  showAlert "warning" "boom" (page_of two_rows_doc) = (Ok tt, boom_page) /\
  Dom.querySelector [] (ById "totalInvested") (doc boom_page) = Some [0; 0; 0; 2] /\
  Dom.querySelector [] (ById "totalValue") (doc boom_page) = Some [0; 0; 0; 3] /\
  Dom.querySelector [] (ById "totalPL") (doc boom_page) = Some [0; 0; 0; 4] /\
  separate [[0; 0; 0; 2]; [0; 0; 0; 3]; [0; 0; 0; 4]] = true /\
  table_ready [[0; 0; 0; 2]; [0; 0; 0; 3]; [0; 0; 0; 4]] (doc boom_page)
    (portfolios error_payload) = true /\
  count marker (doc boom_page) = 1 /\
  exists st',
    on_data error_payload (page_of two_rows_doc) = (Ok tt, st') /\
    text_at [0; 0; 0; 2] (doc st') = Some "$100.00" /\
    text_at [0; 0; 0; 4] (doc st') = Some "+$10.00 (+10.00%)" /\
    text_at [0; 0; 0; 5; 0; 0; 3] (doc st') = Some "$-12.35" /\
    class_at [0; 0; 0; 5; 0; 0; 3] (doc st') = Some "loss profit-loss" /\
    text_at [0; 0; 0; 5; 0; 1; 3] (doc st') = Some "+$4.00" /\
    class_at [0; 0; 0; 5; 0; 1; 3] (doc st') = Some "profit profit-loss" /\
    disabled (btn st') = false.
Proof.
  assert (HX : "boom" <> "") by discriminate.
  assert (Hs : showAlert "warning" "boom" (page_of two_rows_doc) = (Ok tt, boom_page))
    by (vm_compute; reflexivity).
  assert (H1 : Dom.querySelector [] (ById "totalInvested") (doc boom_page)
               = Some [0; 0; 0; 2]) by (vm_compute; reflexivity).
  assert (H2 : Dom.querySelector [] (ById "totalValue") (doc boom_page)
               = Some [0; 0; 0; 3]) by (vm_compute; reflexivity).
  assert (H3 : Dom.querySelector [] (ById "totalPL") (doc boom_page)
               = Some [0; 0; 0; 4]) by (vm_compute; reflexivity).
  assert (H4 : separate [[0; 0; 0; 2]; [0; 0; 0; 3]; [0; 0; 0; 4]] = true)
    by reflexivity.
  assert (H5 : table_ready [[0; 0; 0; 2]; [0; 0; 0; 3]; [0; 0; 0; 4]] (doc boom_page)
                 (portfolios error_payload) = true) by (vm_compute; reflexivity).
  assert (R7 : cells loss_entry (doc boom_page)
               = Some ([0; 0; 0; 5; 0; 0], [0; 0; 0; 5; 0; 0; 1], [0; 0; 0; 5; 0; 0; 2],
                       [0; 0; 0; 5; 0; 0; 3], [0; 0; 0; 5; 0; 0; 4]))
    by (vm_compute; reflexivity).
  assert (R9 : cells gain_entry (doc boom_page)
               = Some ([0; 0; 0; 5; 0; 1], [0; 0; 0; 5; 0; 1; 1], [0; 0; 0; 5; 0; 1; 2],
                       [0; 0; 0; 5; 0; 1; 3], [0; 0; 0; 5; 0; 1; 4]))
    by (vm_compute; reflexivity).
  split; [reflexivity|]. repeat (split; [assumption|]).
  destruct (C4_error_alert_then_updates error_payload (page_of two_rows_doc) "boom"
              boom_page _ _ _ eq_refl HX Hs H1 H2 H3 H4 H5)
    as (_ & Hc & _ & st' & Hrun & T1 & _ & T3 & _ & Hrows & Hb).
  split; [exact Hc|].
  exists st'. split; [exact Hrun|]. split; [exact T1|]. split; [exact T3|].
  destruct (Hrows loss_entry _ _ _ _ _ (or_introl eq_refl) R7)
    as (_ & _ & L3 & _ & LC & _).
  destruct (Hrows gain_entry _ _ _ _ _ (or_intror (or_intror (or_introl eq_refl))) R9)
    as (_ & _ & G3 & _ & GC & _).
  split; [exact L3|]. split; [exact LC|]. split; [exact G3|]. split; [exact GC|].
  now rewrite Hb.
Defined.
